(** * download_file: a resumable, integrity-verified, retrying HTTP download

    A shallow embedding of [downloader.py] and the proofs of its
    specification.  The function talks to three collaborators that are
    not part of the repository: the [requests] library (the network),
    [pathlib]/[open] (the filesystem) and [hashlib] (the digests).  Each
    of them is modelled at its boundary:

    - the network is a scripted server, a function from the number of
      requests already sent and the request to the reply;
    - the filesystem is the destination path and its parent directory,
      held in the state that every operation threads;
    - [hashlib] is a table from algorithm names to digest functions; the
      theorems quantify over every such table, and a table holding a
      real SHA-1 serves the concrete runs.

    Exceptions are values: a computation returns or raises, and
    [try_except] is the [try] statement.

    The first embedding takes the callback to return, the digest to be
    computable and the destination to be a regular file that can be
    deleted; [Faults] is the same function without these assumptions,
    and the two agree, run for run, where they hold.  The installers,
    the extractor and the validator follow. *)

From Stdlib Require Import ZArith List String Ascii Bool Lia.
From Stdlib.Strings Require Import Byte.
From Stdlib Require Import DecimalString.
From Stdlib Require Import Sorted.
Import ListNotations.

Local Open Scope string_scope.
Local Open Scope list_scope.
Local Open Scope Z_scope.

(** ** Bytes *)

Definition bytes := list byte.

Definition byte_val (b : byte) : Z := Z.of_N (Byte.to_N b).

(** [len(chunk)], a Python int. *)
Definition len (b : bytes) : Z := Z.of_nat (List.length b).

Definition bytes_of_string (s : string) : bytes := list_byte_of_string s.

(** ** SHA-1, the default [hash_algo] (FIPS 180-4) *)

Module Sha1.

Definition w32 (x : Z) : Z := Z.land x 4294967295.

Definition rotl (n x : Z) : Z :=
  w32 (Z.lor (Z.shiftl x n) (Z.shiftr x (32 - n))).

Definition add32 (x y : Z) : Z := w32 (x + y).

Definition not32 (x : Z) : Z := Z.lxor x 4294967295.

(** Big-endian bytes of [x], [n] of them. *)
Fixpoint be_bytes (n : nat) (x : Z) : list Z :=
  match n with
  | O => []
  | S k => Z.land (Z.shiftr x (8 * Z.of_nat k)) 255 :: be_bytes k x
  end.

(** The message, then 0x80, zeros up to 56 modulo 64, and the bit
    length on eight bytes. *)
Definition pad (m : list Z) : list Z :=
  let l := Z.of_nat (List.length m) in
  m ++ [128] ++ repeat 0 (Z.to_nat ((55 - l) mod 64)) ++ be_bytes 8 (8 * l).

Fixpoint be_words (fuel : nat) (bs : list Z) : list Z :=
  match fuel, bs with
  | S k, b0 :: b1 :: b2 :: b3 :: rest =>
      (b0 * 16777216 + b1 * 65536 + b2 * 256 + b3) :: be_words k rest
  | _, _ => []
  end.

(** The message schedule, newest word first: [rev_w] holds
    w(t-1), w(t-2), ... and grows by [n] words. *)
Fixpoint schedule (n : nat) (rev_w : list Z) : list Z :=
  match n with
  | O => rev_w
  | S k =>
      let x := Z.lxor (Z.lxor (nth 2 rev_w 0) (nth 7 rev_w 0))
                      (Z.lxor (nth 13 rev_w 0) (nth 15 rev_w 0)) in
      schedule k (rotl 1 x :: rev_w)
  end.

Definition f_t (t b c d : Z) : Z :=
  if t <? 20 then Z.lor (Z.land b c) (Z.land (not32 b) d)
  else if t <? 40 then Z.lxor (Z.lxor b c) d
  else if t <? 60 then Z.lor (Z.lor (Z.land b c) (Z.land b d)) (Z.land c d)
  else Z.lxor (Z.lxor b c) d.

Definition k_t (t : Z) : Z :=
  if t <? 20 then 1518500249
  else if t <? 40 then 1859775393
  else if t <? 60 then 2400959708
  else 3395469782.

Record regs := Regs { ra : Z; rb : Z; rc : Z; rd : Z; re : Z }.

Definition round (s : regs * Z) (w : Z) : regs * Z :=
  let '(r, t) := s in
  let tmp :=
    add32 (add32 (add32 (add32 (rotl 5 (ra r)) (f_t t (rb r) (rc r) (rd r)))
                        (re r)) (k_t t)) w in
  (Regs tmp (ra r) (rotl 30 (rb r)) (rc r) (rd r), t + 1).

Definition compress (h : regs) (block : list Z) : regs :=
  let w := rev (schedule 64 (rev (be_words 16 block))) in
  let r := fst (fold_left round w (h, 0)) in
  Regs (add32 (ra h) (ra r)) (add32 (rb h) (rb r)) (add32 (rc h) (rc r))
       (add32 (rd h) (rd r)) (add32 (re h) (re r)).

Fixpoint blocks (fuel : nat) (h : regs) (bs : list Z) : regs :=
  match fuel, bs with
  | S k, _ :: _ => blocks k (compress h (firstn 64 bs)) (skipn 64 bs)
  | _, _ => h
  end.

Definition init : regs :=
  Regs 1732584193 4023233417 2562383102 271733878 3285377520.

Definition digest (m : bytes) : list Z :=
  let p := pad (map byte_val m) in
  let r := blocks (List.length p) init p in
  flat_map (be_bytes 4) [ra r; rb r; rc r; rd r; re r].

Definition hex_digit (d : Z) : ascii :=
  nth (Z.to_nat d)
      (list_ascii_of_string "0123456789abcdef") "0"%char.

(** [hexdigest()]: two lowercase hexadecimal digits per byte. *)
Fixpoint hex (bs : list Z) : string :=
  match bs with
  | [] => EmptyString
  | b :: rest =>
      String (hex_digit (Z.shiftr b 4)) (String (hex_digit (Z.land b 15)) (hex rest))
  end.

Definition hexdigest (m : bytes) : string := hex (digest m).

End Sha1.

(** ** hashlib

    [hashlib.new(name)] raises [ValueError] for a name the library does
    not support and otherwise gives a hash object.  [update] appends to
    what the object has seen and [hexdigest] is a function of all of it,
    so an object is its digest function together with the bytes fed so
    far. *)

Record HashLib := { hashlib_new : string -> option (bytes -> string) }.

(** A table that supports ["sha1"] alone. *)
Definition sha1_lib : HashLib :=
  {| hashlib_new := fun name =>
       if String.eqb name "sha1" then Some Sha1.hexdigest else None |}.

(** ** Strings *)

(** [str(n)] of a Python int. *)
Definition str (n : Z) : string := NilZero.string_of_int (Z.to_int n).

Definition lower_ascii (c : ascii) : ascii :=
  let n := nat_of_ascii c in
  if (Nat.leb 65 n && Nat.leb n 90)%bool then ascii_of_nat (n + 32) else c.

(** [s.lower()] on ASCII text. *)
Fixpoint lower (s : string) : string :=
  match s with
  | EmptyString => EmptyString
  | String c r => String (lower_ascii c) (lower r)
  end.

(** ** Exceptions and outcomes *)

Inductive exn :=
| RequestException          (* requests.RequestException and its subclasses *)
| OSError
| ValueError
| HashMismatchError (msg : string)
| DownloadError (msg : string)
| TypeError                 (* hexdigest() of a variable-length digest *)
| CallbackRaised (caught : bool) (name : string).
                            (* an exception of class [name] out of the caller's
                               callback; [caught]: the class derives from one
                               of the three that line 74 catches *)

Inductive outcome (A : Type) :=
| Return (a : A)
| Raise (e : exn).
Arguments Return {A} a.
Arguments Raise {A} e.

(** ** The network *)

Inductive Method := HEAD | GET.

(** A request of this module: its method, the URL and the offset of the
    [Range: bytes=<offset>-] header when one is sent. *)
Record Request := mkRequest {
  req_method : Method;
  req_url : string;
  req_range : option Z
}.

(** The [content-length] header as
    [int(headers.get('content-length', 0))] reads it: absent (the
    default 0 is taken), present with text [int] rejects (ValueError),
    or present with the integer [n]. *)
Inductive LengthHeader :=
| NoLength
| BadLength
| Length (n : Z).

(** A response: [body] lists the chunks [iter_content] yields, and
    [body_breaks] says the stream then raises (a connection lost or a
    read timed out) instead of ending. *)
Record Response := mkResponse {
  status_code : Z;
  content_length : LengthHeader;
  body : list bytes;
  body_breaks : bool
}.

(** What [requests.head] or [requests.get] does: raise (no connection,
    a timeout) or hand a response back. *)
Inductive Reply :=
| Fails
| Responds (r : Response).

(** The server, scripted: the reply to a request given how many
    requests were sent before it. *)
Definition Server := nat -> Request -> Reply.

(** ** The filesystem and the rest of the world *)

(** The destination's parent directory: there, absent but creatable, or
    impossible to create (a file in the way, no permission). *)
Inductive DirState := DirPresent | DirMissing | DirBlocked.

Inductive Mode := WB | AB.

Record World := mkWorld {
  parent : DirState;
  dest : option bytes;              (* None: the path does not exist *)
  sent : list Request;              (* requests issued, oldest first *)
  progress : list (Z * Z);          (* calls of progress_callback *)
  warnings : list (Z * exn)         (* logger.warning: attempt number, error *)
}.

Definition set_parent (d : DirState) (w : World) : World :=
  mkWorld d (dest w) (sent w) (progress w) (warnings w).

Definition set_dest (f : option bytes) (w : World) : World :=
  mkWorld (parent w) f (sent w) (progress w) (warnings w).

Definition add_sent (r : Request) (w : World) : World :=
  mkWorld (parent w) (dest w) (sent w ++ [r]) (progress w) (warnings w).

Definition add_progress (p : Z * Z) (w : World) : World :=
  mkWorld (parent w) (dest w) (sent w) (progress w ++ [p]) (warnings w).

Definition add_warning (x : Z * exn) (w : World) : World :=
  mkWorld (parent w) (dest w) (sent w) (progress w) (warnings w ++ [x]).

(** A destination that exists lies in a directory that exists. *)
Definition wf_world (w : World) : Prop :=
  dest w = None \/ parent w = DirPresent.

(** ** The monad: state and exceptions *)

Definition M (A : Type) : Type := World -> outcome A * World.

Definition ret {A} (a : A) : M A := fun w => (Return a, w).

Definition raise {A} (e : exn) : M A := fun w => (Raise e, w).

Definition bind {A B} (m : M A) (k : A -> M B) : M B :=
  fun w =>
    match m w with
    | (Return a, w1) => k a w1
    | (Raise e, w1) => (Raise e, w1)
    end.

Notation "x <- m ;; k" := (bind m (fun x => k))
  (at level 100, m at next level, right associativity).
Notation "m ;;; k" := (bind m (fun _ => k))
  (at level 100, right associativity).

(** [try: m except <classes>: h]: an exception of [m] that [catches]
    accepts runs the handler in the state [m] left. *)
Definition try_except {A} (m : M A) (catches : exn -> bool) (h : exn -> M A) : M A :=
  fun w =>
    match m w with
    | (Return a, w1) => (Return a, w1)
    | (Raise e, w1) => if catches e then h e w1 else (Raise e, w1)
    end.

(** ** Primitive operations *)

(** [dest.parent.mkdir(parents=True, exist_ok=True)]. *)
Definition mkdir_parents : M unit :=
  fun w =>
    match parent w with
    | DirBlocked => (Raise OSError, w)
    | _ => (Return tt, set_parent DirPresent w)
    end.

(** [dest.exists()]. *)
Definition dest_exists : M bool :=
  fun w => (Return (match dest w with Some _ => true | None => false end), w).

(** [dest.unlink()]. *)
Definition dest_unlink : M unit :=
  fun w =>
    match dest w with
    | Some _ => (Return tt, set_dest None w)
    | None => (Raise OSError, w)
    end.

(** [dest.stat().st_size]. *)
Definition dest_size : M Z :=
  fun w =>
    match dest w with
    | Some d => (Return (len d), w)
    | None => (Raise OSError, w)
    end.

(** [open(dest, mode)] for writing: ['wb'] truncates, ['ab'] keeps what
    is there; both create the file, in a directory that exists. *)
Definition open_write (mode : Mode) : M unit :=
  fun w =>
    match parent w with
    | DirPresent =>
        match mode, dest w with
        | AB, Some d => (Return tt, w)
        | _, _ => (Return tt, set_dest (Some []) w)
        end
    | _ => (Raise OSError, w)
    end.

(** [f.write(chunk)] at the end of the open file. *)
Definition write (chunk : bytes) : M unit :=
  fun w =>
    match dest w with
    | Some d => (Return tt, set_dest (Some (d ++ chunk)) w)
    | None => (Raise OSError, w)
    end.

(** The chunks [iter(lambda: f.read(n), b'')] yields over a file that
    holds [data]: [read(n)] gives the next [n] bytes for a positive [n],
    everything left for a negative one and [b''] for 0; the first empty
    read ends the iteration. *)
Fixpoint read_chunks (fuel : nat) (n : nat) (data : bytes) : list bytes :=
  match fuel, data with
  | S k, _ :: _ => firstn n data :: read_chunks k n (skipn n data)
  | _, _ => []
  end.

Definition file_chunks (chunk_size : Z) (data : bytes) : list bytes :=
  if chunk_size =? 0 then []
  else if chunk_size <? 0 then
    match data with [] => [] | _ => [data] end
  else read_chunks (List.length data) (Z.to_nat chunk_size) data.

(** [requests.head(url)] and [requests.get(url, headers=...)]. *)
Definition send (srv : Server) (rq : Request) : M Response :=
  fun w =>
    match srv (List.length (sent w)) rq with
    | Fails => (Raise RequestException, add_sent rq w)
    | Responds r => (Return r, add_sent rq w)
    end.

(** [response.raise_for_status()]: an HTTPError for 4xx and 5xx. *)
Definition raise_for_status (r : Response) : M unit :=
  if ((400 <=? status_code r) && (status_code r <? 600))%bool
  then raise RequestException else ret tt.

(** [int(response.headers.get('content-length', 0))]. *)
Definition int_content_length (r : Response) : M Z :=
  match content_length r with
  | NoLength => ret 0
  | BadLength => raise ValueError
  | Length n => ret n
  end.

(** [progress_callback(downloaded, total_size)]. *)
Definition call_progress (downloaded total : Z) : M unit :=
  fun w => (Return tt, add_progress (downloaded, total) w).

(** [logger.warning(...)]. *)
Definition log_warning (attempt : Z) (e : exn) : M unit :=
  fun w => (Return tt, add_warning (attempt, e) w).

(** ** download_file *)

(** The arguments.  [dest] is the path the world tracks; [timeout] is
    handed to [requests] as it is and shows only in the replies;
    [progress_callback] is [true] when a callback is given, and its
    calls are recorded in the world. *)
Record Args := mkArgs {
  url : string;
  expected_hash : option string;
  hash_algo : string;
  progress_callback : bool;
  chunk_size : Z;
  max_retries : Z;
  resume : bool
}.

(** [if expected_hash:], the truth value of an optional string. *)
Definition hash_supplied (a : Args) : bool :=
  match expected_hash a with
  | Some (String _ _) => true
  | _ => false
  end.

Definition expected (a : Args) : string :=
  match expected_hash a with Some e => e | None => EmptyString end.

(** Lines 34-40: the size probe and the choice it makes. *)
Definition probe (srv : Server) (a : Args) : M (Mode * Z) :=
  head_resp <- send srv (mkRequest HEAD (url a) None) ;;
  raise_for_status head_resp ;;;
  remote_size <- int_content_length head_resp ;;
  local_size <- dest_size ;;
  if local_size <? remote_size then ret (AB, local_size) else ret (WB, 0).

(** Lines 30-42: the transfer planner.  [except Exception: pass] keeps
    the fresh plan whatever the probe raised. *)
Definition plan (srv : Server) (a : Args) (attempt : Z) : M (Mode * Z) :=
  if resume a then
    there <- dest_exists ;;
    if (there && (attempt =? 0))%bool then
      try_except (probe srv a) (fun _ => true) (fun _ => ret (WB, 0))
    else ret (WB, 0)
  else ret (WB, 0).

(** Lines 56-61: the write loop; it returns [downloaded]. *)
Fixpoint write_chunks (cb : bool) (total_size : Z) (chunks : list bytes)
  (downloaded : Z) : M Z :=
  match chunks with
  | [] => ret downloaded
  | chunk :: rest =>
      match chunk with
      | [] => write_chunks cb total_size rest downloaded
      | _ :: _ =>
          write chunk ;;;
          let downloaded := downloaded + len chunk in
          (if (cb && negb (total_size =? 0))%bool
           then call_progress downloaded total_size else ret tt) ;;;
          write_chunks cb total_size rest downloaded
      end
  end.

(** Lines 44-61: the stream writer, given the plan. *)
Definition stream (srv : Server) (a : Args) (p : Mode * Z) : M unit :=
  let '(mode, resume_pos) := p in
  let headers := if 0 <? resume_pos then Some resume_pos else None in
  response <- send srv (mkRequest GET (url a) headers) ;;
  raise_for_status response ;;;
  let '(mode, resume_pos) :=
    if ((0 <? resume_pos) && (status_code response =? 200))%bool
    then (WB, 0) else (mode, resume_pos) in
  content <- int_content_length response ;;
  let total_size := content + resume_pos in
  open_write mode ;;;
  _ <- write_chunks (progress_callback a) total_size (body response) resume_pos ;;
  if body_breaks response then raise RequestException else ret tt.

(** Lines 65-67: [open(dest, 'rb')] and the chunks the loop feeds to
    the hash object. *)
Definition read_dest (chunk_size : Z) : M (list bytes) :=
  fun w =>
    match dest w with
    | Some data => (Return (file_chunks chunk_size data), w)
    | None => (Raise OSError, w)
    end.

(** Lines 63-70: the integrity verifier. *)
Definition verify (lib : HashLib) (a : Args) : M unit :=
  if hash_supplied a then
    match hashlib_new lib (hash_algo a) with
    | None => raise ValueError
    | Some hexdigest =>
        chunks <- read_dest (chunk_size a) ;;
        if String.eqb (hexdigest (List.concat chunks)) (expected a) then ret tt
        else
          dest_unlink ;;;
          raise (HashMismatchError ("Hash mismatch for " ++ url a)%string)
    end
  else ret tt.

(** Lines 30-72: the body of the [try]. *)
Definition attempt_body (lib : HashLib) (srv : Server) (a : Args) (attempt : Z) : M bool :=
  p <- plan srv a attempt ;;
  stream srv a p ;;;
  verify lib a ;;;
  ret true.

(** [except (requests.RequestException, OSError, ValueError)]. *)
Definition transient (e : exn) : bool :=
  match e with
  | RequestException | OSError | ValueError => true
  | HashMismatchError _ | DownloadError _ | TypeError => false
  | CallbackRaised caught _ => caught
  end.

Definition exhausted_message (a : Args) : string :=
  ("Failed to download " ++ url a ++ " after " ++ str (max_retries a) ++ " attempts")%string.

(** Lines 28-81: [for attempt in range(max_retries)], with [n]
    iterations left; [return False] once the range is used up. *)
Fixpoint retry_loop (lib : HashLib) (srv : Server) (a : Args) (n : nat) (attempt : Z)
  : M bool :=
  match n with
  | O => ret false
  | S k =>
      try_except (attempt_body lib srv a attempt) transient
        (fun e =>
           log_warning (attempt + 1) e ;;;
           there <- dest_exists ;;
           (if there then dest_unlink else ret tt) ;;;
           if attempt =? max_retries a - 1
           then raise (DownloadError (exhausted_message a))
           else retry_loop lib srv a k (attempt + 1))
  end.

Definition download_file (lib : HashLib) (srv : Server) (a : Args) : M bool :=
  mkdir_parents ;;;
  retry_loop lib srv a (Z.to_nat (max_retries a)) 0.

(** The number of content requests among [l]: one per attempt. *)
Definition is_get (r : Request) : bool :=
  match req_method r with GET => true | HEAD => false end.

Definition attempts_made (l : list Request) : Z :=
  Z.of_nat (List.length (filter is_get l)).

(** ** download_file when its collaborators fail

    The embedding above takes three things for granted: the caller's
    callback returns, [hexdigest()] gives a digest, and the destination
    is a regular file that [unlink] deletes.  The code has no such
    guarantee.  [Faults] is the same function without them: the callback
    can raise, the hash object can need a length ([shake_128],
    [shake_256]), the destination can be a directory, and [unlink] can
    be refused.  These are facts of the surroundings that no call
    changes, so they are an environment next to the world. *)

Module Faults.

Record Env := mkEnv {
  callback : nat -> Z -> Z -> option (bool * string);
                                    (* what the call [(downloaded, total)] raises
                                       after that many earlier calls; None: it returns *)
  is_directory : bool;              (* [dest] is an existing directory *)
  directory_size : Z;               (* its [st_size] *)
  undeletable : bool;               (* [unlink] is refused (no permission) *)
  needs_length : string -> bool     (* [hexdigest()] of that algorithm wants a length *)
}.

(** [dest.exists()]. *)
Definition dest_exists (env : Env) : M bool :=
  fun w =>
    (Return (is_directory env || match dest w with Some _ => true | None => false end)%bool,
     w).

(** [dest.unlink()]: IsADirectoryError, PermissionError and
    FileNotFoundError are OSErrors. *)
Definition dest_unlink (env : Env) : M unit :=
  fun w =>
    if (is_directory env || undeletable env)%bool then (Raise OSError, w)
    else
      match dest w with
      | Some _ => (Return tt, set_dest None w)
      | None => (Raise OSError, w)
      end.

(** [dest.stat().st_size]. *)
Definition dest_size (env : Env) : M Z :=
  fun w =>
    if is_directory env then (Return (directory_size env), w)
    else
      match dest w with
      | Some d => (Return (len d), w)
      | None => (Raise OSError, w)
      end.

(** [open(dest, mode)] for writing; a directory cannot be opened. *)
Definition open_write (env : Env) (mode : Mode) : M unit :=
  fun w =>
    if is_directory env then (Raise OSError, w)
    else
      match parent w with
      | DirPresent =>
          match mode, dest w with
          | AB, Some d => (Return tt, w)
          | _, _ => (Return tt, set_dest (Some []) w)
          end
      | _ => (Raise OSError, w)
      end.

(** [progress_callback(downloaded, total_size)]: the call is made, and
    the callback returns or raises. *)
Definition call_progress (env : Env) (downloaded total : Z) : M unit :=
  fun w =>
    match callback env (List.length (progress w)) downloaded total with
    | None => (Return tt, add_progress (downloaded, total) w)
    | Some (caught, name) =>
        (Raise (CallbackRaised caught name), add_progress (downloaded, total) w)
    end.

(** Lines 34-40. *)
Definition probe (env : Env) (srv : Server) (a : Args) : M (Mode * Z) :=
  head_resp <- send srv (mkRequest HEAD (url a) None) ;;
  raise_for_status head_resp ;;;
  remote_size <- int_content_length head_resp ;;
  local_size <- dest_size env ;;
  if local_size <? remote_size then ret (AB, local_size) else ret (WB, 0).

(** Lines 30-42. *)
Definition plan (env : Env) (srv : Server) (a : Args) (attempt : Z) : M (Mode * Z) :=
  if resume a then
    there <- dest_exists env ;;
    if (there && (attempt =? 0))%bool then
      try_except (probe env srv a) (fun _ => true) (fun _ => ret (WB, 0))
    else ret (WB, 0)
  else ret (WB, 0).

(** Lines 56-61. *)
Fixpoint write_chunks (env : Env) (cb : bool) (total_size : Z) (chunks : list bytes)
  (downloaded : Z) : M Z :=
  match chunks with
  | [] => ret downloaded
  | chunk :: rest =>
      match chunk with
      | [] => write_chunks env cb total_size rest downloaded
      | _ :: _ =>
          write chunk ;;;
          let downloaded := downloaded + len chunk in
          (if (cb && negb (total_size =? 0))%bool
           then call_progress env downloaded total_size else ret tt) ;;;
          write_chunks env cb total_size rest downloaded
      end
  end.

(** Lines 44-61. *)
Definition stream (env : Env) (srv : Server) (a : Args) (p : Mode * Z) : M unit :=
  let '(mode, resume_pos) := p in
  let headers := if 0 <? resume_pos then Some resume_pos else None in
  response <- send srv (mkRequest GET (url a) headers) ;;
  raise_for_status response ;;;
  let '(mode, resume_pos) :=
    if ((0 <? resume_pos) && (status_code response =? 200))%bool
    then (WB, 0) else (mode, resume_pos) in
  content <- int_content_length response ;;
  let total_size := content + resume_pos in
  open_write env mode ;;;
  _ <- write_chunks env (progress_callback a) total_size (body response) resume_pos ;;
  if body_breaks response then raise RequestException else ret tt.

(** Lines 65-67. *)
Definition read_dest (env : Env) (chunk_size : Z) : M (list bytes) :=
  fun w =>
    if is_directory env then (Raise OSError, w)
    else
      match dest w with
      | Some data => (Return (file_chunks chunk_size data), w)
      | None => (Raise OSError, w)
      end.

(** Lines 63-70: the hash object is made, fed the file, and only then
    asked for its digest. *)
Definition verify (env : Env) (lib : HashLib) (a : Args) : M unit :=
  if hash_supplied a then
    match hashlib_new lib (hash_algo a) with
    | None => raise ValueError
    | Some hexdigest =>
        chunks <- read_dest env (chunk_size a) ;;
        if needs_length env (hash_algo a) then raise TypeError
        else if String.eqb (hexdigest (List.concat chunks)) (expected a) then ret tt
        else
          dest_unlink env ;;;
          raise (HashMismatchError ("Hash mismatch for " ++ url a)%string)
    end
  else ret tt.

(** Lines 30-72. *)
Definition attempt_body (env : Env) (lib : HashLib) (srv : Server) (a : Args)
  (attempt : Z) : M bool :=
  p <- plan env srv a attempt ;;
  stream env srv a p ;;;
  verify env lib a ;;;
  ret true.

(** Lines 28-81; the handler of lines 75-79 is outside every [try]. *)
Fixpoint retry_loop (env : Env) (lib : HashLib) (srv : Server) (a : Args) (n : nat)
  (attempt : Z) : M bool :=
  match n with
  | O => ret false
  | S k =>
      try_except (attempt_body env lib srv a attempt) transient
        (fun e =>
           log_warning (attempt + 1) e ;;;
           there <- dest_exists env ;;
           (if there then dest_unlink env else ret tt) ;;;
           if attempt =? max_retries a - 1
           then raise (DownloadError (exhausted_message a))
           else retry_loop env lib srv a k (attempt + 1))
  end.

Definition download_file (env : Env) (lib : HashLib) (srv : Server) (a : Args) : M bool :=
  mkdir_parents ;;;
  retry_loop env lib srv a (Z.to_nat (max_retries a)) 0.

(** Nothing fails but the network, the file system on a regular file
    and [hashlib.new]: the callback returns, the destination is no
    directory and can be deleted. *)
Definition quiet (env : Env) : Prop :=
  (forall n downloaded total, callback env n downloaded total = None) /\
  is_directory env = false /\
  undeletable env = false.

(** Nothing is at the destination path. *)
Definition gone (env : Env) (w : World) : Prop :=
  dest w = None /\ is_directory env = false.

(** A destination that exists lies in a directory that exists. *)
Definition wf_world (env : Env) (w : World) : Prop :=
  gone env w \/ parent w = DirPresent.

End Faults.

(** * Vocabulary of the statements and proofs *)

(** A relation between the state before and the state after that every
    run of [m] satisfies. *)
Definition keeps {A} (R : World -> World -> Prop) (m : M A) : Prop :=
  forall w, R w (snd (m w)).

Record preorder (R : World -> World -> Prop) : Prop := {
  pre_refl : forall w, R w w;
  pre_trans : forall w1 w2 w3, R w1 w2 -> R w2 w3 -> R w1 w3
}.

(** The exceptions a computation can raise all satisfy [P]. *)
Definition raises_only {A} (P : exn -> Prop) (m : M A) : Prop :=
  forall w e w', m w = (Raise e, w') -> P e.

(** The relations the stages keep. *)
Definition same_parent (w w' : World) : Prop := parent w' = parent w.
Definition same_dest (w w' : World) : Prop := dest w' = dest w.
Definition same_sent (w w' : World) : Prop := sent w' = sent w.
Definition same_attempts (w w' : World) : Prop :=
  attempts_made (sent w') = attempts_made (sent w).

(** A primitive is settled by running it. *)
Ltac run_prim :=
  let w := fresh "w" in
  intros w; destruct w;
  cbv [same_parent same_dest same_sent
       dest_exists dest_unlink dest_size open_write write read_dest send
       raise_for_status int_content_length call_progress log_warning
       mkdir_parents ret raise];
  simpl;
  repeat match goal with
         | |- context [match ?x with _ => _ end] => destruct x; simpl
         end;
  reflexivity.

(** The errors the retry loop catches. *)
Definition is_transient (e : exn) : Prop := transient e = true.

Ltac run_raise :=
  let w := fresh "w" in
  let e := fresh "e" in
  let w' := fresh "w'" in
  let H := fresh "H" in
  intros w e w' H;
  cbv [dest_exists dest_unlink dest_size open_write write read_dest send
       raise_for_status int_content_length call_progress log_warning
       mkdir_parents ret raise] in H;
  repeat match type of H with
         | context [match ?x with _ => _ end] => destruct x
         end;
  inversion H; subst; try reflexivity.

(** The remote size a reply to the metadata request reports, when the
    probe succeeds: a response, not of an error status, whose declared
    length reads as an integer (0 when none is declared). *)
Definition probed_size (rp : Reply) (remote : Z) : Prop :=
  exists r,
    rp = Responds r /\
    (status_code r < 400 \/ 600 <= status_code r) /\
    (content_length r = Length remote \/ (content_length r = NoLength /\ remote = 0)).

(** The conditions under which the specification resumes, at offset [k]. *)
Definition resume_conditions (srv : Server) (a : Args) (attempt : Z) (w : World) (k : Z)
  : Prop :=
  resume a = true /\
  attempt = 0 /\
  exists data remote,
    dest w = Some data /\
    probed_size (srv (List.length (sent w)) (mkRequest HEAD (url a) None)) remote /\
    k = len data /\
    len data < remote.

(** The file on disk has the expected digest under the named
    algorithm, as the verifier computed it. *)
Definition verified (lib : HashLib) (a : Args) (w : World) : Prop :=
  exists hexdigest data,
    hashlib_new lib (hash_algo a) = Some hexdigest /\
    dest w = Some data /\
    hexdigest (List.concat (file_chunks (chunk_size a) data)) = expected a.

Definition mismatch_message (a : Args) : string := ("Hash mismatch for " ++ url a)%string.

(** The state the handler leaves: the warning logged and no file at
    the destination. *)
Definition cleaned (attempt : Z) (e : exn) (w : World) : World :=
  set_dest None (add_warning (attempt + 1, e) w).

(** A reply on which the attempt fails with an error the loop
    retries: no response at all, an error status, a length header that
    is no integer, or a body that breaks off. *)
Definition fails_transiently (rp : Reply) : bool :=
  match rp with
  | Fails => true
  | Responds r =>
      ((400 <=? status_code r) && (status_code r <? 600))
      || match content_length r with BadLength => true | _ => false end
      || body_breaks r
  end.

(** The content request of an attempt planned at offset [pos]. *)
Definition content_request (a : Args) (pos : Z) : Request :=
  mkRequest GET (url a) (if 0 <? pos then Some pos else None).

(** ** Concrete runs

    The scenarios of the repository's test suite, with the SHA-1 table. *)

Definition test_url : string := "http://example.com/test.txt".

Definition sample_content : bytes :=
  bytes_of_string "Hello, world! This is a test file content.".

Definition sample_sha1 : string := "6f0644ab44e4e9a873fb2448cd1011081ae11321".

(** An empty temporary directory. *)
Definition empty_dir : World := mkWorld DirPresent None [] [] [].

(** The destination holds the first ten bytes of the content. *)
Definition partial_file : World :=
  mkWorld DirPresent (Some (firstn 10 sample_content)) [] [] [].

Definition call (e : option string) (algo : string) (retries : Z) : Args :=
  mkArgs test_url e algo true 8192 retries true.

(** Serves the content whole, in two chunks, and declares its length. *)
Definition serving : Server :=
  fun _ _ =>
    Responds (mkResponse 200 (Length (len sample_content))
                [firstn 16 sample_content; skipn 16 sample_content] false).

(** Status 500 on every request. *)
Definition failing : Server :=
  fun _ _ => Responds (mkResponse 500 NoLength [] false).

(** Honours a range with status 206, sent chunked: no length declared. *)
Definition ranged_chunked : Server :=
  fun _ rq =>
    match req_method rq, req_range rq with
    | GET, Some k =>
        Responds (mkResponse 206 NoLength
                    [firstn 16 (skipn (Z.to_nat k) sample_content);
                     skipn 16 (skipn (Z.to_nat k) sample_content)] false)
    | _, _ =>
        Responds (mkResponse 200 (Length (len sample_content)) [sample_content] false)
    end.

(** Declares 42 bytes to the probe and answers a range request with
    status 206 and nothing more to send. *)
Definition empty_range : Server :=
  fun _ rq =>
    match req_method rq with
    | HEAD => Responds (mkResponse 200 (Length (len sample_content)) [] false)
    | GET => Responds (mkResponse 206 NoLength [] false)
    end.

(** The reply is a response that declares no content length. *)
Definition srv_reply_has_no_length (rp : Reply) : bool :=
  match rp with
  | Responds r => match content_length r with NoLength => true | _ => false end
  | Fails => false
  end.

(** ** Vocabulary of the further properties *)

(** The metadata requests among [l]. *)
Definition is_head (r : Request) : bool :=
  match req_method r with HEAD => true | GET => false end.

Definition probes_made (l : list Request) : Z :=
  Z.of_nat (List.length (filter is_head l)).

(** The content length a response declares, as line 52 reads it when
    it is no error: 0 when none is declared. *)
Definition declared (r : Response) : Z :=
  match content_length r with Length n => n | _ => 0 end.

(** Lines 48-50: the offset and the mode the writer goes on with. *)
Definition effective_offset (pos : Z) (r : Response) : Z :=
  if ((0 <? pos) && (status_code r =? 200))%bool then 0 else pos.

Definition effective_mode (mode : Mode) (pos : Z) (r : Response) : Mode :=
  if ((0 <? pos) && (status_code r =? 200))%bool then WB else mode.

(** What is in the file once it is opened for writing. *)
Definition kept (mode : Mode) (old : option bytes) : bytes :=
  match mode, old with
  | AB, Some d => d
  | _, _ => []
  end.

(** The values of [downloaded] after each non-empty chunk. *)
Fixpoint running (downloaded : Z) (chunks : list bytes) : list Z :=
  match chunks with
  | [] => []
  | [] :: rest => running downloaded rest
  | chunk :: rest => (downloaded + len chunk) :: running (downloaded + len chunk) rest
  end.

(** The calls of the progress callback over one body. *)
Definition reports (cb : bool) (total : Z) (downloaded : Z) (chunks : list bytes)
  : list (Z * Z) :=
  if (cb && negb (total =? 0))%bool
  then map (fun d => (d, total)) (running downloaded chunks) else [].

(** The state a transfer leaves once the response [r] is written out. *)
Definition written (a : Args) (mode : Mode) (pos : Z) (r : Response) (w : World) : World :=
  let off := effective_offset pos r in
  mkWorld (parent w)
    (Some (kept (effective_mode mode pos r) (dest w) ++ List.concat (body r)))
    (sent w ++ [content_request a pos])
    (progress w ++ reports (progress_callback a) (declared r + off) off (body r))
    (warnings w).

(** The metadata request of the planner. *)
Definition probe_request (a : Args) : Request := mkRequest HEAD (url a) None.

(** Line 32: whether the planner probes the remote size. *)
Definition probing (a : Args) (attempt : Z) (w : World) : bool :=
  (resume a && match dest w with Some _ => true | None => false end
   && (attempt =? 0))%bool.

(** Status 500 on the first two requests, then the content
    ([test_download_retry_on_failure]). *)
Definition flaky : Server :=
  fun n _ =>
    if (n <? 2)%nat then Responds (mkResponse 500 NoLength [] false)
    else Responds (mkResponse 200 (Length (len sample_content)) [sample_content] false).

(** Honours a range with status 206 and declares the length of the
    rest ([test_download_resume_from_partial]). *)
Definition ranged : Server :=
  fun _ rq =>
    match req_method rq, req_range rq with
    | GET, Some k =>
        Responds (mkResponse 206 (Length (len sample_content - k))
                    [skipn (Z.to_nat k) sample_content] false)
    | _, _ =>
        Responds (mkResponse 200 (Length (len sample_content)) [sample_content] false)
    end.

(** *** Vocabulary of the faults *)

(** What the stream writer can raise: an error the loop catches, or an
    exception of the callback that it does not. *)
Definition stream_error (e : exn) : Prop :=
  transient e = true \/ exists name, e = CallbackRaised false name.

(** The errors that leave [download_file] as they are, with no
    clean-up after them: the OSError of an [unlink] that the handler
    tried on a directory or was refused, the TypeError of a digest that
    wants a length, and an exception of the callback that the loop does
    not catch. *)
Definition unhandled (env : Faults.Env) (a : Args) (e : exn) : Prop :=
  (e = OSError /\ (Faults.is_directory env = true \/ Faults.undeletable env = true)) \/
  (e = TypeError /\ Faults.needs_length env (hash_algo a) = true) \/
  (exists name, e = CallbackRaised false name).

(** Whether [unlink] in the handler fails in the state [w]. *)
Definition unlink_fails (env : Faults.Env) (w : World) : bool :=
  (Faults.is_directory env
   || (Faults.undeletable env && match dest w with Some _ => true | None => false end))%bool.

(** An attempt whose transfer completes ends with the ValueError of
    [hashlib.new], the file written out in full; the handler deletes
    that file, and the loop raises the exhausted error after the last
    attempt and goes on to the next attempt otherwise. *)
Definition downloads_then_deletes (env : Faults.Env) (lib : HashLib) (srv : Server)
  (a : Args) : Prop :=
  forall (n : nat) (attempt : Z) (w0 w1 : World) (mode : Mode) (pos : Z) (r : Response),
    parent w0 = DirPresent ->
    Faults.plan env srv a attempt w0 = (Return (mode, pos), w1) ->
    srv (List.length (sent w1)) (content_request a pos) = Responds r ->
    fails_transiently (Responds r) = false ->
    exists w2,
      Faults.attempt_body env lib srv a attempt w0 = (Raise ValueError, w2) /\
      dest w2
      = Some (kept (effective_mode mode pos r) (dest w0) ++ List.concat (body r)) /\
      dest (cleaned attempt ValueError w2) = None /\
      Faults.retry_loop env lib srv a (S n) attempt w0
      = if attempt =? max_retries a - 1
        then (Raise (DownloadError (exhausted_message a)), cleaned attempt ValueError w2)
        else Faults.retry_loop env lib srv a n (attempt + 1)
               (cleaned attempt ValueError w2).

(** The body arrives in part, then the connection is lost. *)
Definition breaking : Server :=
  fun _ _ =>
    Responds (mkResponse 200 (Length (len sample_content)) [firstn 16 sample_content] true).

(** No fault at all. *)
Definition calm : Faults.Env :=
  Faults.mkEnv (fun _ _ _ => None) false 0 false (fun _ => false).

(** The callback raises a RuntimeError at every call. *)
Definition raising_callback : Faults.Env :=
  Faults.mkEnv (fun _ _ _ => Some (false, "RuntimeError")) false 0 false (fun _ => false).

(** The destination path is a directory. *)
Definition directory_dest : Faults.Env :=
  Faults.mkEnv (fun _ _ _ => None) true 4096 false (fun _ => false).

(** The destination lies in a directory that lets no entry be removed. *)
Definition locked_dest : Faults.Env :=
  Faults.mkEnv (fun _ _ _ => None) false 0 true (fun _ => false).

(** [hashlib] with a SHAKE name: the object is made, and its
    [hexdigest()] wants a length, so the digest function of that entry
    is never called. *)
Definition shake_lib : HashLib :=
  {| hashlib_new := fun name =>
       if (String.eqb name "sha1" || String.eqb name "shake_128")%bool
       then Some Sha1.hexdigest else None |}.

Definition with_shake : Faults.Env :=
  Faults.mkEnv (fun _ _ _ => None) false 0 false (fun name => String.eqb name "shake_128").

(** ** extractor.py

    [extract_archive] chooses [zipfile] or [tarfile] by the suffix and
    the name of the archive and extracts the members one by one.  The
    two libraries are modelled at their boundary: what opening an
    archive and listing its members gives, and what extracting each
    member does.  [pathlib] gives the suffix and the name of a path. *)

Module Extractor.

(** What the module uses of [pathlib], on the strings of the paths. *)
Record PurePath := mkPurePath {
  suffix : string -> string;        (* Path(p).suffix *)
  name : string -> string           (* Path(p).name *)
}.

(** What [extract] does with one member: it extracts it, finds the
    archive damaged ([BadZipFile], [TarError]) or raises something
    else, with the text of the exception.  A failed extraction can have
    created the member's file already ([zipfile] opens the target
    before it reads the member and checks the CRC at the end of the
    data): [leaves_file] says whether it did. *)
Inductive Extraction :=
| Extracted
| Damaged (msg : string) (leaves_file : bool)
| Refused (text : string) (leaves_file : bool).

Record Member := mkMember {
  member_name : string;
  extraction : Extraction
}.

(** A file under [extract_to]: a member extracted in full, or what a
    failed extraction left of one. *)
Inductive Entry :=
| Whole (name : string)
| Partial (name : string).

(** What opening an archive and listing its members gives. *)
Inductive Listing :=
| Members (l : list Member)
| NotAnArchive (msg : string)       (* BadZipFile, TarError *)
| Unreadable (text : string).       (* any other exception, e.g. OSError *)

Record Libraries := mkLibraries {
  zipfile : string -> Listing;      (* ZipFile(path, 'r') and infolist() *)
  tarfile : string -> Listing       (* tarfile.open(path, 'r:*') and getmembers() *)
}.

(** [extract_to]: there, absent but creatable, or impossible to create,
    with the text of the [OSError]. *)
Inductive Target := Present | Creatable | Blocked (text : string).

Record Disk := mkDisk {
  target : Target;
  extracted : list Entry;           (* files written under extract_to, oldest first *)
  reports : list (Z * Z)            (* calls of progress_callback *)
}.

Inductive error :=
| ExtractionError (msg : string)
| BadArchive (msg : string)         (* zipfile.BadZipFile, tarfile.TarError *)
| Unexpected (text : string).       (* any other exception *)

(** [str(e)]. *)
Definition text_of (e : error) : string :=
  match e with
  | ExtractionError msg => msg
  | BadArchive msg => msg
  | Unexpected text => text
  end.

Inductive result (A : Type) :=
| Ok (a : A)
| Err (e : error).
Arguments Ok {A} a.
Arguments Err {A} e.

(** [extract_to.mkdir(parents=True, exist_ok=True)]. *)
Definition mkdir (d : Disk) : result unit * Disk :=
  match target d with
  | Blocked text => (Err (Unexpected text), d)
  | _ => (Ok tt, mkDisk Present (extracted d) (reports d))
  end.

(** What a failed extraction of [m] leaves under [extract_to]. *)
Definition left_behind (m : Member) : list Entry :=
  match extraction m with
  | Damaged _ true | Refused _ true => [Partial (member_name m)]
  | _ => []
  end.

(** One turn of the loops on lines 51-54 and 67-70. *)
Definition extract_member (progress_callback : bool) (total i : Z) (m : Member) (d : Disk)
  : result unit * Disk :=
  match extraction m with
  | Extracted =>
      (Ok tt,
       mkDisk (target d) (extracted d ++ [Whole (member_name m)])
              (if progress_callback then reports d ++ [(i, total)] else reports d))
  | Damaged msg _ =>
      (Err (BadArchive msg), mkDisk (target d) (extracted d ++ left_behind m) (reports d))
  | Refused text _ =>
      (Err (Unexpected text), mkDisk (target d) (extracted d ++ left_behind m) (reports d))
  end.

(** [for i, member in enumerate(members, i): ...]. *)
Fixpoint extract_members (progress_callback : bool) (total : Z) (members : list Member)
  (i : Z) (d : Disk) : result unit * Disk :=
  match members with
  | [] => (Ok tt, d)
  | m :: rest =>
      match extract_member progress_callback total i m d with
      | (Ok _, d1) => extract_members progress_callback total rest (i + 1) d1
      | (Err e, d1) => (Err e, d1)
      end
  end.

(** The body of the [try] of [_extract_zip] and [_extract_tar]. *)
Definition extract_all (listing : Listing) (progress_callback : bool) (d : Disk)
  : result unit * Disk :=
  match listing with
  | Members members =>
      extract_members progress_callback (Z.of_nat (List.length members)) members 1 d
  | NotAnArchive msg => (Err (BadArchive msg), d)
  | Unreadable text => (Err (Unexpected text), d)
  end.

(** [_extract_zip]. *)
Definition extract_zip (libs : Libraries) (zip_path : string) (progress_callback : bool)
  (d : Disk) : result unit * Disk :=
  match extract_all (zipfile libs zip_path) progress_callback d with
  | (Err (BadArchive msg), d1) =>
      (Err (ExtractionError ("Invalid ZIP file: " ++ msg)%string), d1)
  | r => r
  end.

(** [_extract_tar]. *)
Definition extract_tar (libs : Libraries) (tar_path : string) (progress_callback : bool)
  (d : Disk) : result unit * Disk :=
  match extract_all (tarfile libs tar_path) progress_callback d with
  | (Err (BadArchive msg), d1) =>
      (Err (ExtractionError ("Invalid TAR file: " ++ msg)%string), d1)
  | r => r
  end.

(** [s.endswith(t)]. *)
Definition endswith (s t : string) : bool :=
  (Nat.leb (String.length t) (String.length s)
   && String.eqb (substring (String.length s - String.length t) (String.length t) s) t)%bool.

(** [x in l] on strings. *)
Definition among (x : string) (l : list string) : bool :=
  existsb (String.eqb x) l.

(** [extract_archive]. *)
Definition extract_archive (pp : PurePath) (libs : Libraries) (archive_path : string)
  (progress_callback : bool) (use_7z_if_available : bool) (seven_zip_path : option string)
  (d : Disk) : result unit * Disk :=
  match mkdir d with
  | (Err e, d1) => (Err e, d1)
  | (Ok _, d1) =>
      let suffix := lower (suffix pp archive_path) in
      let name := name pp archive_path in
      if String.eqb suffix ".zip" then
        extract_zip libs archive_path progress_callback d1
      else if (among suffix [".tar"; ".gz"; ".bz2"; ".xz"]
               || endswith name ".tgz" || endswith name ".tbz2")%bool then
        extract_tar libs archive_path progress_callback d1
      else
        (Err (ExtractionError
                ("Unsupported archive format: " ++ suffix
                 ++ ". Try enabling 7z support.")%string), d1)
  end.

End Extractor.

(** *** Vocabulary of the extractor's properties *)

(** The members the library chosen for the archive lists; none when the
    format is not supported or the archive cannot be listed. *)
Definition listed (pp : Extractor.PurePath) (libs : Extractor.Libraries)
  (archive_path : string) : list Extractor.Member :=
  let suffix := lower (Extractor.suffix pp archive_path) in
  let listing :=
    if String.eqb suffix ".zip" then Extractor.zipfile libs archive_path
    else if (Extractor.among suffix [".tar"; ".gz"; ".bz2"; ".xz"]
             || Extractor.endswith (Extractor.name pp archive_path) ".tgz"
             || Extractor.endswith (Extractor.name pp archive_path) ".tbz2")%bool
         then Extractor.tarfile libs archive_path
         else Extractor.Members [] in
  match listing with
  | Extractor.Members l => l
  | _ => []
  end.

(** The calls [(i, total)], [(i+1, total)], ... of the callback for
    [n] members. *)
Fixpoint counted (total i : Z) (n : nat) : list (Z * Z) :=
  match n with
  | O => []
  | S n' => (i, total) :: counted total (i + 1) n'
  end.

(** The members of a listing; none when the archive cannot be listed. *)
Definition members_of (listing : Extractor.Listing) : list Extractor.Member :=
  match listing with Extractor.Members l => l | _ => [] end.

(** The member can be extracted. *)
Definition extractable (m : Extractor.Member) : bool :=
  match Extractor.extraction m with
  | Extractor.Extracted => true
  | _ => false
  end.

(** The members before the first that cannot be extracted. *)
Fixpoint extracted_before_failure (l : list Extractor.Member) : list Extractor.Member :=
  match l with
  | [] => []
  | m :: rest => if extractable m then m :: extracted_before_failure rest else []
  end.

(** What the first member that cannot be extracted leaves. *)
Fixpoint debris (l : list Extractor.Member) : list Extractor.Entry :=
  match l with
  | [] => []
  | m :: rest => if extractable m then debris rest else Extractor.left_behind m
  end.

Definition whole (m : Extractor.Member) : Extractor.Entry :=
  Extractor.Whole (Extractor.member_name m).

(** The disk after the members of [l] were tried in turn, counting the
    reports from [i]. *)
Definition after_members (cb : bool) (total i : Z) (l : list Extractor.Member)
  (d : Extractor.Disk) : Extractor.Disk :=
  Extractor.mkDisk (Extractor.target d)
    (Extractor.extracted d ++ map whole (extracted_before_failure l) ++ debris l)
    (Extractor.reports d
     ++ (if cb then counted total i (List.length (extracted_before_failure l)) else [])).

(** ** installer.py

    The installers call [download_file] on a path they compute, keep
    that path in [downloaded_file], and run or unpack the file.  Paths
    are their strings; [pathlib] and [subprocess] are modelled at their
    boundary, like [requests] and [hashlib]. *)

Module Installer.

(** What the module uses of [pathlib], on the strings of the paths. *)
Record PathLib := mkPathLib {
  joinpath : string -> string -> string;    (* str(Path(p) / q) *)
  path_name : string -> string;             (* Path(s).name *)
  path_parent : string -> string            (* str(Path(p).parent) *)
}.

(** The system: files and directories by path, and the logs of the
    network, the callback, the logger and [subprocess.run]. *)
Record Sys := mkSys {
  files : string -> option bytes;
  dirs : string -> DirState;
  requests : list Request;
  reported : list (Z * Z);
  logged : list (Z * exn);
  commands : list (list string)
}.

Definition update {A} (f : string -> A) (k : string) (v : A) : string -> A :=
  fun x => if String.eqb x k then v else f x.

(** The world [download_file] sees when its [dest] is [p]. *)
Definition view (pl : PathLib) (p : string) (s : Sys) : World :=
  mkWorld (dirs s (path_parent pl p)) (files s p) (requests s) (reported s) (logged s).

Definition put (pl : PathLib) (p : string) (w : World) (s : Sys) : Sys :=
  mkSys (update (files s) p (dest w)) (update (dirs s) (path_parent pl p) (parent w))
        (sent w) (progress w) (warnings w) (commands s).

(** A computation on one destination, run in the system. *)
Definition at_path {A} (pl : PathLib) (p : string) (m : M A) (s : Sys)
  : outcome A * Sys :=
  let '(o, w) := m (view pl p s) in (o, put pl p w s).

Inductive install_exn :=
| Uncaught (e : exn)                 (* an exception [download] does not catch *)
| InstallationError (msg : string)
| NotImplementedError
| ProcessOSError.                    (* subprocess.run could not start the program *)

Inductive result (A : Type) :=
| Ok (a : A)
| Err (e : install_exn).
Arguments Ok {A} a.
Arguments Err {A} e.

Record BaseInstaller := mkBase {
  name : string;
  version : string;
  install_dir : string;
  temp_dir : string;
  downloaded_file : option string
}.

Definition set_downloaded_file (f : option string) (self : BaseInstaller) : BaseInstaller :=
  mkBase (name self) (version self) (install_dir self) (temp_dir self) f.

(** Line 27: [self.temp_dir / f'{self.name}-{self.version}-installer' / Path(url).name]. *)
Definition dest_of (pl : PathLib) (self : BaseInstaller) (url : string) : string :=
  joinpath pl
    (joinpath pl (temp_dir self) (name self ++ "-" ++ version self ++ "-installer")%string)
    (path_name pl url).

(** The arguments of the call on line 29: the defaults of
    [download_file] but for the hash and the callback. *)
Definition download_args (url : string) (expected_hash : option string)
  (progress_callback : bool) : Args :=
  mkArgs url expected_hash "sha1" progress_callback 8192 3 true.

(** [BaseInstaller.download]: [DownloadError], and with it its subclass
    [HashMismatchError], becomes an [InstallationError]. *)
Definition download (pl : PathLib) (lib : HashLib) (srv : Server) (self : BaseInstaller)
  (url : string) (expected_hash : option string) (progress_callback : bool) (s : Sys)
  : result string * (BaseInstaller * Sys) :=
  let dest := dest_of pl self url in
  match at_path pl dest
          (download_file lib srv (download_args url expected_hash progress_callback)) s with
  | (Return _, s1) => (Ok dest, (set_downloaded_file (Some dest) self, s1))
  | (Raise (DownloadError msg), s1)
  | (Raise (HashMismatchError msg), s1) =>
      (Err (InstallationError ("Failed to download " ++ name self ++ ": " ++ msg)%string),
       (self, s1))
  | (Raise e, s1) => (Err (Uncaught e), (self, s1))
  end.

(** [BaseInstaller.download] over [Faults.download_file]: the callback
    is passed on as it is, and what leaves [download_file] that is no
    [DownloadError] leaves [download] as well. *)
Definition download_under (env : Faults.Env) (pl : PathLib) (lib : HashLib) (srv : Server)
  (self : BaseInstaller) (url : string) (expected_hash : option string)
  (progress_callback : bool) (s : Sys) : result string * (BaseInstaller * Sys) :=
  let dest := dest_of pl self url in
  match at_path pl dest
          (Faults.download_file env lib srv
             (download_args url expected_hash progress_callback)) s with
  | (Return _, s1) => (Ok dest, (set_downloaded_file (Some dest) self, s1))
  | (Raise (DownloadError msg), s1)
  | (Raise (HashMismatchError msg), s1) =>
      (Err (InstallationError ("Failed to download " ++ name self ++ ": " ++ msg)%string),
       (self, s1))
  | (Raise e, s1) => (Err (Uncaught e), (self, s1))
  end.

(** [BaseInstaller.install]. *)
Definition install_base (self : BaseInstaller) (s : Sys) : result unit * (BaseInstaller * Sys) :=
  (Err NotImplementedError, (self, s)).

(** [BaseInstaller.clean]. *)
Definition clean (pl : PathLib) (self : BaseInstaller) (s : Sys)
  : result unit * (BaseInstaller * Sys) :=
  match downloaded_file self with
  | Some f =>
      match at_path pl f (there <- dest_exists ;;
                          if there then dest_unlink else ret tt) s with
      | (Return _, s1) => (Ok tt, (self, s1))
      | (Raise e, s1) => (Err (Uncaught e), (self, s1))
      end
  | None => (Ok tt, (self, s))
  end.

(** [subprocess.run(cmd, check=True, capture_output=True, text=True)]. *)
Inductive ProcResult :=
| Completed (stdout : string)
| CalledProcessError (returncode : Z) (stderr : string)
| CannotStart.

Definition Runner := list string -> ProcResult.

Definition run (sub : Runner) (cmd : list string) (s : Sys) : ProcResult * Sys :=
  (sub cmd,
   mkSys (files s) (dirs s) (requests s) (reported s) (logged s) (commands s ++ [cmd])).

(** [x or default] on an optional list. *)
Definition list_or {A} (x : option (list A)) (default : list A) : list A :=
  match x with
  | Some (y :: l) => y :: l
  | _ => default
  end.

Record ExecutableInstaller := mkExecutable {
  exe_base : BaseInstaller;
  executable_args : list string;
  silent_switches : list string
}.

(** [ExecutableInstaller.__init__]. *)
Definition new_executable (name version install_dir temp_dir : string)
  (executable_args silent_switches : option (list string)) : ExecutableInstaller :=
  mkExecutable (mkBase name version install_dir temp_dir None)
    (list_or executable_args [])
    (list_or silent_switches ["/S"; "/quiet"]).

(** [ExecutableInstaller.install]. *)
Definition install_executable (sub : Runner) (self : ExecutableInstaller) (s : Sys)
  : result unit * Sys :=
  match downloaded_file (exe_base self) with
  | None => (Err (InstallationError "No installer downloaded"), s)
  | Some f =>
      let cmd := [f] ++ silent_switches self ++ executable_args self in
      match run sub cmd s with
      | (Completed _, s1) => (Ok tt, s1)
      | (CalledProcessError code stderr, s1) =>
          (Err (InstallationError
                  ("Installer failed with code: " ++ str code ++ ": " ++ stderr)%string), s1)
      | (CannotStart, s1) => (Err ProcessOSError, s1)
      end
  end.

Record JarInstaller := mkJar {
  jar_base : BaseInstaller;
  java_path : string;
  jar_args : list string
}.

(** [JarInstaller.__init__]. *)
Definition new_jar (name version install_dir temp_dir java_path : string)
  (jar_args : option (list string)) : JarInstaller :=
  mkJar (mkBase name version install_dir temp_dir None) java_path (list_or jar_args []).

(** [JarInstaller.install]. *)
Definition install_jar (sub : Runner) (self : JarInstaller) (s : Sys)
  : result unit * Sys :=
  match downloaded_file (jar_base self) with
  | None => (Err (InstallationError "No installer downloaded"), s)
  | Some f =>
      let cmd := [java_path self; "-jar"; f] ++ jar_args self in
      match run sub cmd s with
      | (Completed _, s1) => (Ok tt, s1)
      | (CalledProcessError code stderr, s1) =>
          (Err (InstallationError ("Jar installer failed: " ++ stderr)%string), s1)
      | (CannotStart, s1) => (Err ProcessOSError, s1)
      end
  end.

(** [ArchiveInstaller.install]: the archive is extracted to
    [install_dir], the [extract_to] of the disk; the callback is not
    passed on. *)
Definition install_archive (pp : Extractor.PurePath) (libs : Extractor.Libraries)
  (self : BaseInstaller) (progress_callback : bool) (d : Extractor.Disk)
  : result unit * Extractor.Disk :=
  match downloaded_file self with
  | None => (Err (InstallationError "No archive downloaded"), d)
  | Some f =>
      match Extractor.extract_archive pp libs f false false None d with
      | (Extractor.Ok _, d1) => (Ok tt, d1)
      | (Extractor.Err e, d1) =>
          (Err (InstallationError ("Extraction failed: " ++ Extractor.text_of e)%string), d1)
      end
  end.

End Installer.

(** *** Concrete runs of the installers *)

(** The text after the last slash of [s]. *)
Fixpoint after_slash (s last : string) : string :=
  match s with
  | EmptyString => last
  | String c r => if Ascii.eqb c "/" then after_slash r r else after_slash r last
  end.

(** [pathlib] on plain POSIX paths: no dot components, no repeated or
    trailing separators. *)
Definition plain_paths : Installer.PathLib :=
  Installer.mkPathLib
    (fun p q => (p ++ "/" ++ q)%string)
    (fun s => after_slash s s)
    (fun p => substring 0 (String.length p - String.length (after_slash p p) - 1) p).

Definition empty_sys : Installer.Sys :=
  Installer.mkSys (fun _ => None) (fun _ => DirMissing) [] [] [] [].

Definition fabric : Installer.ExecutableInstaller :=
  Installer.new_executable "fabric" "1.0" "/opt/game" "/tmp" None (Some []).

Definition fabric_download (srv : Server) (expected_hash : option string) :=
  Installer.download plain_paths sha1_lib srv (Installer.exe_base fabric)
    test_url expected_hash true empty_sys.

Definition fabric_jar : Installer.JarInstaller :=
  Installer.new_jar "fabric" "1.0" "/opt/game" "/tmp" "/usr/bin/java" (Some ["--server"]).

Definition fabric_jar_download (srv : Server) :=
  Installer.download plain_paths sha1_lib srv (Installer.jar_base fabric_jar)
    test_url None true empty_sys.

(** Every process ends with status 0. *)
Definition quiet_runner : Installer.Runner := fun _ => Installer.Completed "".

(** *** Concrete runs of the extractor *)

(** The position of the last dot of [s], counting from [i]. *)
Fixpoint last_dot (s : string) (i : nat) (found : option nat) : option nat :=
  match s with
  | EmptyString => found
  | String c r => last_dot r (S i) (if Ascii.eqb c "." then Some i else found)
  end.

(** [PurePath.suffix] on a file name: from the last dot on, unless the
    dot starts or ends the name. *)
Definition suffix_of (name : string) : string :=
  match last_dot name 0 None with
  | Some i =>
      if (Nat.ltb 0 i && Nat.ltb i (String.length name - 1))%bool
      then substring i (String.length name - i) name
      else EmptyString
  | None => EmptyString
  end.

Definition plain_names : Extractor.PurePath :=
  Extractor.mkPurePath (fun p => suffix_of (after_slash p p)) (fun p => after_slash p p).

(** Every archive holds three members; the CRC of the second is wrong,
    which [zipfile] finds once the file is created.  [tarfile] reads
    none of them. *)
Definition damaged_pack : Extractor.Libraries :=
  Extractor.mkLibraries
    (fun _ => Extractor.Members
                [Extractor.mkMember "mods/a.jar" Extractor.Extracted;
                 Extractor.mkMember "mods/b.jar" (Extractor.Damaged "Bad CRC-32" true);
                 Extractor.mkMember "mods/c.jar" Extractor.Extracted])
    (fun _ => Extractor.NotAnArchive "not a tar").

Definition fresh_disk : Extractor.Disk :=
  Extractor.mkDisk Extractor.Creatable [] [].

(** ** validator.py

    [FileValidator] compares the regular files under [root_dir] with a
    snapshot, a JSON object whose ['files'] maps relative paths to
    SHA-1 hex digests.  The directory is the list of its regular files
    as [rglob] meets them, each with its relative POSIX path and its
    content; [json] is modelled at its boundary.  Snapshot documents
    that are not JSON objects are outside the model. *)

Module Validator.

(** A value of the ['files'] dictionary: [null], a string, or anything
    else JSON allows (which no digest equals). *)
Inductive value := Null | Str (s : string) | Other.

(** A top-level value of the snapshot: a string, a dictionary of
    [value]s, or anything else. *)
Inductive field := Text (s : string) | Files (files : list (string * value)) | Opaque.

(** A Python dict with string keys, in insertion order. *)
Fixpoint dict_get {V} (d : list (string * V)) (k : string) : option V :=
  match d with
  | [] => None
  | (k', v) :: rest => if String.eqb k k' then Some v else dict_get rest k
  end.

(** [d[k] = v]. *)
Fixpoint dict_set {V} (d : list (string * V)) (k : string) (v : V) : list (string * V) :=
  match d with
  | [] => [(k, v)]
  | (k', v') :: rest =>
      if String.eqb k k' then (k, v) :: rest else (k', v') :: dict_set rest k v
  end.

Definition Snapshot := list (string * field).

(** [json.dumps] of a snapshot, encoded, and [json.load] of a file:
    [None] when the text is no JSON (a ValueError). *)
Record JsonLib := mkJson {
  dumps : Snapshot -> bytes;
  loads : bytes -> option Snapshot
}.

(** Where [snapshot_file] lies: under [root_dir], at a relative path,
    or somewhere else. *)
Inductive Location := InRoot (rel : string) | Elsewhere.

Record FS := mkFS {
  tree : list (string * bytes);     (* the regular files under root_dir *)
  elsewhere : option bytes          (* the snapshot file, when it lies elsewhere *)
}.

Record FileValidator := mkValidator {
  snapshot_path : string;           (* str(snapshot_file) *)
  snapshot_file : Location;
  ignore_patterns : list string;
  snapshot : option Snapshot
}.

(** [FileValidator.__init__]. *)
Definition new (snapshot_path : string) (snapshot_file : Location)
  (ignore_patterns : option (list string)) : FileValidator :=
  mkValidator snapshot_path snapshot_file
    (match ignore_patterns with Some l => l | None => [] end) None.

Definition set_snapshot (s : option Snapshot) (self : FileValidator) : FileValidator :=
  mkValidator (snapshot_path self) (snapshot_file self) (ignore_patterns self) s.

Inductive error :=
| ValidationError (msg : string)
| KeyError (key : string)
| AttributeError
| DecodeError                       (* json.load: the text is no JSON *)
| FileNotFoundError.

Inductive result (A : Type) :=
| Ok (a : A)
| Err (e : error).
Arguments Ok {A} a.
Arguments Err {A} e.

(** [pattern in rel_path]: the substring test. *)
Fixpoint contains (pattern s : string) : bool :=
  (prefix pattern s
   || match s with
      | EmptyString => false
      | String _ rest => contains pattern rest
      end)%bool.

(** [_is_ignored]. *)
Definition is_ignored (self : FileValidator) (rel_path : string) : bool :=
  existsb (fun pattern => contains pattern rel_path) (ignore_patterns self).

(** [_calculate_hash] with its default algorithm, on the content. *)
Definition calculate_hash (data : bytes) : string :=
  Sha1.hexdigest (List.concat (file_chunks 8192 data)).

(** The files a scan keeps: lines 50-56, 90-95 and 132-137. *)
Definition scan (self : FileValidator) (fs : FS) : list (string * bytes) :=
  filter (fun e => negb (is_ignored self (fst e))) (tree fs).

Definition mem (x : string) (l : list string) : bool :=
  existsb (String.eqb x) l.

(** [set(l)], in the order of first occurrence. *)
Fixpoint to_set (l : list string) : list string :=
  match l with
  | [] => []
  | x :: rest => if mem x rest then to_set rest else x :: to_set rest
  end.

Fixpoint insert_sorted (x : string) (l : list string) : list string :=
  match l with
  | [] => [x]
  | y :: rest => if String.leb x y then x :: l else y :: insert_sorted x rest
  end.

(** [sorted(l)] on strings. *)
Definition sorted (l : list string) : list string :=
  fold_right insert_sorted [] l.

Definition snapshot_exists (self : FileValidator) (fs : FS) : option bytes :=
  match snapshot_file self with
  | InRoot rel => dict_get (tree fs) rel
  | Elsewhere => elsewhere fs
  end.

(** Writing the snapshot file (line 64), in a directory that exists. *)
Definition write_snapshot (self : FileValidator) (content : bytes) (fs : FS) : FS :=
  match snapshot_file self with
  | InRoot rel => mkFS (dict_set (tree fs) rel content) (elsewhere fs)
  | Elsewhere => mkFS (tree fs) (Some content)
  end.

(** [load_snapshot]: the snapshot is stored before it is checked. *)
Definition load_snapshot (json : JsonLib) (self : FileValidator) (fs : FS)
  : result Snapshot * FileValidator :=
  match snapshot_exists self fs with
  | None =>
      (Err (ValidationError ("Snapshot file not found: " ++ snapshot_path self)%string), self)
  | Some content =>
      match loads json content with
      | None => (Err DecodeError, self)
      | Some doc =>
          match dict_get doc "files" with
          | None =>
              (Err (ValidationError "Invalid snapshot format: missing 'files'"),
               set_snapshot (Some doc) self)
          | Some _ => (Ok doc, set_snapshot (Some doc) self)
          end
      end
  end.

(** [generate_snapshot]. *)
Definition generate_snapshot (json : JsonLib) (self : FileValidator) (description : string)
  (fs : FS) : Snapshot * (FileValidator * FS) :=
  let files :=
    fold_left (fun files e => dict_set files (fst e) (Str (calculate_hash (snd e))))
              (scan self fs) [] in
  let snapshot :=
    [("version", Text "1.0"); ("description", Text description); ("files", Files files)] in
  (snapshot, (set_snapshot (Some snapshot) self, write_snapshot self (dumps json snapshot) fs)).

(** [if not self.snapshot: self.load_snapshot()]: [None] and the empty
    dict are false. *)
Definition ensure_snapshot (json : JsonLib) (self : FileValidator) (fs : FS)
  : result Snapshot * FileValidator :=
  match snapshot self with
  | Some ((k, v) :: rest) => (Ok ((k, v) :: rest), self)
  | _ => load_snapshot json self fs
  end.

(** [self.snapshot['files'].keys()]. *)
Definition files_of (doc : Snapshot) : result (list (string * value)) :=
  match dict_get doc "files" with
  | None => Err (KeyError "files")
  | Some (Files d) => Ok d
  | Some _ => Err AttributeError
  end.

Record Report := mkReport {
  missing : list string;
  extra : list string;
  modified : list string
}.

(** Lines 104-115: the files whose digest differs from the expected
    one; [null] allows any content. *)
Fixpoint modified_among (d : list (string * value)) (current_hashes : list (string * string))
  (fs : FS) (both : list string) : result (list string) :=
  match both with
  | [] => Ok []
  | f :: rest =>
      match dict_get d f with
      | None => Err (KeyError f)
      | Some Null => modified_among d current_hashes fs rest
      | Some expected_hash =>
          match
            match dict_get current_hashes f with
            | Some h => Some h
            | None => option_map calculate_hash (dict_get (tree fs) f)
            end
          with
          | None => Err FileNotFoundError
          | Some current_hash =>
              match modified_among d current_hashes fs rest with
              | Err e => Err e
              | Ok l =>
                  Ok (match expected_hash with
                      | Str h => if String.eqb current_hash h then l else f :: l
                      | _ => f :: l
                      end)
              end
          end
      end
  end.

(** [validate], once the snapshot is there. *)
Definition compare (self : FileValidator) (d : list (string * value)) (fs : FS)
  : result Report :=
  let expected_files := to_set (map fst d) in
  let visible := scan self fs in
  let current_files := to_set (map fst visible) in
  let current_hashes :=
    fold_left (fun hashes e =>
                 if mem (fst e) expected_files
                 then dict_set hashes (fst e) (calculate_hash (snd e)) else hashes)
              visible [] in
  let missing := filter (fun p => negb (mem p current_files)) expected_files in
  let extra := filter (fun p => negb (mem p expected_files)) current_files in
  let both := filter (fun p => mem p current_files) expected_files in
  match modified_among d current_hashes fs both with
  | Err e => Err e
  | Ok modified => Ok (mkReport (sorted missing) (sorted extra) (sorted modified))
  end.

(** [validate].  After [ensure_snapshot] returned, [self.snapshot] is
    set: its [None] branch is never taken. *)
Definition validate (json : JsonLib) (self : FileValidator) (fs : FS)
  : result Report * FileValidator :=
  match ensure_snapshot json self fs with
  | (Err e, self1) => (Err e, self1)
  | (Ok _, self1) =>
      match snapshot self1 with
      | None => (Err (KeyError "files"), self1)
      | Some doc =>
          match files_of doc with
          | Err e => (Err e, self1)
          | Ok d => (compare self1 d fs, self1)
          end
      end
  end.

(** [quick_check]. *)
Definition quick_check (json : JsonLib) (self : FileValidator) (fs : FS)
  : result bool * FileValidator :=
  match ensure_snapshot json self fs with
  | (Err e, self1) => (Err e, self1)
  | (Ok _, self1) =>
      match snapshot self1 with
      | None => (Err (KeyError "files"), self1)
      | Some doc =>
          match files_of doc with
          | Err e => (Err e, self1)
          | Ok d =>
              (Ok (forallb (fun e => mem (fst e) (to_set (map fst d))) (scan self1 fs)),
               self1)
          end
      end
  end.

End Validator.

(** *** Vocabulary of the validator's properties *)

(** The relative path [p] is a regular file under [root_dir] that no
    ignore pattern matches. *)
Definition present (self : Validator.FileValidator) (fs : Validator.FS) (p : string) : Prop :=
  exists data, In (p, data) (Validator.scan self fs).

(** No two files of the directory have the same relative path. *)
Definition unique_paths (fs : Validator.FS) : Prop :=
  NoDup (map fst (Validator.tree fs)).

(** The order of [sorted]. *)
Definition str_le (x y : string) : Prop := String.leb x y = true.

(** The ['files'] dictionary [generate_snapshot] builds. *)
Definition generated_files (self : Validator.FileValidator) (fs : Validator.FS)
  : list (string * Validator.value) :=
  map (fun e => (fst e, Validator.Str (Validator.calculate_hash (snd e))))
      (Validator.scan self fs).

(** *** Concrete runs of the validator *)

(** A [json] whose every file reads as an object without ['files']. *)
Definition plain_json : Validator.JsonLib :=
  Validator.mkJson (fun _ => bytes_of_string "{}")
                   (fun _ => Some [("version", Validator.Text "1.0")]).

Definition game_dir : Validator.FS :=
  Validator.mkFS [("b.txt", bytes_of_string "bb");
                  ("a/x.bin", bytes_of_string "abc");
                  ("cache/t", bytes_of_string "t")] None.

(** The same directory later: one file changed, one gone, one new. *)
Definition game_dir_later : Validator.FS :=
  Validator.mkFS [("b.txt", bytes_of_string "bX");
                  ("n.txt", bytes_of_string "abc");
                  ("cache/t", bytes_of_string "t2")] None.

(** A validator that ignores the cache, its snapshot kept elsewhere. *)
Definition assets : Validator.FileValidator :=
  Validator.new "snap.json" Validator.Elsewhere (Some ["cache"]).

(** A validator that keeps its snapshot in the directory it checks. *)
Definition assets_inside : Validator.FileValidator :=
  Validator.new "snap.json" (Validator.InRoot "snap.json") (Some ["cache"]).

(** A validator whose snapshot lists a file of the ignored cache. *)
Definition assets_stale : Validator.FileValidator :=
  Validator.mkValidator "snap.json" Validator.Elsewhere ["cache"]
    (Some [("files", Validator.Files [("cache/t", Validator.Null)])]).

(** A validator with an empty ignore pattern. *)
Definition assets_blind : Validator.FileValidator :=
  Validator.mkValidator "snap.json" Validator.Elsewhere [EmptyString]
    (Some [("files", Validator.Files [("b.txt", Validator.Str "00")])]).

(** * Proofs *)

(** ** The embedded SHA-1 against the published test vectors *)

Example sha1_abc :
  Sha1.hexdigest (bytes_of_string "abc") = "a9993e364706816aba3e25717850c26c9cd0d89d".
Proof. vm_compute. reflexivity. Qed.

Example sha1_empty :
  Sha1.hexdigest [] = "da39a3ee5e6b4b0d3255bfef95601890afd80709".
Proof. vm_compute. reflexivity. Qed.

Example sha1_two_blocks :
  Sha1.hexdigest
    (bytes_of_string "abcdbcdecdefdefgefghfghighijhijkijkljklmklmnlmnomnopnopq")
  = "84983e441c3bd26ebaae4aa1f95129e5e54670f1".
Proof. vm_compute. reflexivity. Qed.

(** ** Running the monad *)

Section Monad.
Context {A B : Type}.

Lemma bind_inv (m : M A) (k : A -> M B) w o w' :
  bind m k w = (o, w') ->
  (exists e, m w = (Raise e, w') /\ o = Raise e) \/
  (exists a w1, m w = (Return a, w1) /\ k a w1 = (o, w')).
Proof.
  unfold bind; destruct (m w) as [[a | e] w1]; intros H.
  - right; eauto.
  - left; exists e; inversion H; subst; auto.
Qed.
End Monad.

(** A bind that returned ran both of its parts. *)
Ltac bind_returned H Hx :=
  let e := fresh "e" in
  let He := fresh "He" in
  apply bind_inv in H as [(e & _ & He) | (? & ? & Hx & H)]; [discriminate He | ].

Section Keeps.
Variable R : World -> World -> Prop.
Hypothesis HR : preorder R.

Lemma keeps_ret {A} (a : A) : keeps R (ret a).
Proof. intros w; apply (pre_refl R HR). Qed.

Lemma keeps_raise {A} e : keeps R (@raise A e).
Proof. intros w; apply (pre_refl R HR). Qed.

Lemma keeps_bind {A B} (m : M A) (k : A -> M B) :
  keeps R m -> (forall a, keeps R (k a)) -> keeps R (bind m k).
Proof.
  intros Hm Hk w; unfold bind.
  specialize (Hm w); destruct (m w) as [[a | e] w1]; simpl in *; auto.
  eapply (pre_trans R HR); [exact Hm | apply Hk].
Qed.

Lemma keeps_try {A} (m : M A) c h :
  keeps R m -> (forall e, keeps R (h e)) -> keeps R (try_except m c h).
Proof.
  intros Hm Hh w; unfold try_except.
  specialize (Hm w); destruct (m w) as [[a | e] w1]; simpl in *; auto.
  destruct (c e); simpl; auto.
  eapply (pre_trans R HR); [exact Hm | apply Hh].
Qed.

Lemma keeps_if {A} (b : bool) (m1 m2 : M A) :
  keeps R m1 -> keeps R m2 -> keeps R (if b then m1 else m2).
Proof. destruct b; auto. Qed.
End Keeps.

Section RaisesOnly.
Variable P : exn -> Prop.

Lemma raises_only_ret {A} (a : A) : raises_only P (ret a).
Proof. intros w e w' H; discriminate H. Qed.

Lemma raises_only_raise {A} e : P e -> raises_only P (@raise A e).
Proof. intros He w e' w' H; inversion H; subst; exact He. Qed.

Lemma raises_only_bind {A B} (m : M A) (k : A -> M B) :
  raises_only P m -> (forall a, raises_only P (k a)) -> raises_only P (bind m k).
Proof.
  intros Hm Hk w e w' H.
  apply bind_inv in H as [(e' & H & He) | (a & w1 & H1 & H2)].
  - inversion He; subst. eapply Hm; eauto.
  - eapply Hk; eauto.
Qed.

Lemma raises_only_if {A} (b : bool) (m1 m2 : M A) :
  raises_only P m1 -> raises_only P m2 -> raises_only P (if b then m1 else m2).
Proof. destruct b; auto. Qed.
End RaisesOnly.

Lemma attempts_made_app l r :
  attempts_made (l ++ [r]) = attempts_made l + (if is_get r then 1 else 0).
Proof.
  unfold attempts_made. rewrite filter_app, length_app. simpl.
  destruct (is_get r); simpl; lia.
Qed.

(** ** The transfer planner *)

Lemma status_ok_iff (r : Response) :
  ((400 <=? status_code r) && (status_code r <? 600))%bool = false <->
  (status_code r < 400 \/ 600 <= status_code r).
Proof.
  rewrite andb_false_iff, Z.leb_gt, Z.ltb_ge. tauto.
Qed.

(** C5. The planner resumes exactly when resume is enabled, the
    destination exists, the attempt is the first, the size probe
    succeeds and the local size is strictly below the remote size; the
    plan is then append mode at the local size.  In every other case
    the plan is a fresh transfer: overwrite mode at offset 0. *)
Theorem plan_resumes_exactly (srv : Server) (a : Args) (attempt : Z) (w : World) :
  (exists k,
      resume_conditions srv a attempt w k /\
      fst (plan srv a attempt w) = Return (AB, k)) \/
  ((forall k, ~ resume_conditions srv a attempt w k) /\
   fst (plan srv a attempt w) = Return (WB, 0)).
Proof.
  remember (fst (plan srv a attempt w)) as res eqn:Hp.
  unfold plan in Hp.
  destruct (resume a) eqn:Hres.
  2:{ right; split; [ | subst; reflexivity ].
      intros k (H & _); congruence. }
  unfold bind at 1, dest_exists in Hp.
  destruct (dest w) as [data | ] eqn:Hdest; simpl in Hp.
  2:{ right; split; [ | subst; reflexivity ].
      intros k (_ & _ & d & rm & H & _); congruence. }
  destruct (attempt =? 0) eqn:Hatt; simpl in Hp.
  2:{ right; split; [ | subst; reflexivity ].
      apply Z.eqb_neq in Hatt. intros k (_ & H & _); congruence. }
  apply Z.eqb_eq in Hatt.
  unfold try_except, probe, bind, send in Hp.
  destruct (srv (List.length (sent w)) (mkRequest HEAD (url a) None))
    as [ | r] eqn:Hsrv; simpl in Hp.
  { right; split; [ | subst; reflexivity ].
    intros k (_ & _ & d & rm & _ & (r & Hr & _) & _). congruence. }
  unfold raise_for_status in Hp.
  destruct ((400 <=? status_code r) && (status_code r <? 600))%bool eqn:Hst;
    simpl in Hp.
  { right; split; [ | subst; reflexivity ].
    intros k (_ & _ & d & rm & _ & (r' & Hr & Hok & _) & _).
    assert (r' = r) by congruence; subst r'.
    apply status_ok_iff in Hok. congruence. }
  apply status_ok_iff in Hst.
  unfold int_content_length in Hp.
  destruct (content_length r) as [ | | n] eqn:Hcl; simpl in Hp.
  - (* no declared length: the remote size reads 0 *)
    unfold dest_size in Hp; simpl in Hp; rewrite Hdest in Hp; simpl in Hp.
    destruct (len data <? 0) eqn:Hlt.
    + apply Z.ltb_lt in Hlt. unfold len in Hlt. lia.
    + right; split; [ | subst; reflexivity ].
      intros k (_ & _ & d & rm & Hd & (r' & Hr & _ & Hlen) & _ & Hlt').
      assert (r' = r) by congruence; subst r'.
      assert (d = data) by congruence; subst d.
      apply Z.ltb_ge in Hlt.
      destruct Hlen as [Hlen | [_ Hz]]; [congruence | lia].
  - (* a length int() rejects *)
    right; split; [ | subst; reflexivity ].
    intros k (_ & _ & d & rm & _ & (r' & Hr & _ & Hlen) & _).
    assert (r' = r) by congruence; subst r'.
    destruct Hlen as [Hlen | [Hlen _]]; congruence.
  - unfold dest_size in Hp; simpl in Hp; rewrite Hdest in Hp; simpl in Hp.
    destruct (len data <? n) eqn:Hlt; simpl in Hp.
    + left. exists (len data). split; [ | subst; reflexivity ].
      apply Z.ltb_lt in Hlt.
      split; [assumption | split; [assumption | ]].
      exists data, n. repeat split; auto.
      exists r. rewrite Hcl. auto.
    + right; split; [ | subst; reflexivity ].
      intros k (_ & _ & d & rm & Hd & (r' & Hr & _ & Hlen) & _ & Hlt').
      assert (r' = r) by congruence; subst r'.
      assert (d = data) by congruence; subst d.
      apply Z.ltb_ge in Hlt.
      destruct Hlen as [Hlen | [Hlen _]]; [ | congruence].
      assert (rm = n) by congruence. lia.
Qed.

(** ** What each stage leaves alone *)

Lemma same_parent_pre : preorder same_parent.
Proof. split; unfold same_parent; intros; congruence. Qed.

Lemma same_dest_pre : preorder same_dest.
Proof. split; unfold same_dest; intros; congruence. Qed.

Lemma same_sent_pre : preorder same_sent.
Proof. split; unfold same_sent; intros; congruence. Qed.

Lemma same_attempts_pre : preorder same_attempts.
Proof. split; unfold same_attempts; intros; congruence. Qed.

Create HintDb frame.
#[local] Hint Resolve same_parent_pre same_dest_pre same_sent_pre same_attempts_pre : frame.
#[local] Hint Resolve keeps_ret keeps_raise keeps_bind keeps_try keeps_if : frame.

Lemma dest_exists_keeps R : preorder R -> keeps R dest_exists.
Proof. intros HR w; apply (pre_refl R HR). Qed.

Lemma dest_size_keeps R : preorder R -> keeps R dest_size.
Proof. intros HR w; unfold dest_size; destruct (dest w); apply (pre_refl R HR). Qed.

Lemma read_dest_keeps R n : preorder R -> keeps R (read_dest n).
Proof. intros HR w; unfold read_dest; destruct (dest w); apply (pre_refl R HR). Qed.

Lemma raise_for_status_keeps R r : preorder R -> keeps R (raise_for_status r).
Proof.
  intros HR w; unfold raise_for_status.
  destruct (_ && _)%bool; apply (pre_refl R HR).
Qed.

Lemma int_content_length_keeps R r : preorder R -> keeps R (int_content_length r).
Proof.
  intros HR w; unfold int_content_length.
  destruct (content_length r); apply (pre_refl R HR).
Qed.

#[local] Hint Resolve dest_exists_keeps dest_size_keeps read_dest_keeps
  raise_for_status_keeps int_content_length_keeps : frame.

Lemma send_same_parent srv rq : keeps same_parent (send srv rq).
Proof. run_prim. Qed.

Lemma send_same_dest srv rq : keeps same_dest (send srv rq).
Proof. run_prim. Qed.

Lemma open_write_same_parent m : keeps same_parent (open_write m).
Proof. run_prim. Qed.

Lemma open_write_same_sent m : keeps same_sent (open_write m).
Proof. run_prim. Qed.

Lemma write_same_parent c : keeps same_parent (write c).
Proof. run_prim. Qed.

Lemma write_same_sent c : keeps same_sent (write c).
Proof. run_prim. Qed.

Lemma call_progress_same_parent d t : keeps same_parent (call_progress d t).
Proof. run_prim. Qed.

Lemma call_progress_same_sent d t : keeps same_sent (call_progress d t).
Proof. run_prim. Qed.

#[local] Hint Resolve send_same_parent send_same_dest open_write_same_parent
  open_write_same_sent write_same_parent write_same_sent call_progress_same_parent
  call_progress_same_sent : frame.

Lemma same_sent_attempts {A} (m : M A) : keeps same_sent m -> keeps same_attempts m.
Proof. intros H w; unfold same_attempts; rewrite (H w); reflexivity. Qed.

Lemma write_chunks_same_parent cb total chunks d :
  keeps same_parent (write_chunks cb total chunks d).
Proof.
  revert d; induction chunks as [ | [ | b c] rest IH]; intros d; simpl;
    auto 10 with frame.
Qed.

Lemma write_chunks_same_sent cb total chunks d :
  keeps same_sent (write_chunks cb total chunks d).
Proof.
  revert d; induction chunks as [ | [ | b c] rest IH]; intros d; simpl;
    auto 10 with frame.
Qed.

#[local] Hint Resolve write_chunks_same_parent write_chunks_same_sent : frame.

(** ** The exceptions each stage can raise *)

Lemma send_raises srv rq : raises_only is_transient (send srv rq).
Proof. run_raise. Qed.

Lemma raise_for_status_raises r : raises_only is_transient (raise_for_status r).
Proof. run_raise. Qed.

Lemma int_content_length_raises r : raises_only is_transient (int_content_length r).
Proof. run_raise. Qed.

Lemma open_write_raises m : raises_only is_transient (open_write m).
Proof. run_raise. Qed.

Lemma write_raises c : raises_only is_transient (write c).
Proof. run_raise. Qed.

Lemma dest_size_raises : raises_only is_transient dest_size.
Proof. run_raise. Qed.

Lemma call_progress_raises P d t : raises_only P (call_progress d t).
Proof. run_raise. Qed.

Lemma dest_exists_raises P : raises_only P dest_exists.
Proof. run_raise. Qed.

Create HintDb raises.
#[local] Hint Resolve raises_only_ret raises_only_bind raises_only_if
  send_raises raise_for_status_raises int_content_length_raises open_write_raises
  write_raises dest_size_raises call_progress_raises dest_exists_raises : raises.

Lemma raise_transient {A} e : transient e = true -> raises_only is_transient (@raise A e).
Proof. intros H; apply raises_only_raise; exact H. Qed.

Lemma write_chunks_raises cb total chunks d :
  raises_only is_transient (write_chunks cb total chunks d).
Proof.
  revert d; induction chunks as [ | [ | b c] rest IH]; intros d; simpl;
    auto 10 with raises.
Qed.

#[local] Hint Resolve write_chunks_raises : raises.

(** ** The planner never fails and sends no content request *)

Section Stages.
Variable lib : HashLib.
Variable srv : Server.
Variable a : Args.

Lemma send_head_same_attempts u h : keeps same_attempts (send srv (mkRequest HEAD u h)).
Proof.
  intros w; unfold same_attempts, send.
  destruct (srv _ _); simpl; rewrite attempts_made_app; simpl; lia.
Qed.

Lemma send_get_attempts u h w :
  attempts_made (sent (snd (send srv (mkRequest GET u h) w)))
  = attempts_made (sent w) + 1.
Proof.
  unfold send. destruct (srv _ _); simpl; rewrite attempts_made_app; reflexivity.
Qed.

Lemma probe_same_parent : keeps same_parent (probe srv a).
Proof. unfold probe. auto 15 with frame. Qed.

Lemma probe_same_dest : keeps same_dest (probe srv a).
Proof. unfold probe. auto 15 with frame. Qed.

Lemma probe_same_attempts : keeps same_attempts (probe srv a).
Proof.
  unfold probe.
  apply keeps_bind; auto using send_head_same_attempts with frame.
  intros r. auto 15 with frame.
Qed.

Lemma plan_keeps R attempt :
  preorder R -> keeps R (probe srv a) -> keeps R (plan srv a attempt).
Proof.
  intros HR Hp. unfold plan.
  destruct (resume a); [ | auto with frame].
  apply keeps_bind; [assumption | auto with frame | ].
  intros there; destruct (there && (attempt =? 0))%bool; auto with frame.
Qed.

Lemma plan_never_raises attempt : raises_only (fun _ => False) (plan srv a attempt).
Proof.
  unfold plan. destruct (resume a); [ | auto with raises].
  apply raises_only_bind; [auto with raises | ].
  intros there; destruct (there && (attempt =? 0))%bool; [ | auto with raises].
  intros w e w' H. unfold try_except in H.
  destruct (probe srv a w) as [[p | e1] w1]; discriminate H.
Qed.

Lemma plan_returns attempt w :
  exists p w',
    plan srv a attempt w = (Return p, w') /\
    parent w' = parent w /\ dest w' = dest w /\
    attempts_made (sent w') = attempts_made (sent w).
Proof.
  destruct (plan srv a attempt w) as [[p | e] w'] eqn:H.
  - exists p, w'. split; [reflexivity | ].
    pose proof (plan_keeps same_parent attempt same_parent_pre probe_same_parent w) as H1.
    pose proof (plan_keeps same_dest attempt same_dest_pre probe_same_dest w) as H2.
    pose proof (plan_keeps same_attempts attempt same_attempts_pre probe_same_attempts w) as H3.
    rewrite H in H1, H2, H3. auto.
  - exfalso. eapply plan_never_raises; eauto.
Qed.

(** ** The stream writer: one content request, transient failures only *)

Lemma stream_attempts p w :
  attempts_made (sent (snd (stream srv a p w))) = attempts_made (sent w) + 1.
Proof.
  destruct p as [mode pos]. unfold stream.
  set (rq := mkRequest GET (url a) (if 0 <? pos then Some pos else None)).
  pose proof (send_get_attempts (url a) (if 0 <? pos then Some pos else None) w) as Hs.
  fold rq in Hs.
  unfold bind at 1.
  destruct (send srv rq w) as [[r | e] w1]; simpl in Hs; [ | exact Hs].
  rewrite <- Hs.
  match goal with
  | |- attempts_made (sent (snd (?m w1))) = _ =>
      assert (Hk : keeps same_attempts m)
  end.
  { apply same_sent_attempts.
    apply keeps_bind; auto with frame. intros _.
    destruct ((0 <? pos) && (status_code r =? 200))%bool; auto 15 with frame. }
  apply Hk.
Qed.

Lemma stream_raises p : raises_only is_transient (stream srv a p).
Proof.
  destruct p as [mode pos]. unfold stream.
  apply raises_only_bind; auto with raises. intros r.
  apply raises_only_bind; auto with raises. intros _.
  destruct ((0 <? pos) && (status_code r =? 200))%bool;
    auto 15 using raise_transient with raises.
Qed.

(** ** The integrity verifier *)

Lemma verify_returns w u w' :
  verify lib a w = (Return u, w') ->
  w' = w /\ (hash_supplied a = true -> verified lib a w).
Proof.
  unfold verify, verified.
  destruct (hash_supplied a).
  2:{ intros H; inversion H; split; [reflexivity | discriminate]. }
  destruct (hashlib_new lib (hash_algo a)) as [hd | ]; [ | discriminate].
  unfold bind, read_dest.
  destruct (dest w) as [data | ] eqn:Hd; [ | discriminate].
  destruct (String.eqb _ _) eqn:Heq.
  - intros H; inversion H; subst. split; [reflexivity | ].
    intros _. exists hd, data. apply String.eqb_eq in Heq. auto.
  - unfold dest_unlink. rewrite Hd. discriminate.
Qed.

Lemma verify_raises w e w' :
  verify lib a w = (Raise e, w') ->
  (transient e = true /\ w' = w) \/
  (e = HashMismatchError (mismatch_message a) /\ w' = set_dest None w).
Proof.
  unfold verify.
  destruct (hash_supplied a); [ | discriminate].
  destruct (hashlib_new lib (hash_algo a)) as [hd | ].
  2:{ intros H; inversion H; subst; left; auto. }
  unfold bind, read_dest.
  destruct (dest w) as [data | ] eqn:Hd.
  2:{ intros H; inversion H; subst; left; auto. }
  destruct (String.eqb _ _); [discriminate | ].
  unfold dest_unlink. rewrite Hd. unfold raise.
  intros H; inversion H; subst. right; auto.
Qed.

(** ** One attempt *)

Lemma attempt_body_after_plan attempt w p w1 :
  plan srv a attempt w = (Return p, w1) ->
  attempt_body lib srv a attempt w
  = (stream srv a p ;;; verify lib a ;;; ret true) w1.
Proof. intros H. unfold attempt_body. unfold bind at 1. rewrite H. reflexivity. Qed.

Lemma attempt_body_returns attempt w b w' :
  attempt_body lib srv a attempt w = (Return b, w') ->
  b = true /\ (hash_supplied a = true -> verified lib a w').
Proof.
  destruct (plan_returns attempt w) as (p & w1 & Hp & _).
  rewrite (attempt_body_after_plan _ _ _ _ Hp). intros H.
  apply bind_inv in H as [(e & _ & He) | (u & w2 & _ & H)]; [discriminate | ].
  apply bind_inv in H as [(e & _ & He) | (u' & w3 & Hv & H)]; [discriminate | ].
  inversion H; subst.
  apply verify_returns in Hv as [-> Hv]. auto.
Qed.

Lemma attempt_body_raises attempt w e w' :
  attempt_body lib srv a attempt w = (Raise e, w') ->
  transient e = true \/
  (e = HashMismatchError (mismatch_message a) /\ dest w' = None).
Proof.
  destruct (plan_returns attempt w) as (p & w1 & Hp & _).
  rewrite (attempt_body_after_plan _ _ _ _ Hp). intros H.
  apply bind_inv in H as [(e' & Hs & He) | (u & w2 & _ & H)].
  { inversion He; subst. left. eapply stream_raises; eauto. }
  apply bind_inv in H as [(e' & Hv & He) | (u' & w3 & _ & H)]; [ | discriminate].
  inversion He; subst.
  apply verify_raises in Hv as [[Ht _] | [-> ->]]; auto.
Qed.

Lemma attempt_body_attempts attempt w :
  attempts_made (sent (snd (attempt_body lib srv a attempt w)))
  = attempts_made (sent w) + 1.
Proof.
  destruct (plan_returns attempt w) as (p & w1 & Hp & _ & _ & Hn).
  rewrite (attempt_body_after_plan _ _ _ _ Hp). rewrite <- Hn.
  pose proof (stream_attempts p w1) as Hs.
  unfold bind at 1.
  destruct (stream srv a p w1) as [[u | e] w2]; simpl in Hs; [ | exact Hs].
  rewrite <- Hs. unfold bind.
  destruct (verify lib a w2) as [[u' | e] w3] eqn:Hv; simpl.
  - apply verify_returns in Hv as [-> _]; reflexivity.
  - apply verify_raises in Hv as [[_ ->] | [_ ->]]; reflexivity.
Qed.

(** ** The retry loop *)

Lemma retry_loop_step k attempt w :
  retry_loop lib srv a (S k) attempt w =
  match attempt_body lib srv a attempt w with
  | (Return b, w1) => (Return b, w1)
  | (Raise e, w1) =>
      if transient e then
        if attempt =? max_retries a - 1
        then (Raise (DownloadError (exhausted_message a)), cleaned attempt e w1)
        else retry_loop lib srv a k (attempt + 1) (cleaned attempt e w1)
      else (Raise e, w1)
  end.
Proof.
  simpl. unfold try_except.
  destruct (attempt_body lib srv a attempt w) as [[b | e] w1]; [reflexivity | ].
  destruct (transient e); [ | reflexivity].
  unfold bind, log_warning, dest_exists, dest_unlink, cleaned.
  destruct w1 as [pa [d | ] se pr wa]; simpl;
    destruct (attempt =? max_retries a - 1); reflexivity.
Qed.

Lemma retry_loop_returns n : forall attempt w w',
  retry_loop lib srv a n attempt w = (Return true, w') ->
  hash_supplied a = true -> verified lib a w'.
Proof.
  induction n as [ | k IH]; intros attempt w w' H.
  - discriminate H.
  - rewrite retry_loop_step in H.
    destruct (attempt_body lib srv a attempt w) as [[b | e] w1] eqn:Hb.
    + inversion H; subst. apply attempt_body_returns in Hb. tauto.
    + destruct (transient e); [ | discriminate].
      destruct (attempt =? max_retries a - 1); [discriminate | ].
      eapply IH; eauto.
Qed.

Lemma retry_loop_raises n : forall attempt w e w',
  retry_loop lib srv a n attempt w = (Raise e, w') ->
  (e = HashMismatchError (mismatch_message a) \/
   e = DownloadError (exhausted_message a)) /\
  dest w' = None.
Proof.
  induction n as [ | k IH]; intros attempt w e w' H.
  - discriminate H.
  - rewrite retry_loop_step in H.
    destruct (attempt_body lib srv a attempt w) as [[b | e1] w1] eqn:Hb;
      [discriminate | ].
    destruct (transient e1) eqn:Ht.
    + destruct (attempt =? max_retries a - 1).
      * inversion H; subst. split; [right; reflexivity | reflexivity].
      * eapply IH; eauto.
    + inversion H; subst.
      apply attempt_body_raises in Hb as [Hb | [-> Hd]]; [congruence | ].
      split; [left; reflexivity | exact Hd].
Qed.

(** When every attempt fails with an error the handler catches, the
    loop uses its whole range and raises the exhausted error. *)
Lemma retry_loop_exhausts :
  (forall attempt w, exists e w1,
      attempt_body lib srv a attempt w = (Raise e, w1) /\ transient e = true) ->
  forall n attempt w,
    attempt + Z.of_nat (S n) = max_retries a ->
    exists w',
      retry_loop lib srv a (S n) attempt w
      = (Raise (DownloadError (exhausted_message a)), w') /\
      attempts_made (sent w') = attempts_made (sent w) + Z.of_nat (S n) /\
      dest w' = None.
Proof.
  intros Hfail. induction n as [ | k IH]; intros attempt w Hn.
  - rewrite retry_loop_step.
    pose proof (attempt_body_attempts attempt w) as Hc.
    destruct (Hfail attempt w) as (e & w1 & Hb & Ht). rewrite Hb in *. rewrite Ht.
    rewrite (proj2 (Z.eqb_eq _ _)) by lia.
    eexists; split; [reflexivity | ]. split; [exact Hc | reflexivity].
  - rewrite retry_loop_step.
    pose proof (attempt_body_attempts attempt w) as Hc.
    destruct (Hfail attempt w) as (e & w1 & Hb & Ht). rewrite Hb in *. rewrite Ht.
    rewrite (proj2 (Z.eqb_neq _ _)) by lia.
    destruct (IH (attempt + 1) (cleaned attempt e w1)) as (w' & Hr & Hs & Hd);
      [lia | ].
    exists w'. split; [exact Hr | ]. split; [ | exact Hd].
    rewrite Hs. simpl sent in *. simpl snd in Hc. rewrite Hc. lia.
Qed.

Lemma mkdir_parents_ok w :
  parent w <> DirBlocked ->
  mkdir_parents w = (Return tt, set_parent DirPresent w).
Proof. unfold mkdir_parents. destruct (parent w); congruence. Qed.

Lemma download_file_after_mkdir w :
  parent w <> DirBlocked ->
  download_file lib srv a w
  = retry_loop lib srv a (Z.to_nat (max_retries a)) 0 (set_parent DirPresent w).
Proof.
  intros H. unfold download_file, bind. rewrite (mkdir_parents_ok w H). reflexivity.
Qed.

(** Reading a file in chunks of a non-zero size feeds the hash the
    whole file. *)
Lemma read_chunks_concat fuel n : forall data,
  (0 < n)%nat -> (List.length data <= fuel)%nat ->
  List.concat (read_chunks fuel n data) = data.
Proof.
  induction fuel as [ | k IH]; intros data Hn Hf.
  - destruct data; [reflexivity | simpl in Hf; lia].
  - destruct data as [ | b rest]; [reflexivity | ].
    cbn [read_chunks List.concat]. rewrite IH; [apply firstn_skipn | exact Hn | ].
    rewrite length_skipn. cbn [List.length] in *. lia.
Qed.

Lemma file_chunks_concat n data :
  n <> 0 -> List.concat (file_chunks n data) = data.
Proof.
  intros Hn. unfold file_chunks.
  destruct (n =? 0) eqn:H0; [apply Z.eqb_eq in H0; contradiction | ].
  destruct (n <? 0) eqn:Hneg.
  - destruct data; simpl; [reflexivity | rewrite app_nil_r; reflexivity].
  - apply Z.ltb_ge in Hneg. apply read_chunks_concat; lia.
Qed.

(** ** The claims *)

(** C1, as the code has it.  When [download_file] returns [True], an
    expected hash was supplied and the chunk size is not 0, the
    destination file exists and its digest under the named algorithm
    is the expected hash.  With a chunk size of 0, [f.read(0)] is empty
    at once and the loop of lines 66-67 feeds the hash nothing,
    whatever the file holds. *)
Theorem success_means_verified (w w' : World) :
  hash_supplied a = true ->
  chunk_size a <> 0 ->
  download_file lib srv a w = (Return true, w') ->
  exists hexdigest data,
    hashlib_new lib (hash_algo a) = Some hexdigest /\
    dest w' = Some data /\
    expected_hash a = Some (hexdigest data).
Proof.
  intros Hh Hc H. unfold download_file in H.
  apply bind_inv in H as [(e & _ & He) | (u & w1 & _ & H)]; [discriminate | ].
  apply retry_loop_returns in H; [ | exact Hh].
  destruct H as (hd & data & Hnew & Hd & Heq).
  exists hd, data. split; [exact Hnew | ]. split; [exact Hd | ].
  rewrite file_chunks_concat in Heq by exact Hc.
  unfold hash_supplied in Hh. unfold expected in Heq.
  destruct (expected_hash a) as [s | ]; [ | discriminate]. congruence.
Qed.

Lemma stream_returns mode pos w u w' :
  stream srv a (mode, pos) w = (Return u, w') ->
  fails_transiently (srv (List.length (sent w)) (content_request a pos)) = false.
Proof.
  unfold stream. fold (content_request a pos). intros H.
  apply bind_inv in H as [(e & _ & He) | (r & w1 & Hs & H)]; [discriminate | ].
  unfold send in Hs.
  destruct (srv (List.length (sent w)) (content_request a pos)) as [ | r'];
    [discriminate | ].
  inversion Hs; subst r' w1; clear Hs.
  unfold fails_transiently.
  apply bind_inv in H as [(e & _ & He) | (u1 & w2 & Hst & H)]; [discriminate | ].
  unfold raise_for_status in Hst.
  destruct ((400 <=? status_code r) && (status_code r <? 600))%bool;
    [discriminate | ].
  destruct ((0 <? pos) && (status_code r =? 200))%bool;
    bind_returned H Hl;
    unfold int_content_length in Hl;
    destruct (content_length r); try discriminate Hl;
    bind_returned H Ho; bind_returned H Hw;
    destruct (body_breaks r); try discriminate H; reflexivity.
Qed.

Lemma attempt_fails_when (attempt : Z) (w : World) :
  (forall p w1 u w2,
      plan srv a attempt w = (Return p, w1) ->
      stream srv a p w1 = (Return u, w2) ->
      exists e w3, verify lib a w2 = (Raise e, w3) /\ transient e = true) ->
  exists e w', attempt_body lib srv a attempt w = (Raise e, w') /\ transient e = true.
Proof.
  intros Hv.
  destruct (plan_returns attempt w) as (p & w1 & Hp & _).
  rewrite (attempt_body_after_plan _ _ _ _ Hp).
  unfold bind at 1.
  destruct (stream srv a p w1) as [[u | e] w2] eqn:Hs.
  - destruct (Hv p w1 u w2 Hp Hs) as (e & w3 & He & Ht).
    exists e, w3. unfold bind. rewrite He. auto.
  - exists e, w2. split; [reflexivity | ]. eapply stream_raises; eauto.
Qed.


(** C9. With [max_retries] <= 0 the loop body never runs:
    [download_file] returns [False], and the only change is that the
    parent directory now exists; nothing was requested, written,
    deleted or logged. *)
Theorem no_attempts_returns_false (w : World) :
  max_retries a <= 0 ->
  parent w <> DirBlocked ->
  download_file lib srv a w = (Return false, set_parent DirPresent w).
Proof.
  intros Hn Hp. rewrite (download_file_after_mkdir w Hp).
  replace (Z.to_nat (max_retries a)) with O by lia. reflexivity.
Qed.

(** From the second attempt on the plan is a fresh transfer: the
    whole body is requested again. *)
Lemma later_plans_are_fresh (attempt : Z) (w : World) :
  attempt <> 0 -> plan srv a attempt w = (Return (WB, 0), w).
Proof.
  intros H. apply Z.eqb_neq in H. unfold plan.
  destruct (resume a); [ | reflexivity].
  unfold bind, dest_exists. rewrite H, andb_false_r. reflexivity.
Qed.


End Stages.

(** * Concrete runs of the claims *)

Example sample_sha1_is_the_digest : Sha1.hexdigest sample_content = sample_sha1.
Proof. vm_compute. reflexivity. Qed.

Lemma success_means_verified_witness :
  exists hexdigest data,
    hashlib_new sha1_lib "sha1" = Some hexdigest /\
    dest (snd (download_file sha1_lib serving (call (Some sample_sha1) "sha1" 3) empty_dir))
    = Some data /\
    Some sample_sha1 = Some (hexdigest data).
Proof.
  apply (success_means_verified sha1_lib serving (call (Some sample_sha1) "sha1" 3)
           empty_dir).
  - reflexivity.
  - simpl. lia.
  - vm_compute. reflexivity.
Defined.

(** C1, as stated, fails at a chunk size of 0.  The destination holds
    ten bytes, the probe reports 42, and the range request is answered
    with status 206 and an empty body: nothing is appended, the
    verifier reads nothing, and the call returns [True] on the digest
    of the empty input while the file has another. *)
Lemma zero_chunk_size_skips_the_check :
  download_file sha1_lib empty_range
    (mkArgs test_url (Some "da39a3ee5e6b4b0d3255bfef95601890afd80709") "sha1" true 0 3 true)
    partial_file
  = (Return true,
     mkWorld DirPresent (Some (firstn 10 sample_content))
       [mkRequest HEAD test_url None; mkRequest GET test_url (Some 10)] [] []) /\
  String.eqb (Sha1.hexdigest (firstn 10 sample_content))
             "da39a3ee5e6b4b0d3255bfef95601890afd80709" = false.
Proof. vm_compute. split; reflexivity. Qed.


Lemma no_attempts_returns_false_witness :
  download_file sha1_lib serving (call None "sha1" 0)
    (mkWorld DirMissing None [] [] [])
  = (Return false, empty_dir).
Proof.
  apply (no_attempts_returns_false sha1_lib serving (call None "sha1" 0)
           (mkWorld DirMissing None [] [] [])).
  - simpl. lia.
  - discriminate.
Defined.



(** C7, where the code departs from it.  The destination holds ten
    bytes, the probe reports 42, and the range request is answered with
    status 206 and no declared length: the callback is called all the
    same, with the resume offset 10 as the total and more than that
    downloaded. *)
Theorem progress_reported_without_length :
  srv_reply_has_no_length
    (ranged_chunked 1%nat (mkRequest GET test_url (Some 10))) = true /\
  download_file sha1_lib ranged_chunked (call None "sha1" 3) partial_file
  = (Return true,
     mkWorld DirPresent (Some sample_content)
       [mkRequest HEAD test_url None; mkRequest GET test_url (Some 10)]
       [(26, 10); (42, 10)] []).
Proof. vm_compute. split; reflexivity. Qed.

(** * Further properties of download_file *)

Section Transfer.
Variable lib : HashLib.
Variable srv : Server.
Variable a : Args.

Lemma write_chunks_effect cb total chunks : forall d w old,
  dest w = Some old ->
  write_chunks cb total chunks d w
  = (Return (d + len (List.concat chunks)),
     mkWorld (parent w) (Some (old ++ List.concat chunks)) (sent w)
       (progress w ++ reports cb total d chunks) (warnings w)).
Proof.
  unfold reports.
  induction chunks as [ | chunk rest IH]; intros d w old Hd.
  - simpl. rewrite !app_nil_r, Z.add_0_r.
    destruct (cb && negb (total =? 0))%bool; simpl; rewrite app_nil_r;
      destruct w; simpl in *; subst; reflexivity.
  - destruct chunk as [ | b c].
    + simpl. apply IH. exact Hd.
    + cbn [write_chunks List.concat running].
      unfold bind at 1. unfold write. rewrite Hd.
      unfold bind at 1.
      assert (Hlen : d + len ((b :: c) ++ List.concat rest)
                     = d + len (b :: c) + len (List.concat rest)).
      { unfold len. rewrite length_app. lia. }
      destruct (cb && negb (total =? 0))%bool eqn:Hcb.
      * unfold call_progress.
        rewrite (IH _ _ (old ++ b :: c)) by reflexivity.
        simpl. change (b :: c ++ List.concat rest) with ((b :: c) ++ List.concat rest).
        rewrite Hlen, <- !app_assoc. reflexivity.
      * unfold ret at 1.
        rewrite (IH _ _ (old ++ b :: c)) by reflexivity.
        simpl. change (b :: c ++ List.concat rest) with ((b :: c) ++ List.concat rest).
        rewrite Hlen, <- !app_assoc. reflexivity.
Qed.

Lemma open_and_write {A} mode cb total chunks d (k : M A) w :
  parent w = DirPresent ->
  (open_write mode ;;; _ <- write_chunks cb total chunks d ;; k) w
  = k (mkWorld DirPresent (Some (kept mode (dest w) ++ List.concat chunks)) (sent w)
         (progress w ++ reports cb total d chunks) (warnings w)).
Proof.
  intros Hp. unfold bind at 1. unfold open_write. rewrite Hp.
  destruct mode, (dest w) as [old | ] eqn:Hd; unfold bind at 1;
    [ rewrite (write_chunks_effect cb total chunks d _ []) by reflexivity
    | rewrite (write_chunks_effect cb total chunks d _ []) by reflexivity
    | rewrite (write_chunks_effect cb total chunks d _ old Hd)
    | rewrite (write_chunks_effect cb total chunks d _ []) by reflexivity ];
    cbn [parent dest sent progress warnings set_dest kept]; rewrite ?Hp; reflexivity.
Qed.

(** The stream writer, case by case. *)
Lemma stream_eq mode pos w :
  stream srv a (mode, pos) w =
  match srv (List.length (sent w)) (content_request a pos) with
  | Fails => (Raise RequestException, add_sent (content_request a pos) w)
  | Responds r =>
      if ((400 <=? status_code r) && (status_code r <? 600))%bool
      then (Raise RequestException, add_sent (content_request a pos) w)
      else
        match content_length r with
        | BadLength => (Raise ValueError, add_sent (content_request a pos) w)
        | _ =>
            match parent w with
            | DirPresent =>
                if body_breaks r
                then (Raise RequestException, written a mode pos r w)
                else (Return tt, written a mode pos r w)
            | _ => (Raise OSError, add_sent (content_request a pos) w)
            end
        end
  end.
Proof.
  unfold stream. fold (content_request a pos).
  unfold bind at 1. unfold send.
  destruct (srv (List.length (sent w)) (content_request a pos)) as [ | r];
    [reflexivity | ].
  unfold bind at 1. unfold raise_for_status.
  destruct ((400 <=? status_code r) && (status_code r <? 600))%bool; [reflexivity | ].
  unfold ret at 1.
  unfold written, effective_offset, effective_mode, declared.
  destruct ((0 <? pos) && (status_code r =? 200))%bool;
    (unfold bind at 1; unfold int_content_length;
     destruct (content_length r) as [ | | n]; [ | reflexivity | ];
     (unfold ret at 1;
      destruct (parent w) eqn:Hp;
      [ rewrite open_and_write by exact Hp; destruct (body_breaks r); reflexivity
      | unfold bind, open_write; cbn [parent add_sent]; rewrite Hp; reflexivity
      | unfold bind, open_write; cbn [parent add_sent]; rewrite Hp; reflexivity ])).
Qed.

(** The planner leaves the state as it is, or with the probe sent. *)
Lemma plan_state attempt w :
  exists p,
    plan srv a attempt w
    = (Return p, if probing a attempt w then add_sent (probe_request a) w else w) /\
    (p = (WB, 0) \/
     exists old, dest w = Some old /\ p = (AB, len old) /\ attempt = 0).
Proof.
  unfold plan, probing.
  destruct (resume a); [ | exists (WB, 0); auto].
  unfold bind at 1, dest_exists.
  destruct (dest w) as [old | ] eqn:Hd; [ | exists (WB, 0); auto].
  destruct (attempt =? 0) eqn:Hatt; [ | exists (WB, 0); auto]. simpl.
  apply Z.eqb_eq in Hatt.
  unfold try_except, probe. fold (probe_request a).
  unfold bind at 1, send.
  destruct (srv (List.length (sent w)) (probe_request a)) as [ | h];
    [exists (WB, 0); auto | ].
  unfold bind at 1, raise_for_status.
  destruct ((400 <=? status_code h) && (status_code h <? 600))%bool;
    [exists (WB, 0); auto | ].
  unfold ret at 1. unfold bind at 1, int_content_length.
  destruct (content_length h) as [ | | n]; [ | exists (WB, 0); auto | ];
    (unfold ret at 1; unfold bind, dest_size; cbn [dest add_sent]; rewrite Hd;
     match goal with
     | |- context [len old <? ?n] =>
         destruct (len old <? n);
         [ exists (AB, len old); split; [reflexivity | right; exists old; auto]
         | exists (WB, 0); auto ]
     end).
Qed.

Lemma plan_fresh_when_absent attempt w :
  dest w = None -> plan srv a attempt w = (Return (WB, 0), w).
Proof.
  intros Hd. unfold plan.
  destruct (resume a); [ | reflexivity].
  unfold bind, dest_exists. rewrite Hd. reflexivity.
Qed.

(** What one attempt leaves alone. *)
Lemma attempt_body_frame attempt w :
  let w' := snd (attempt_body lib srv a attempt w) in
  parent w' = parent w /\
  warnings w' = warnings w /\
  (progress_callback a = false -> progress w' = progress w) /\
  probes_made (sent w')
  = probes_made (sent w) + (if probing a attempt w then 1 else 0).
Proof.
  destruct (plan_state attempt w) as ([mode pos] & Hp & _).
  rewrite (attempt_body_after_plan lib srv a _ _ _ _ Hp).
  set (w1 := if probing a attempt w then add_sent (probe_request a) w else w).
  assert (H1 : parent w1 = parent w /\ warnings w1 = warnings w /\
               progress w1 = progress w /\
               probes_made (sent w1)
               = probes_made (sent w) + (if probing a attempt w then 1 else 0)).
  { unfold w1. destruct (probing a attempt w); cbn [parent warnings progress sent add_sent].
    - repeat split. unfold probes_made.
      rewrite filter_app, length_app. simpl. lia.
    - repeat split. lia. }
  destruct H1 as (Hpar & Hwarn & Hprog & Hprobe).
  assert (Hget : forall l, probes_made (l ++ [content_request a pos]) = probes_made l).
  { intros l. unfold probes_made. rewrite filter_app, length_app. simpl. lia. }
  assert (Hrep : progress_callback a = false -> forall r,
             progress w1 ++ reports (progress_callback a)
               (declared r + effective_offset pos r) (effective_offset pos r) (body r)
             = progress w1).
  { intros Hcb r. rewrite Hcb. unfold reports. simpl. apply app_nil_r. }
  assert (Hfin : let w' := add_sent (content_request a pos) w1 in
             parent w' = parent w /\ warnings w' = warnings w /\
             (progress_callback a = false -> progress w' = progress w) /\
             probes_made (sent w')
             = probes_made (sent w) + (if probing a attempt w then 1 else 0)).
  { cbn. rewrite Hget. auto. }
  assert (Hfin' : forall r, let w' := written a mode pos r w1 in
             parent w' = parent w /\ warnings w' = warnings w /\
             (progress_callback a = false -> progress w' = progress w) /\
             probes_made (sent w')
             = probes_made (sent w) + (if probing a attempt w then 1 else 0)).
  { intros r. cbn. rewrite Hget. repeat split; auto.
    intros Hcb. rewrite (Hrep Hcb). exact Hprog. }
  unfold bind at 1. rewrite stream_eq.
  destruct (srv (List.length (sent w1)) (content_request a pos)) as [ | r];
    [exact Hfin | ].
  destruct ((400 <=? status_code r) && (status_code r <? 600))%bool;
    [exact Hfin | ].
  assert (Hwritten :
            let w' := snd ((verify lib a ;;; ret true) (written a mode pos r w1)) in
            parent w' = parent w /\ warnings w' = warnings w /\
            (progress_callback a = false -> progress w' = progress w) /\
            probes_made (sent w')
            = probes_made (sent w) + (if probing a attempt w then 1 else 0)).
  { unfold bind.
    destruct (verify lib a (written a mode pos r w1)) as [[u | e] w3] eqn:Hv.
    - apply verify_returns in Hv as [-> _]. exact (Hfin' r).
    - apply verify_raises in Hv as [[_ ->] | [_ ->]];
        [exact (Hfin' r) | exact (Hfin' r)]. }
  destruct (content_length r); [ | exact Hfin | ];
    (destruct (parent w1); [ | exact Hfin | exact Hfin ];
     destruct (body_breaks r); [exact (Hfin' r) | exact Hwritten]).
Qed.

Lemma retry_loop_frame n : forall attempt w,
  let w' := snd (retry_loop lib srv a n attempt w) in
  parent w' = parent w /\
  (progress_callback a = false -> progress w' = progress w) /\
  attempts_made (sent w') <= attempts_made (sent w) + Z.of_nat n /\
  probes_made (sent w')
  = probes_made (sent w)
    + match n with O => 0 | S _ => if probing a attempt w then 1 else 0 end.
Proof.
  induction n as [ | k IH]; intros attempt w.
  - cbn. repeat split; auto; lia.
  - cbv zeta. rewrite retry_loop_step.
    pose proof (attempt_body_frame attempt w) as (Hpar & _ & Hprog & Hprobe).
    pose proof (attempt_body_attempts lib srv a attempt w) as Hatt.
    destruct (attempt_body lib srv a attempt w) as [[b | e] w1]; cbn [snd] in *.
    + repeat split; auto; lia.
    + destruct (transient e); [ | cbn [snd]; repeat split; auto; lia].
      destruct (attempt =? max_retries a - 1).
      * cbn. repeat split; auto; lia.
      * specialize (IH (attempt + 1) (cleaned attempt e w1)).
        cbv zeta in IH. destruct IH as (IH1 & IH2 & IH3 & IH4).
        assert (Hnp : probing a (attempt + 1) (cleaned attempt e w1) = false).
        { unfold probing. cbn. rewrite andb_false_r. reflexivity. }
        rewrite Hnp in IH4. cbn [cleaned set_dest add_warning parent progress sent] in *.
        repeat split.
        -- congruence.
        -- intros Hcb. rewrite IH2 by exact Hcb. auto.
        -- lia.
        -- rewrite IH4, Hprobe. destruct k; lia.
Qed.

(** C6. A resume at offset K > 0 was planned and the server answers
    the range request with status 200 and the full content: the
    transfer returns normally, the file is exactly the content sent,
    whatever was there before, and the planned offset is dropped: the
    progress reports count from 0 and their total is the declared
    length alone.  With no hash to check, [download_file] returns
    [True] in that state. *)
Theorem range_ignored_overwrites (w w1 : World) (mode : Mode) (K : Z) (r : Response) :
  parent w = DirPresent ->
  plan srv a 0 w = (Return (mode, K), w1) ->
  0 < K ->
  srv (List.length (sent w1)) (mkRequest GET (url a) (Some K)) = Responds r ->
  status_code r = 200 ->
  content_length r <> BadLength ->
  body_breaks r = false ->
  exists w2,
    stream srv a (mode, K) w1 = (Return tt, w2) /\
    dest w2 = Some (List.concat (body r)) /\
    sent w2 = sent w1 ++ [mkRequest GET (url a) (Some K)] /\
    progress w2
    = progress w1 ++ reports (progress_callback a) (declared r) 0 (body r) /\
    (hash_supplied a = false -> 1 <= max_retries a ->
     download_file lib srv a w = (Return true, w2)).
Proof.
  intros Hpar Hplan HK Hsrv Hst Hlen Hbr.
  assert (Hpar1 : parent w1 = DirPresent).
  { destruct (plan_returns srv a 0 w) as (p' & w1' & Hp' & Hq & _).
    rewrite Hplan in Hp'. inversion Hp'; subst. congruence. }
  assert (Hreq : content_request a K = mkRequest GET (url a) (Some K)).
  { unfold content_request. rewrite (proj2 (Z.ltb_lt 0 K) HK). reflexivity. }
  assert (Hstream : stream srv a (mode, K) w1 = (Return tt, written a mode K r w1)).
  { rewrite stream_eq, Hreq, Hsrv, Hst, Hpar1, Hbr. cbn [Z.leb Z.ltb Z.compare andb].
    destruct (content_length r); [reflexivity | congruence | reflexivity]. }
  assert (Hoff : effective_offset K r = 0).
  { unfold effective_offset. rewrite (proj2 (Z.ltb_lt 0 K) HK), Hst. reflexivity. }
  assert (Hmode : effective_mode mode K r = WB).
  { unfold effective_mode. rewrite (proj2 (Z.ltb_lt 0 K) HK), Hst. reflexivity. }
  exists (written a mode K r w1).
  split; [exact Hstream | ].
  split; [cbn [written dest]; rewrite Hmode; reflexivity | ].
  split; [cbn [written sent]; rewrite Hreq; reflexivity | ].
  split; [cbn [written progress]; rewrite Hoff, Z.add_0_r; reflexivity | ].
  intros Hh Hn.
  rewrite (download_file_after_mkdir lib srv a w) by congruence.
  replace (set_parent DirPresent w) with w
    by (destruct w; simpl in Hpar; subst; reflexivity).
  destruct (Z.to_nat (max_retries a)) as [ | k] eqn:Hk; [lia | ].
  rewrite retry_loop_step.
  rewrite (attempt_body_after_plan lib srv a _ _ _ _ Hplan).
  unfold bind at 1. rewrite Hstream.
  unfold bind, verify. rewrite Hh. reflexivity.
Qed.

(** X1. Whatever the server does and however the call ends, it makes
    at most [max_retries] content requests (none when that is negative). *)
Theorem attempts_within_budget (w : World) :
  attempts_made (sent (snd (download_file lib srv a w)))
  <= attempts_made (sent w) + Z.max 0 (max_retries a).
Proof.
  unfold download_file, bind, mkdir_parents.
  destruct (parent w); cbn [snd]; try lia.
  - pose proof (retry_loop_frame (Z.to_nat (max_retries a)) 0 (set_parent DirPresent w))
      as (_ & _ & H & _).
    cbn [sent set_parent] in H. lia.
  - pose proof (retry_loop_frame (Z.to_nat (max_retries a)) 0 (set_parent DirPresent w))
      as (_ & _ & H & _).
    cbn [sent set_parent] in H. lia.
Qed.

(** X2. The size probe is sent at most once per call, and not at all
    when resume is off or the destination does not exist at the start. *)
Theorem probe_at_most_once (w : World) :
  probes_made (sent (snd (download_file lib srv a w))) <= probes_made (sent w) + 1 /\
  (resume a = false \/ dest w = None ->
   probes_made (sent (snd (download_file lib srv a w))) = probes_made (sent w)).
Proof.
  assert (H : probes_made (sent (snd (download_file lib srv a w)))
              = probes_made (sent w)
              \/ (probes_made (sent (snd (download_file lib srv a w)))
                  = probes_made (sent w) + 1 /\ probing a 0 w = true)).
  { unfold download_file, bind, mkdir_parents.
    destruct (parent w); cbn [snd]; auto;
      (pose proof (retry_loop_frame (Z.to_nat (max_retries a)) 0
                     (set_parent DirPresent w)) as (_ & _ & _ & H);
       cbn [sent set_parent] in H;
       change (probing a 0 (set_parent DirPresent w)) with (probing a 0 w) in H;
       destruct (Z.to_nat (max_retries a)); [left; lia | ];
       destruct (probing a 0 w); [right; split; [lia | reflexivity] | left; lia]). }
  split.
  - destruct H as [H | [H _]]; lia.
  - intros Hno. destruct H as [H | [_ H]]; [exact H | ].
    unfold probing in H. destruct Hno as [Hr | Hd].
    + rewrite Hr in H. discriminate.
    + rewrite Hd, andb_false_r in H. discriminate.
Qed.

(** X3. Without a progress callback no progress is ever reported. *)
Theorem no_callback_no_progress (w : World) :
  progress_callback a = false ->
  progress (snd (download_file lib srv a w)) = progress w.
Proof.
  intros Hcb. unfold download_file, bind, mkdir_parents.
  destruct (parent w); cbn [snd]; auto;
    (pose proof (retry_loop_frame (Z.to_nat (max_retries a)) 0
                   (set_parent DirPresent w)) as (_ & H & _);
     rewrite H by exact Hcb; reflexivity).
Qed.

(** X4. Once the parent directory can be created it exists after the
    call, however the call ends. *)
Theorem parent_directory_created (w : World) :
  parent w <> DirBlocked ->
  parent (snd (download_file lib srv a w)) = DirPresent.
Proof.
  intros Hp. rewrite (download_file_after_mkdir lib srv a w Hp).
  pose proof (retry_loop_frame (Z.to_nat (max_retries a)) 0 (set_parent DirPresent w))
    as (H & _).
  rewrite H. reflexivity.
Qed.

Lemma retry_loop_false n : forall attempt w w',
  attempt + Z.of_nat n = max_retries a ->
  retry_loop lib srv a n attempt w = (Return false, w') ->
  n = O.
Proof.
  induction n as [ | k IH]; intros attempt w w' Hn H; [reflexivity | ].
  rewrite retry_loop_step in H.
  destruct (attempt_body lib srv a attempt w) as [[b | e] w1] eqn:Hb.
  - apply attempt_body_returns in Hb as [-> _]. discriminate.
  - destruct (transient e); [ | discriminate].
    destruct (attempt =? max_retries a - 1) eqn:Hlast; [discriminate | ].
    apply IH in H; [ | lia]. apply Z.eqb_neq in Hlast. lia.
Qed.

(** X5. [download_file] returns [False] only when [max_retries] allows
    no attempt: with one attempt or more it returns [True] or raises. *)
Theorem false_only_without_attempts (w w' : World) :
  download_file lib srv a w = (Return false, w') ->
  max_retries a <= 0.
Proof.
  intros H. unfold download_file in H.
  apply bind_inv in H as [(e & _ & He) | (u & w1 & _ & H)]; [discriminate | ].
  destruct (Z_le_gt_dec (max_retries a) 0) as [Hle | Hgt]; [exact Hle | ].
  apply retry_loop_false in H; lia.
Qed.

Lemma retry_loop_exhausted_count n : forall attempt w w' msg,
  attempt + Z.of_nat n = max_retries a ->
  retry_loop lib srv a n attempt w = (Raise (DownloadError msg), w') ->
  attempts_made (sent w') = attempts_made (sent w) + Z.of_nat n /\
  List.length (warnings w') = (List.length (warnings w) + n)%nat.
Proof.
  induction n as [ | k IH]; intros attempt w w' msg Hn H; [discriminate | ].
  rewrite retry_loop_step in H.
  pose proof (attempt_body_frame attempt w) as (_ & Hwarn & _).
  pose proof (attempt_body_attempts lib srv a attempt w) as Hatt.
  destruct (attempt_body lib srv a attempt w) as [[b | e] w1] eqn:Hb;
    [discriminate | ]. cbn [snd] in *.
  destruct (transient e) eqn:Ht.
  - destruct (attempt =? max_retries a - 1) eqn:Hlast.
    + inversion H; subst. apply Z.eqb_eq in Hlast.
      assert (k = O) by lia. subst k.
      cbn [cleaned set_dest add_warning sent warnings].
      rewrite length_app, Hwarn. simpl. split; lia.
    + apply IH in H; [ | lia]. destruct H as [H1 H2].
      cbn [cleaned set_dest add_warning sent warnings] in *.
      rewrite length_app, Hwarn in H2. simpl in H2. split; lia.
  - inversion H; subst.
    apply attempt_body_raises in Hb as [Hb | [Hb _]]; congruence.
Qed.

(** X6. The exhausted error is raised only after the whole budget is
    used: exactly [max_retries] content requests were made, and each
    failed attempt was logged with one warning. *)
Theorem exhausted_after_all_attempts (w w' : World) (msg : string) :
  download_file lib srv a w = (Raise (DownloadError msg), w') ->
  1 <= max_retries a /\
  attempts_made (sent w') = attempts_made (sent w) + max_retries a /\
  Z.of_nat (List.length (warnings w'))
  = Z.of_nat (List.length (warnings w)) + max_retries a.
Proof.
  intros H. unfold download_file in H.
  apply bind_inv in H as [(e & Hm & He) | (u & w1 & Hm & H)].
  - inversion He; subst. unfold mkdir_parents in Hm.
    destruct (parent w); discriminate.
  - assert (Hw1 : sent w1 = sent w /\ warnings w1 = warnings w).
    { unfold mkdir_parents in Hm. destruct (parent w); inversion Hm; auto. }
    destruct Hw1 as [Hs Hwn].
    destruct (Z_le_gt_dec (max_retries a) 0) as [Hle | Hgt].
    + replace (Z.to_nat (max_retries a)) with O in H by lia. discriminate.
    + apply retry_loop_exhausted_count in H; [ | lia].
      rewrite Hs, Hwn in H. lia.
Qed.

(** ** Progress reports *)

Lemma running_bounds chunks : forall d x,
  In x (running d chunks) -> d < x <= d + len (List.concat chunks).
Proof.
  induction chunks as [ | chunk rest IH]; intros d x Hx; [destruct Hx | ].
  destruct chunk as [ | b c]; [exact (IH d x Hx) | ].
  cbn [running List.concat] in *.
  assert (Hlen : len ((b :: c) ++ List.concat rest)
                 = len (b :: c) + len (List.concat rest))
    by (unfold len; rewrite length_app; lia).
  assert (Hpos : 0 < len (b :: c)) by (unfold len; simpl; lia).
  assert (Hrest : 0 <= len (List.concat rest)) by (unfold len; lia).
  destruct Hx as [<- | Hx]; [lia | ].
  apply IH in Hx. lia.
Qed.

Lemma running_sorted chunks : forall d, StronglySorted Z.lt (running d chunks).
Proof.
  induction chunks as [ | chunk rest IH]; intros d; [constructor | ].
  destruct chunk as [ | b c]; [exact (IH d) | ].
  cbn [running]. constructor; [apply IH | ].
  apply Forall_forall. intros x Hx. apply running_bounds in Hx. lia.
Qed.

Lemma running_last chunks : forall d,
  running d chunks <> [] ->
  last (running d chunks) 0 = d + len (List.concat chunks).
Proof.
  induction chunks as [ | chunk rest IH]; intros d Hne; [contradiction | ].
  destruct chunk as [ | b c]; [exact (IH d Hne) | ].
  cbn [running List.concat] in *.
  assert (Hlen : len ((b :: c) ++ List.concat rest)
                 = len (b :: c) + len (List.concat rest))
    by (unfold len; rewrite length_app; lia).
  destruct (running (d + len (b :: c)) rest) as [ | y ys] eqn:Hr.
  - cbn [last]. rewrite Hlen.
    assert (Hz : len (List.concat rest) = 0).
    { clear - Hr. revert Hr. generalize (d + len (b :: c)).
      induction rest as [ | [ | b' c'] rest' IHr]; intros z Hr;
        [reflexivity | exact (IHr z Hr) | discriminate]. }
    lia.
  - change (last (d + len (b :: c) :: y :: ys) 0) with (last (y :: ys) 0).
    rewrite <- Hr, IH by (rewrite Hr; discriminate). lia.
Qed.

Lemma running_nonempty chunks d :
  List.concat chunks <> [] -> running d chunks <> [].
Proof.
  revert d. induction chunks as [ | [ | b c] rest IH]; intros d H.
  - contradiction.
  - simpl in *. apply IH. exact H.
  - discriminate.
Qed.

Lemma last_last_app {A} (l1 l2 : list A) (d : A) :
  l2 <> [] -> last (l1 ++ l2) d = last l2 d.
Proof.
  intros H. induction l1 as [ | x l1 IH]; [reflexivity | ].
  cbn [app]. destruct (l1 ++ l2) eqn:E.
  - apply app_eq_nil in E as [_ E]. contradiction.
  - rewrite <- IH. reflexivity.
Qed.

Lemma last_map_nonempty {A B} (f : A -> B) (l : list A) (d : B) (d' : A) :
  l <> [] -> last (map f l) d = f (last l d').
Proof.
  induction l as [ | x [ | y ys] IH]; intros H; [contradiction | reflexivity | ].
  change (last (map f (y :: ys)) d = f (last (y :: ys) d')).
  apply IH. discriminate.
Qed.

(** X7. Within one transfer the callback sees strictly increasing
    [downloaded] values, each above the starting offset, always with
    the same total, the offset plus the declared length; after the
    last chunk [downloaded] is the offset plus all bytes received. *)
Theorem progress_calls_increase (mode : Mode) (pos : Z) (w : World) :
  exists calls,
    progress (snd (stream srv a (mode, pos) w)) = progress w ++ calls /\
    StronglySorted Z.lt (map fst calls) /\
    (calls <> [] ->
     progress_callback a = true /\
     exists r,
       srv (List.length (sent w)) (content_request a pos) = Responds r /\
       (forall c, In c calls ->
                  snd c = declared r + effective_offset pos r /\
                  effective_offset pos r < fst c) /\
       fst (last calls (0, 0))
       = effective_offset pos r + len (List.concat (body r))).
Proof.
  assert (Hnone : forall w0, progress w0 = progress w ->
            exists calls,
              progress w0 = progress w ++ calls /\
              StronglySorted Z.lt (map fst calls) /\
              (calls <> [] ->
               progress_callback a = true /\
               exists r,
                 srv (List.length (sent w)) (content_request a pos) = Responds r /\
                 (forall c, In c calls ->
                            snd c = declared r + effective_offset pos r /\
                            effective_offset pos r < fst c) /\
                 fst (last calls (0, 0))
                 = effective_offset pos r + len (List.concat (body r)))).
  { intros w0 H. exists []. rewrite app_nil_r. split; [exact H | ].
    split; [constructor | intros Hne; contradiction]. }
  rewrite stream_eq.
  destruct (srv (List.length (sent w)) (content_request a pos)) as [ | r] eqn:Hsrv;
    [apply Hnone; reflexivity | ].
  destruct ((400 <=? status_code r) && (status_code r <? 600))%bool;
    [apply Hnone; reflexivity | ].
  assert (Hw : exists calls,
             progress (written a mode pos r w) = progress w ++ calls /\
             StronglySorted Z.lt (map fst calls) /\
             (calls <> [] ->
              progress_callback a = true /\
              exists r0,
                Responds r = Responds r0 /\
                (forall c, In c calls ->
                           snd c = declared r0 + effective_offset pos r0 /\
                           effective_offset pos r0 < fst c) /\
                fst (last calls (0, 0))
                = effective_offset pos r0 + len (List.concat (body r0)))).
  { set (off := effective_offset pos r). set (total := declared r + off).
    exists (reports (progress_callback a) total off (body r)).
    split; [reflexivity | ]. unfold reports.
    destruct (progress_callback a); cbn [andb];
      [ | split; [constructor | intros Hne; contradiction]].
    destruct (negb (total =? 0));
      [ | split; [constructor | intros Hne; contradiction]].
    split.
    - rewrite map_map. cbn [fst]. rewrite map_id. apply running_sorted.
    - intros Hne. split; [reflexivity | ]. exists r. split; [reflexivity | ].
      split.
      + intros c Hc. apply in_map_iff in Hc as (d & <- & Hd).
        apply running_bounds in Hd. cbn [fst snd]. fold off. split; [reflexivity | lia].
      + assert (Hr : running off (body r) <> [])
          by (intros Hr; apply Hne; rewrite Hr; reflexivity).
        rewrite (last_map_nonempty (fun d => (d, total)) _ (0, 0) 0 Hr).
        cbn [fst]. apply running_last. exact Hr. }
  destruct (content_length r); [ | apply Hnone; reflexivity | ];
    (destruct (parent w); [ | apply Hnone; reflexivity | apply Hnone; reflexivity ];
     destruct (body_breaks r); exact Hw).
Qed.

(** ** Recovery and resumption *)

Lemma attempts_made_get l pos :
  attempts_made (l ++ [content_request a pos]) = attempts_made l + 1.
Proof. rewrite attempts_made_app. reflexivity. Qed.

(** An attempt from a state with no file at the destination. *)
Lemma fresh_attempt_fails attempt w :
  dest w = None ->
  fails_transiently (srv (List.length (sent w)) (content_request a 0)) = true ->
  exists e w1,
    attempt_body lib srv a attempt w = (Raise e, w1) /\
    transient e = true /\
    sent w1 = sent w ++ [content_request a 0] /\
    parent w1 = parent w.
Proof.
  intros Hd Hf.
  rewrite (attempt_body_after_plan lib srv a _ _ _ _ (plan_fresh_when_absent attempt w Hd)).
  unfold bind at 1. rewrite stream_eq.
  destruct (srv (List.length (sent w)) (content_request a 0)) as [ | r].
  { eexists _, _. split; [reflexivity | ]. auto. }
  cbn [fails_transiently] in Hf.
  destruct ((400 <=? status_code r) && (status_code r <? 600))%bool.
  { eexists _, _. split; [reflexivity | ]. auto. }
  destruct (content_length r);
    [ | eexists _, _; split; [reflexivity | auto] | ];
    (destruct (parent w) eqn:Hp;
     [ | eexists _, _; split; [reflexivity | cbn; auto]
       | eexists _, _; split; [reflexivity | cbn; auto] ];
     cbn [orb] in Hf; rewrite Hf;
     eexists _, _; split; [reflexivity | cbn; auto]).
Qed.

Lemma fresh_attempt_succeeds attempt w r :
  dest w = None ->
  parent w = DirPresent ->
  srv (List.length (sent w)) (content_request a 0) = Responds r ->
  fails_transiently (Responds r) = false ->
  hash_supplied a = false ->
  attempt_body lib srv a attempt w = (Return true, written a WB 0 r w).
Proof.
  intros Hd Hp Hsrv Hf Hh.
  rewrite (attempt_body_after_plan lib srv a _ _ _ _ (plan_fresh_when_absent attempt w Hd)).
  unfold bind at 1. rewrite stream_eq, Hsrv, Hp.
  cbn [fails_transiently] in Hf.
  apply orb_false_iff in Hf as [Hf Hbr]. apply orb_false_iff in Hf as [Hst Hcl].
  rewrite Hst, Hbr.
  destruct (content_length r); [ | discriminate | ];
    unfold bind, verify; rewrite Hh; reflexivity.
Qed.

Lemma retry_loop_recovers r : forall k n attempt w,
  dest w = None ->
  parent w = DirPresent ->
  attempt + Z.of_nat n = max_retries a ->
  (k < n)%nat ->
  (forall i, (i < k)%nat ->
     fails_transiently (srv (List.length (sent w) + i)%nat (content_request a 0)) = true) ->
  srv (List.length (sent w) + k)%nat (content_request a 0) = Responds r ->
  fails_transiently (Responds r) = false ->
  hash_supplied a = false ->
  exists w',
    retry_loop lib srv a n attempt w = (Return true, w') /\
    dest w' = Some (List.concat (body r)) /\
    attempts_made (sent w') = attempts_made (sent w) + Z.of_nat k + 1 /\
    List.length (warnings w') = (List.length (warnings w) + k)%nat.
Proof.
  induction k as [ | k IH]; intros n attempt w Hd Hp Hn Hk Hfail Hsrv Hok Hh;
    (destruct n as [ | n]; [lia | ]); rewrite retry_loop_step.
  - rewrite Nat.add_0_r in Hsrv.
    rewrite (fresh_attempt_succeeds attempt w r Hd Hp Hsrv Hok Hh).
    eexists. split; [reflexivity | ].
    cbn [written dest sent warnings]. rewrite attempts_made_get.
    unfold effective_mode, kept. cbn. split; [reflexivity | ]. split; lia.
  - destruct (fresh_attempt_fails attempt w Hd) as (e & w1 & Hb & Ht & Hs & Hp1).
    { rewrite <- (Nat.add_0_r (List.length (sent w))). apply Hfail. lia. }
    pose proof (attempt_body_frame attempt w) as (_ & Hwarn & _).
    rewrite Hb in Hwarn. cbn [snd] in Hwarn.
    rewrite Hb, Ht.
    rewrite (proj2 (Z.eqb_neq _ _)) by lia.
    destruct (IH n (attempt + 1) (cleaned attempt e w1)) as (w' & Hr & Hd' & Ha & Hw);
      try assumption.
    + reflexivity.
    + cbn. congruence.
    + lia.
    + lia.
    + intros i Hi. cbn [cleaned set_dest add_warning sent]. rewrite Hs, length_app.
      cbn [List.length]. replace (List.length (sent w) + 1 + i)%nat
        with (List.length (sent w) + S i)%nat by lia.
      apply Hfail. lia.
    + cbn [cleaned set_dest add_warning sent]. rewrite Hs, length_app.
      cbn [List.length]. replace (List.length (sent w) + 1 + k)%nat
        with (List.length (sent w) + S k)%nat by lia.
      exact Hsrv.
    + exists w'. split; [exact Hr | ]. split; [exact Hd' | ].
      cbn [cleaned set_dest add_warning sent warnings] in Ha, Hw.
      rewrite Hs, attempts_made_get in Ha. rewrite length_app, Hwarn in Hw.
      cbn [List.length] in Hw. split; lia.
Qed.

(** X8. Retry success.  The destination does not exist, the first [k]
    content replies fail transiently and reply [k], within the budget,
    delivers a complete response: the call returns [True] after
    [k + 1] attempts and [k] warnings, and the file is exactly the body
    of that last response. *)
Theorem retry_then_success (w : World) (k : nat) (r : Response) :
  dest w = None ->
  parent w <> DirBlocked ->
  hash_supplied a = false ->
  Z.of_nat k < max_retries a ->
  (forall i, (i < k)%nat ->
     fails_transiently
       (srv (List.length (sent w) + i)%nat (mkRequest GET (url a) None)) = true) ->
  srv (List.length (sent w) + k)%nat (mkRequest GET (url a) None) = Responds r ->
  fails_transiently (Responds r) = false ->
  exists w',
    download_file lib srv a w = (Return true, w') /\
    dest w' = Some (List.concat (body r)) /\
    attempts_made (sent w') = attempts_made (sent w) + Z.of_nat k + 1 /\
    List.length (warnings w') = (List.length (warnings w) + k)%nat.
Proof.
  intros Hd Hp Hh Hk Hfail Hsrv Hok.
  rewrite (download_file_after_mkdir lib srv a w Hp).
  destruct (retry_loop_recovers r k (Z.to_nat (max_retries a)) 0
              (set_parent DirPresent w))
    as (w' & H1 & H2 & H3 & H4);
    [exact Hd | reflexivity | lia | lia | exact Hfail | exact Hsrv | exact Hok
     | exact Hh | ].
  exists w'. auto.
Qed.

(** X9. Resume.  The planner chose to append at offset [K] to the file
    that holds [old], and the content reply is complete and is not a
    status 200 answer to a range request: the call returns [True] and
    the file is [old] followed by the body.  When the reply declares
    the length of that body and a callback is given, the last progress
    report is (full length, full length). *)
Theorem resume_appends (w w1 : World) (old : bytes) (K : Z) (r : Response) :
  parent w = DirPresent ->
  dest w = Some old ->
  plan srv a 0 w = (Return (AB, K), w1) ->
  srv (List.length (sent w1)) (content_request a K) = Responds r ->
  fails_transiently (Responds r) = false ->
  ((0 <? K) && (status_code r =? 200))%bool = false ->
  hash_supplied a = false ->
  1 <= max_retries a ->
  exists w',
    download_file lib srv a w = (Return true, w') /\
    dest w' = Some (old ++ List.concat (body r)) /\
    (progress_callback a = true ->
     content_length r = Length (len (List.concat (body r))) ->
     List.concat (body r) <> [] ->
     last (progress w') (0, 0)
     = (len (old ++ List.concat (body r)), len (old ++ List.concat (body r)))).
Proof.
  intros Hp Hd Hplan Hsrv Hok Hrange Hh Hn.
  destruct (plan_state 0 w) as (p & Hp' & Hres).
  rewrite Hplan in Hp'. inversion Hp' as [[Hpe Hw1]]. clear Hp'.
  assert (HK : K = len old).
  { destruct Hres as [Hres | (old' & Hd' & Hres & _)]; [congruence | ].
    rewrite Hd in Hd'. congruence. }
  assert (Hd1 : dest w1 = Some old /\ parent w1 = DirPresent).
  { rewrite Hw1. destruct (probing a 0 w); cbn; auto. }
  destruct Hd1 as [Hd1 Hp1].
  exists (written a AB K r w1).
  assert (Hrun : download_file lib srv a w = (Return true, written a AB K r w1)).
  { rewrite (download_file_after_mkdir lib srv a w) by congruence.
    replace (set_parent DirPresent w) with w
      by (destruct w; simpl in Hp; subst; reflexivity).
    destruct (Z.to_nat (max_retries a)) as [ | n] eqn:Hnat; [lia | ].
    rewrite retry_loop_step.
    rewrite (attempt_body_after_plan lib srv a _ _ _ _ Hplan).
    unfold bind at 1. rewrite stream_eq, Hsrv, Hp1.
    cbn [fails_transiently] in Hok.
    apply orb_false_iff in Hok as [Hok Hbr]. apply orb_false_iff in Hok as [Hst Hcl].
    rewrite Hst, Hbr.
    destruct (content_length r); [ | discriminate | ];
      unfold bind, verify; rewrite Hh; reflexivity. }
  split; [exact Hrun | ].
  assert (Hmode : effective_mode AB K r = AB /\ effective_offset K r = K).
  { unfold effective_mode, effective_offset. rewrite Hrange. auto. }
  destruct Hmode as [Hmode Hoff].
  split.
  - cbn [written dest]. rewrite Hmode, Hd1. reflexivity.
  - intros Hcb Hlen Hne.
    cbn [written progress]. rewrite Hoff, Hcb. unfold declared. rewrite Hlen.
    assert (Htot : len (List.concat (body r)) + K = len (old ++ List.concat (body r))).
    { unfold len. rewrite length_app. rewrite HK. unfold len. lia. }
    unfold reports. cbn [andb].
    assert (Hpos : len (List.concat (body r)) + K <> 0).
    { rewrite Htot. unfold len. rewrite length_app.
      destruct (List.concat (body r)); [contradiction | simpl; lia]. }
    rewrite (proj2 (Z.eqb_neq _ _) Hpos). cbn [negb].
    pose proof (running_nonempty (body r) K Hne) as Hr.
    rewrite last_last_app.
    + rewrite (last_map_nonempty _ _ (0, 0) 0 Hr), (running_last _ _ Hr).
      rewrite Htot. f_equal. rewrite <- Htot. lia.
    + intros Hm. apply map_eq_nil in Hm. contradiction.
Qed.

(** ** What a successful call leaves at the destination *)

Lemma attempt_success_content attempt w b w' :
  attempt_body lib srv a attempt w = (Return b, w') ->
  exists earlier rq r prefix,
    sent w' = earlier ++ [rq] /\
    req_method rq = GET /\
    req_url rq = url a /\
    srv (List.length earlier) rq = Responds r /\
    fails_transiently (Responds r) = false /\
    dest w' = Some (prefix ++ List.concat (body r)) /\
    (prefix = [] \/
     (dest w = Some prefix /\ req_range rq = Some (len prefix) /\ status_code r <> 200)).
Proof.
  destruct (plan_state attempt w) as ([mode pos] & Hplan & Hres).
  set (w1 := if probing a attempt w then add_sent (probe_request a) w else w) in *.
  assert (Hd1 : dest w1 = dest w) by (unfold w1; destruct (probing a attempt w); reflexivity).
  rewrite (attempt_body_after_plan lib srv a _ _ _ _ Hplan).
  unfold bind at 1. rewrite stream_eq.
  destruct (srv (List.length (sent w1)) (content_request a pos)) as [ | r] eqn:Hsrv;
    [discriminate | ].
  destruct ((400 <=? status_code r) && (status_code r <? 600))%bool eqn:Hst;
    [discriminate | ].
  assert (Hgoal : body_breaks r = false ->
            match content_length r with BadLength => false | _ => true end = true ->
            (verify lib a ;;; ret true) (written a mode pos r w1) = (Return b, w') ->
            exists earlier rq r0 prefix,
              sent w' = earlier ++ [rq] /\
              req_method rq = GET /\
              req_url rq = url a /\
              srv (List.length earlier) rq = Responds r0 /\
              fails_transiently (Responds r0) = false /\
              dest w' = Some (prefix ++ List.concat (body r0)) /\
              (prefix = [] \/
               (dest w = Some prefix /\ req_range rq = Some (len prefix)
                /\ status_code r0 <> 200))).
  { intros Hbr Hcl H.
    bind_returned H Hv. inversion H; subst. apply verify_returns in Hv as [-> _].
    exists (sent w1), (content_request a pos), r,
      (kept (effective_mode mode pos r) (dest w1)).
    split; [reflexivity | ]. split; [reflexivity | ]. split; [reflexivity | ].
    split; [exact Hsrv | ].
    split.
    { cbn [fails_transiently]. rewrite Hst, Hbr.
      destruct (content_length r); [reflexivity | discriminate | reflexivity]. }
    split; [reflexivity | ].
    rewrite Hd1. unfold effective_mode, content_request. cbn [req_range].
    destruct Hres as [Hres | (old & Hd & Hres & _)]; inversion Hres; subst.
    - left. cbn. reflexivity.
    - rewrite Hd.
      destruct (0 <? len old) eqn:Hpos; cbn [andb].
      + destruct (status_code r =? 200) eqn:H200; [left; reflexivity | ].
        right. apply Z.eqb_neq in H200. auto.
      + left. apply Z.ltb_ge in Hpos. unfold len in Hpos.
        destruct old; [reflexivity | simpl in Hpos; lia]. }
  destruct (content_length r); [ | discriminate | ];
    (destruct (parent w1); [ | discriminate | discriminate ];
     destruct (body_breaks r); [discriminate | ];
     intros H; apply Hgoal; auto).
Qed.

Lemma retry_loop_success_content n : forall attempt w w',
  retry_loop lib srv a n attempt w = (Return true, w') ->
  exists earlier rq r prefix,
    sent w' = earlier ++ [rq] /\
    req_method rq = GET /\
    req_url rq = url a /\
    srv (List.length earlier) rq = Responds r /\
    fails_transiently (Responds r) = false /\
    dest w' = Some (prefix ++ List.concat (body r)) /\
    (prefix = [] \/
     (dest w = Some prefix /\ req_range rq = Some (len prefix) /\ status_code r <> 200)).
Proof.
  induction n as [ | m IH]; intros attempt w w' H; [discriminate | ].
  rewrite retry_loop_step in H.
  destruct (attempt_body lib srv a attempt w) as [[b | e] w1] eqn:Hb.
  - inversion H; subst. eapply attempt_success_content; eauto.
  - destruct (transient e); [ | discriminate].
    destruct (attempt =? max_retries a - 1); [discriminate | ].
    apply IH in H as (l & rq & r & prefix & Hl & Hg & Hu & Hs & Hf & Hd & Hpre).
    exists l, rq, r, prefix. repeat split; auto.
    destruct Hpre as [Hpre | [Hpre _]]; [left; exact Hpre | discriminate].
Qed.

(** X10. After a call that returns [True], the last request the call
    sent is a content request for the URL, the server's reply to it is
    a complete response that is no error, and the destination holds
    the body of that reply: alone or, when the call resumed and the
    server did not answer the range request with status 200, appended
    to the file that was there before the call. *)
Theorem success_file_is_served_body (w w' : World) :
  download_file lib srv a w = (Return true, w') ->
  exists earlier rq r prefix,
    sent w' = earlier ++ [rq] /\
    req_method rq = GET /\
    req_url rq = url a /\
    srv (List.length earlier) rq = Responds r /\
    fails_transiently (Responds r) = false /\
    dest w' = Some (prefix ++ List.concat (body r)) /\
    (prefix = [] \/
     (dest w = Some prefix /\ req_range rq = Some (len prefix) /\ status_code r <> 200)).
Proof.
  intros H. unfold download_file in H.
  bind_returned H Hm.
  assert (Hd : dest x0 = dest w).
  { unfold mkdir_parents in Hm. destruct (parent w); inversion Hm; reflexivity. }
  apply retry_loop_success_content in H. rewrite Hd in H. exact H.
Qed.

End Transfer.

(** * Concrete runs of the further properties *)

Lemma range_ignored_overwrites_witness :
  exists w2,
    stream serving (call None "sha1" 3) (AB, 10)
      (add_sent (mkRequest HEAD test_url None) partial_file)
    = (Return tt, w2) /\
    dest w2 = Some (List.concat [firstn 16 sample_content; skipn 16 sample_content]) /\
    sent w2
    = sent (add_sent (mkRequest HEAD test_url None) partial_file)
      ++ [mkRequest GET test_url (Some 10)] /\
    progress w2
    = progress (add_sent (mkRequest HEAD test_url None) partial_file)
      ++ reports true 42 0 [firstn 16 sample_content; skipn 16 sample_content] /\
    (hash_supplied (call None "sha1" 3) = false -> 1 <= 3 ->
     download_file sha1_lib serving (call None "sha1" 3) partial_file = (Return true, w2)).
Proof.
  apply (range_ignored_overwrites sha1_lib serving (call None "sha1" 3) partial_file
           (add_sent (mkRequest HEAD test_url None) partial_file) AB 10
           (mkResponse 200 (Length (len sample_content))
              [firstn 16 sample_content; skipn 16 sample_content] false)).
  - reflexivity.
  - vm_compute. reflexivity.
  - lia.
  - reflexivity.
  - reflexivity.
  - discriminate.
  - reflexivity.
Defined.

(** The reports of that run: 16 and 42 bytes of 42, not of 52. *)
Example range_ignored_reports :
  progress (snd (download_file sha1_lib serving (call None "sha1" 3) partial_file))
  = [(16, 42); (42, 42)].
Proof. vm_compute. reflexivity. Qed.

Lemma no_callback_no_progress_witness :
  progress (snd (download_file sha1_lib serving
                   (mkArgs test_url None "sha1" false 8192 3 true) empty_dir))
  = progress empty_dir.
Proof.
  apply (no_callback_no_progress sha1_lib serving
           (mkArgs test_url None "sha1" false 8192 3 true) empty_dir).
  reflexivity.
Defined.

Lemma parent_directory_created_witness :
  parent (snd (download_file sha1_lib failing (call None "sha1" 3)
                 (mkWorld DirMissing None [] [] [])))
  = DirPresent.
Proof.
  apply (parent_directory_created sha1_lib failing (call None "sha1" 3)
           (mkWorld DirMissing None [] [] [])).
  discriminate.
Defined.

Lemma false_only_without_attempts_witness :
  (max_retries (call None "sha1" 0) <=? 0) = true.
Proof.
  apply Z.leb_le.
  apply (false_only_without_attempts sha1_lib serving (call None "sha1" 0)
           empty_dir empty_dir).
  vm_compute. reflexivity.
Defined.

Lemma exhausted_after_all_attempts_witness :
  1 <= 3 /\
  attempts_made
    (sent (snd (download_file sha1_lib failing (call None "sha1" 3) empty_dir)))
  = attempts_made (sent empty_dir) + 3 /\
  Z.of_nat (List.length
              (warnings (snd (download_file sha1_lib failing (call None "sha1" 3)
                                empty_dir))))
  = Z.of_nat (List.length (warnings empty_dir)) + 3.
Proof.
  apply (exhausted_after_all_attempts sha1_lib failing (call None "sha1" 3) empty_dir _
           "Failed to download http://example.com/test.txt after 3 attempts").
  vm_compute. reflexivity.
Defined.

Lemma retry_then_success_witness :
  exists w',
    download_file sha1_lib flaky (call None "sha1" 3) empty_dir = (Return true, w') /\
    dest w' = Some (List.concat [sample_content]) /\
    attempts_made (sent w') = attempts_made (sent empty_dir) + Z.of_nat 2 + 1 /\
    List.length (warnings w') = (List.length (warnings empty_dir) + 2)%nat.
Proof.
  apply (retry_then_success sha1_lib flaky (call None "sha1" 3) empty_dir 2
           (mkResponse 200 (Length (len sample_content)) [sample_content] false)).
  - reflexivity.
  - discriminate.
  - reflexivity.
  - simpl. lia.
  - intros i Hi. destruct i as [ | [ | i]]; [reflexivity | reflexivity | lia].
  - reflexivity.
  - reflexivity.
Defined.

Lemma resume_appends_witness :
  exists w',
    download_file sha1_lib ranged (call None "sha1" 3) partial_file = (Return true, w') /\
    dest w'
    = Some (firstn 10 sample_content ++ List.concat [skipn 10 sample_content]) /\
    (progress_callback (call None "sha1" 3) = true ->
     Length (len sample_content - 10)
     = Length (len (List.concat [skipn 10 sample_content])) ->
     List.concat [skipn 10 sample_content] <> [] ->
     last (progress w') (0, 0)
     = (len (firstn 10 sample_content ++ List.concat [skipn 10 sample_content]),
        len (firstn 10 sample_content ++ List.concat [skipn 10 sample_content]))).
Proof.
  apply (resume_appends sha1_lib ranged (call None "sha1" 3) partial_file
           (add_sent (mkRequest HEAD test_url None) partial_file)
           (firstn 10 sample_content) 10
           (mkResponse 206 (Length (len sample_content - 10))
              [skipn 10 sample_content] false)).
  - reflexivity.
  - reflexivity.
  - vm_compute. reflexivity.
  - reflexivity.
  - reflexivity.
  - reflexivity.
  - reflexivity.
  - simpl. lia.
Defined.

Lemma success_file_is_served_body_witness :
  exists earlier rq r prefix,
    sent (snd (download_file sha1_lib serving (call None "sha1" 3) empty_dir))
    = earlier ++ [rq] /\
    req_method rq = GET /\
    req_url rq = url (call None "sha1" 3) /\
    serving (List.length earlier) rq = Responds r /\
    fails_transiently (Responds r) = false /\
    dest (snd (download_file sha1_lib serving (call None "sha1" 3) empty_dir))
    = Some (prefix ++ List.concat (body r)) /\
    (prefix = [] \/
     (dest empty_dir = Some prefix /\ req_range rq = Some (len prefix)
      /\ status_code r <> 200)).
Proof.
  apply (success_file_is_served_body sha1_lib serving (call None "sha1" 3) empty_dir).
  vm_compute. reflexivity.
Defined.

(** * download_file when its collaborators fail *)

Lemma bind_ext {A B} (m m' : M A) (k k' : A -> M B) w :
  m w = m' w -> (forall x w1, k x w1 = k' x w1) -> bind m k w = bind m' k' w.
Proof.
  intros Hm Hk. unfold bind. rewrite Hm.
  destruct (m' w) as [[x | e] w1]; [apply Hk | reflexivity].
Qed.

Lemma raises_only_weaken {A} (P Q : exn -> Prop) (m : M A) :
  (forall e, P e -> Q e) -> raises_only P m -> raises_only Q m.
Proof. intros HPQ Hm w e w' H. apply HPQ. eapply Hm; eauto. Qed.

Lemma transient_stream_error e : is_transient e -> stream_error e.
Proof. intros H. left. exact H. Qed.

Section FaultsFacts.
Variable env : Faults.Env.
Variable lib : HashLib.
Variable srv : Server.
Variable a : Args.

(** ** Without faults the two embeddings agree *)

Lemma plan_quiet attempt w :
  Faults.quiet env -> Faults.plan env srv a attempt w = plan srv a attempt w.
Proof.
  intros (_ & Hdir & _). unfold Faults.plan, plan.
  destruct (resume a); [ | reflexivity].
  apply bind_ext.
  { unfold Faults.dest_exists, dest_exists. rewrite Hdir. reflexivity. }
  intros there w1. destruct (there && (attempt =? 0))%bool; [ | reflexivity].
  unfold try_except.
  assert (Hprobe : Faults.probe env srv a w1 = probe srv a w1).
  { unfold Faults.probe, probe.
    apply bind_ext; [reflexivity | ]. intros r w2.
    apply bind_ext; [reflexivity | ]. intros _ w3.
    apply bind_ext; [reflexivity | ]. intros n w4.
    apply bind_ext; [ | reflexivity].
    unfold Faults.dest_size, dest_size. rewrite Hdir. reflexivity. }
  rewrite Hprobe. reflexivity.
Qed.

Lemma write_chunks_quiet cb total chunks : forall d w,
  Faults.quiet env ->
  Faults.write_chunks env cb total chunks d w = write_chunks cb total chunks d w.
Proof.
  induction chunks as [ | [ | b c] rest IH]; intros d w Hq;
    cbn [Faults.write_chunks write_chunks]; auto.
  apply bind_ext; [reflexivity | ]. intros _ w1.
  apply bind_ext.
  - destruct (cb && negb (total =? 0))%bool; [ | reflexivity].
    unfold Faults.call_progress, call_progress.
    destruct Hq as (Hcb & _). rewrite Hcb. reflexivity.
  - intros _ w2. apply IH. exact Hq.
Qed.

Lemma stream_quiet p w :
  Faults.quiet env -> Faults.stream env srv a p w = stream srv a p w.
Proof.
  intros Hq. destruct p as [mode pos]. unfold Faults.stream, stream.
  apply bind_ext; [reflexivity | ]. intros r w1.
  apply bind_ext; [reflexivity | ]. intros _ w2.
  destruct ((0 <? pos) && (status_code r =? 200))%bool;
    (apply bind_ext; [reflexivity | ]; intros n w3;
     apply bind_ext;
     [ unfold Faults.open_write, open_write;
       destruct Hq as (_ & Hdir & _); rewrite Hdir; reflexivity | ];
     intros _ w4;
     apply bind_ext; [apply write_chunks_quiet; exact Hq | reflexivity]).
Qed.

(** ** The handler *)

Lemma handler_eq {A} (k : M A) attempt e w :
  (log_warning (attempt + 1) e ;;;
   there <- Faults.dest_exists env ;;
   (if there then Faults.dest_unlink env else ret tt) ;;;
   k) w
  = if unlink_fails env w
    then (Raise OSError, add_warning (attempt + 1, e) w)
    else k (cleaned attempt e w).
Proof.
  unfold bind, log_warning, Faults.dest_exists, Faults.dest_unlink, cleaned, unlink_fails.
  destruct w as [pa [d | ] se pr wa]; cbn;
    destruct (Faults.is_directory env), (Faults.undeletable env); cbn; reflexivity.
Qed.

Lemma retry_loop_step_faults k attempt w :
  Faults.retry_loop env lib srv a (S k) attempt w =
  match Faults.attempt_body env lib srv a attempt w with
  | (Return b, w1) => (Return b, w1)
  | (Raise e, w1) =>
      if transient e then
        if unlink_fails env w1
        then (Raise OSError, add_warning (attempt + 1, e) w1)
        else if attempt =? max_retries a - 1
             then (Raise (DownloadError (exhausted_message a)), cleaned attempt e w1)
             else Faults.retry_loop env lib srv a k (attempt + 1) (cleaned attempt e w1)
      else (Raise e, w1)
  end.
Proof.
  cbn [Faults.retry_loop]. unfold try_except.
  destruct (Faults.attempt_body env lib srv a attempt w) as [[b | e] w1]; [reflexivity | ].
  destruct (transient e); [ | reflexivity].
  rewrite handler_eq.
  destruct (unlink_fails env w1); [reflexivity | ].
  destruct (attempt =? max_retries a - 1); reflexivity.
Qed.

Lemma cleaned_gone attempt e w :
  unlink_fails env w = false -> Faults.gone env (cleaned attempt e w).
Proof.
  unfold unlink_fails, Faults.gone. intros H.
  apply orb_false_iff in H as [Hdir _]. split; [reflexivity | exact Hdir].
Qed.

Lemma unlink_fails_why w :
  unlink_fails env w = true ->
  Faults.is_directory env = true \/ Faults.undeletable env = true.
Proof.
  unfold unlink_fails. intros H.
  apply orb_true_iff in H as [H | H]; [left; exact H | ].
  apply andb_true_iff in H as [H _]. right; exact H.
Qed.

(** ** The exceptions of each stage *)

Lemma call_progress_raises_faults d t :
  raises_only stream_error (Faults.call_progress env d t).
Proof.
  intros w e w' H. unfold Faults.call_progress in H.
  destruct (Faults.callback env _ d t) as [[caught name] | ]; [ | discriminate].
  inversion H; subst. destruct caught; [left; reflexivity | right; eauto].
Qed.

Lemma write_chunks_raises_faults cb total chunks : forall d,
  raises_only stream_error (Faults.write_chunks env cb total chunks d).
Proof.
  induction chunks as [ | [ | b c] rest IH]; intros d; cbn [Faults.write_chunks].
  - apply raises_only_ret.
  - apply IH.
  - apply raises_only_bind.
    + apply (raises_only_weaken is_transient); [exact transient_stream_error | ].
      apply write_raises.
    + intros _. apply raises_only_bind; [ | intros _; apply IH].
      destruct (cb && negb (total =? 0))%bool;
        [apply call_progress_raises_faults | apply raises_only_ret].
Qed.

Lemma open_write_raises_faults mode :
  raises_only stream_error (Faults.open_write env mode).
Proof.
  intros w e w' H. unfold Faults.open_write in H.
  destruct (Faults.is_directory env); [inversion H; left; reflexivity | ].
  destruct (parent w); [ | inversion H; left; reflexivity | inversion H; left; reflexivity].
  destruct mode, (dest w); discriminate.
Qed.

Lemma stream_raises_faults p : raises_only stream_error (Faults.stream env srv a p).
Proof.
  destruct p as [mode pos]. unfold Faults.stream.
  apply raises_only_bind.
  { apply (raises_only_weaken is_transient); [exact transient_stream_error | ].
    apply send_raises. }
  intros r. apply raises_only_bind.
  { apply (raises_only_weaken is_transient); [exact transient_stream_error | ].
    apply raise_for_status_raises. }
  intros _.
  destruct ((0 <? pos) && (status_code r =? 200))%bool;
    (apply raises_only_bind;
     [ apply (raises_only_weaken is_transient); [exact transient_stream_error | ];
       apply int_content_length_raises | ];
     intros n; apply raises_only_bind; [apply open_write_raises_faults | ];
     intros _; apply raises_only_bind; [apply write_chunks_raises_faults | ];
     intros _; destruct (body_breaks r);
     [apply raises_only_raise; left; reflexivity | apply raises_only_ret]).
Qed.

Lemma plan_never_raises_faults attempt :
  raises_only (fun _ => False) (Faults.plan env srv a attempt).
Proof.
  unfold Faults.plan. destruct (resume a); [ | apply raises_only_ret].
  apply raises_only_bind.
  { intros w e w' H. discriminate H. }
  intros there; destruct (there && (attempt =? 0))%bool; [ | apply raises_only_ret].
  intros w e w' H. unfold try_except in H.
  destruct (Faults.probe env srv a w) as [[p | e1] w1]; discriminate H.
Qed.

Lemma verify_raises_faults w e w' :
  Faults.verify env lib a w = (Raise e, w') ->
  transient e = true \/
  (e = TypeError /\ Faults.needs_length env (hash_algo a) = true) \/
  (e = HashMismatchError (mismatch_message a) /\ Faults.gone env w').
Proof.
  unfold Faults.verify.
  destruct (hash_supplied a); [ | discriminate].
  destruct (hashlib_new lib (hash_algo a)) as [hd | ].
  2:{ intros H; inversion H; subst; left; reflexivity. }
  unfold bind at 1. unfold Faults.read_dest.
  destruct (Faults.is_directory env) eqn:Hdir.
  { intros H; inversion H; subst; left; reflexivity. }
  destruct (dest w) as [data | ] eqn:Hd.
  2:{ intros H; inversion H; subst; left; reflexivity. }
  destruct (Faults.needs_length env (hash_algo a)) eqn:Hlen.
  { intros H; inversion H; subst. right; left. auto. }
  destruct (String.eqb _ _); [discriminate | ].
  unfold bind, Faults.dest_unlink. rewrite Hdir. cbn [orb].
  destruct (Faults.undeletable env).
  { intros H; inversion H; subst; left; reflexivity. }
  rewrite Hd. unfold raise. intros H; inversion H; subst.
  right; right. split; [reflexivity | ]. split; [reflexivity | exact Hdir].
Qed.

Lemma attempt_body_raises_faults attempt w e w' :
  Faults.attempt_body env lib srv a attempt w = (Raise e, w') ->
  transient e = true \/
  (e = HashMismatchError (mismatch_message a) /\ Faults.gone env w') \/
  (e = TypeError /\ Faults.needs_length env (hash_algo a) = true) \/
  (exists name, e = CallbackRaised false name).
Proof.
  unfold Faults.attempt_body. intros H.
  apply bind_inv in H as [(e' & Hp & _) | (p & w1 & _ & H)].
  { exfalso. eapply plan_never_raises_faults; eauto. }
  apply bind_inv in H as [(e' & Hs & He) | (u & w2 & _ & H)].
  { inversion He; subst.
    destruct (stream_raises_faults p _ _ _ Hs) as [Ht | Hc]; auto. }
  apply bind_inv in H as [(e' & Hv & He) | (u' & w3 & _ & H)]; [ | discriminate].
  inversion He; subst.
  apply verify_raises_faults in Hv as [Ht | [Hty | Hm]]; auto.
Qed.

(** Whatever the loop raises, it is one of its own two errors, raised
    with nothing at the destination, or an error that went through
    unhandled. *)
Lemma retry_loop_raises_faults n : forall attempt w e w',
  Faults.retry_loop env lib srv a n attempt w = (Raise e, w') ->
  ((e = HashMismatchError (mismatch_message a) \/
    e = DownloadError (exhausted_message a)) /\ Faults.gone env w') \/
  unhandled env a e.
Proof.
  induction n as [ | k IH]; intros attempt w e w' H.
  - discriminate H.
  - rewrite retry_loop_step_faults in H.
    destruct (Faults.attempt_body env lib srv a attempt w) as [[b | e1] w1] eqn:Hb;
      [discriminate | ].
    destruct (transient e1) eqn:Ht.
    + destruct (unlink_fails env w1) eqn:Hu.
      * inversion H; subst. right. left. split; [reflexivity | ].
        eapply unlink_fails_why; eauto.
      * destruct (attempt =? max_retries a - 1).
        -- inversion H; subst. left. split; [right; reflexivity | ].
           apply cleaned_gone. exact Hu.
        -- eapply IH; eauto.
    + inversion H; subst.
      apply attempt_body_raises_faults in Hb as [Hb | [[-> Hg] | [Hty | Hc]]].
      * congruence.
      * left. auto.
      * right. right. left. exact Hty.
      * right. right. right. exact Hc.
Qed.

Lemma download_file_raises_faults w e w' :
  Faults.download_file env lib srv a w = (Raise e, w') ->
  (e = OSError /\ parent w = DirBlocked /\ w' = w) \/
  (parent w <> DirBlocked /\
   (((e = HashMismatchError (mismatch_message a) \/
      e = DownloadError (exhausted_message a)) /\ Faults.gone env w') \/
    unhandled env a e)).
Proof.
  intros H. unfold Faults.download_file in H.
  apply bind_inv in H as [(e' & Hm & He) | (u & w1 & Hm & H)].
  - unfold mkdir_parents in Hm.
    destruct (parent w) eqn:Hp; try discriminate.
    inversion Hm; subst. inversion He; subst. left. auto.
  - right. split.
    + unfold mkdir_parents in Hm. destruct (parent w); discriminate.
    + eapply retry_loop_raises_faults; eauto.
Qed.

(** C2, as the code has it.  When [download_file] ends with one of its
    own three errors (the parent directory cannot be created, the
    digest does not match, the attempts are used up), nothing is at the
    destination path afterwards.  Any other error it ends with went
    through unhandled: the OSError of an [unlink] the handler could not
    do, the TypeError of a digest that wants a length, or an exception
    the callback raised. *)
Theorem failure_leaves_no_file (w w' : World) (e : exn) :
  Faults.wf_world env w ->
  Faults.download_file env lib srv a w = (Raise e, w') ->
  (((e = OSError /\ parent w = DirBlocked) \/
    e = HashMismatchError ("Hash mismatch for " ++ url a)%string \/
    e = DownloadError
          ("Failed to download " ++ url a ++ " after " ++ str (max_retries a)
           ++ " attempts")%string) ->
   dest w' = None /\ Faults.is_directory env = false) /\
  ((e = OSError /\ parent w = DirBlocked) \/
   e = HashMismatchError ("Hash mismatch for " ++ url a)%string \/
   e = DownloadError
         ("Failed to download " ++ url a ++ " after " ++ str (max_retries a)
          ++ " attempts")%string \/
   unhandled env a e).
Proof.
  intros Hwf H.
  apply download_file_raises_faults in H as [(-> & Hp & ->) | [Hp [[He Hg] | Hu]]].
  - split; [ | left; auto]. intros _.
    destruct Hwf as [Hg | Hpar]; [exact Hg | congruence].
  - split; [intros _; exact Hg | ].
    destruct He as [-> | ->]; auto.
  - split; [ | auto].
    intros [[_ Hb] | [-> | ->]].
    + contradiction.
    + destruct Hu as [[Hx _] | [[Hx _] | (name & Hx)]]; discriminate Hx.
    + destruct Hu as [[Hx _] | [[Hx _] | (name & Hx)]]; discriminate Hx.
Qed.

(** ** Exhausting the attempts *)

Lemma quiet_unlink w : Faults.quiet env -> unlink_fails env w = false.
Proof.
  intros (_ & Hdir & Hdel). unfold unlink_fails. rewrite Hdir, Hdel. reflexivity.
Qed.

Lemma attempt_body_quiet attempt w :
  Faults.quiet env ->
  Faults.attempt_body env lib srv a attempt w
  = (p <- plan srv a attempt ;; stream srv a p ;;; Faults.verify env lib a ;;; ret true) w.
Proof.
  intros Hq. unfold Faults.attempt_body.
  apply bind_ext; [apply plan_quiet; exact Hq | ]. intros p w1.
  apply bind_ext; [apply stream_quiet; exact Hq | reflexivity].
Qed.

(** An attempt fails with an error the loop retries when its transfer
    does, or when the verifier does after it. *)
Lemma attempt_fails_quiet attempt w :
  Faults.quiet env ->
  (forall p w1 u w2,
      plan srv a attempt w = (Return p, w1) ->
      stream srv a p w1 = (Return u, w2) ->
      exists e, Faults.verify env lib a w2 = (Raise e, w2) /\ transient e = true) ->
  exists e w',
    Faults.attempt_body env lib srv a attempt w = (Raise e, w') /\
    transient e = true /\
    attempts_made (sent w') = attempts_made (sent w) + 1.
Proof.
  intros Hq Hv. rewrite attempt_body_quiet by exact Hq.
  destruct (plan_returns srv a attempt w) as (p & w1 & Hp & _ & _ & Hn).
  unfold bind at 1. rewrite Hp.
  pose proof (stream_attempts srv a p w1) as Hs.
  unfold bind at 1.
  destruct (stream srv a p w1) as [[u | e] w2] eqn:Hst; cbn [snd] in Hs.
  - destruct (Hv p w1 u w2 Hp Hst) as (e & He & Ht).
    exists e, w2. unfold bind. rewrite He. repeat split; auto. lia.
  - exists e, w2. split; [reflexivity | ]. split; [ | lia].
    eapply stream_raises; eauto.
Qed.

Lemma retry_loop_exhausts_faults :
  Faults.quiet env ->
  (forall attempt w, exists e w1,
      Faults.attempt_body env lib srv a attempt w = (Raise e, w1) /\
      transient e = true /\
      attempts_made (sent w1) = attempts_made (sent w) + 1) ->
  forall n attempt w,
    attempt + Z.of_nat (S n) = max_retries a ->
    exists w',
      Faults.retry_loop env lib srv a (S n) attempt w
      = (Raise (DownloadError (exhausted_message a)), w') /\
      attempts_made (sent w') = attempts_made (sent w) + Z.of_nat (S n) /\
      dest w' = None.
Proof.
  intros Hq Hfail. induction n as [ | k IH]; intros attempt w Hn.
  - rewrite retry_loop_step_faults.
    destruct (Hfail attempt w) as (e & w1 & Hb & Ht & Hc). rewrite Hb, Ht.
    rewrite (quiet_unlink w1 Hq).
    rewrite (proj2 (Z.eqb_eq _ _)) by lia.
    eexists; split; [reflexivity | ].
    split; [cbn [cleaned sent set_dest add_warning]; lia | reflexivity].
  - rewrite retry_loop_step_faults.
    destruct (Hfail attempt w) as (e & w1 & Hb & Ht & Hc). rewrite Hb, Ht.
    rewrite (quiet_unlink w1 Hq).
    rewrite (proj2 (Z.eqb_neq _ _)) by lia.
    destruct (IH (attempt + 1) (cleaned attempt e w1)) as (w' & Hr & Hs & Hd);
      [lia | ].
    exists w'. split; [exact Hr | ]. split; [ | exact Hd].
    rewrite Hs. cbn [cleaned sent set_dest add_warning]. lia.
Qed.

Lemma verify_quiet w :
  Faults.quiet env ->
  Faults.needs_length env (hash_algo a) = false ->
  Faults.verify env lib a w = verify lib a w.
Proof.
  intros (_ & Hdir & Hdel) Hlen. unfold Faults.verify, verify.
  destruct (hash_supplied a); [ | reflexivity].
  destruct (hashlib_new lib (hash_algo a)) as [hd | ]; [ | reflexivity].
  apply bind_ext.
  { unfold Faults.read_dest, read_dest. rewrite Hdir. reflexivity. }
  intros chunks w1. rewrite Hlen.
  destruct (String.eqb _ _); [reflexivity | ].
  apply bind_ext; [ | reflexivity].
  unfold Faults.dest_unlink, dest_unlink. rewrite Hdir, Hdel. reflexivity.
Qed.

(** When the callback returns, the digest is computable and the
    destination is a file that can be deleted, [Faults.download_file]
    is the [download_file] of the first embedding, run for run. *)
Lemma without_faults_the_embeddings_agree w :
  Faults.quiet env ->
  Faults.needs_length env (hash_algo a) = false ->
  Faults.download_file env lib srv a w = download_file lib srv a w.
Proof.
  intros Hq Hlen.
  assert (Hbody : forall attempt w0,
             Faults.attempt_body env lib srv a attempt w0
             = attempt_body lib srv a attempt w0).
  { intros attempt w0. rewrite attempt_body_quiet by exact Hq.
    unfold attempt_body.
    apply bind_ext; [reflexivity | ]. intros p w1.
    apply bind_ext; [reflexivity | ]. intros _ w2.
    apply bind_ext; [apply verify_quiet; assumption | reflexivity]. }
  assert (Hloop : forall n attempt w0,
             Faults.retry_loop env lib srv a n attempt w0
             = retry_loop lib srv a n attempt w0).
  { induction n as [ | k IH]; intros attempt w0; [reflexivity | ].
    rewrite retry_loop_step_faults, retry_loop_step, Hbody.
    destruct (attempt_body lib srv a attempt w0) as [[b | e] w1]; [reflexivity | ].
    destruct (transient e); [ | reflexivity].
    rewrite (quiet_unlink w1 Hq).
    destruct (attempt =? max_retries a - 1); [reflexivity | apply IH]. }
  unfold Faults.download_file, download_file.
  apply bind_ext; [reflexivity | ]. intros _ w1. apply Hloop.
Qed.

Lemma download_file_after_mkdir_faults w :
  parent w <> DirBlocked ->
  Faults.download_file env lib srv a w
  = Faults.retry_loop env lib srv a (Z.to_nat (max_retries a)) 0 (set_parent DirPresent w).
Proof.
  intros H. unfold Faults.download_file, bind. rewrite (mkdir_parents_ok w H). reflexivity.
Qed.

(** C4, as the code has it.  With [max_retries] = N >= 1, a server
    whose every content reply fails transiently, a callback that does
    not raise and a destination that is no directory and can be
    deleted, [download_file] makes exactly N attempts and raises the
    error that names the URL and N. *)
Theorem retries_exhausted (w : World) :
  1 <= max_retries a ->
  parent w <> DirBlocked ->
  (forall k rq, req_method rq = GET -> fails_transiently (srv k rq) = true) ->
  Faults.quiet env ->
  exists w',
    Faults.download_file env lib srv a w
    = (Raise (DownloadError
                ("Failed to download " ++ url a ++ " after "
                 ++ str (max_retries a) ++ " attempts")%string), w') /\
    attempts_made (sent w') = attempts_made (sent w) + max_retries a.
Proof.
  intros Hn Hp Hsrv Hq.
  rewrite (download_file_after_mkdir_faults w Hp).
  destruct (Z.to_nat (max_retries a)) as [ | k] eqn:Hk; [lia | ].
  destruct (retry_loop_exhausts_faults Hq) with (n := k) (attempt := 0)
                                               (w := set_parent DirPresent w)
    as (w' & Hr & Hc & _).
  - intros attempt w0. apply attempt_fails_quiet; [exact Hq | ].
    intros [mode pos] w1 u w2 _ Hs.
    apply (stream_returns srv a) in Hs. rewrite Hsrv in Hs; [discriminate | reflexivity].
  - lia.
  - exists w'. split; [exact Hr | ]. rewrite Hc. cbn [sent set_parent]. lia.
Qed.

(** ** An algorithm that hashlib does not know *)

Lemma verify_unsupported_faults w :
  hash_supplied a = true ->
  hashlib_new lib (hash_algo a) = None ->
  Faults.verify env lib a w = (Raise ValueError, w).
Proof. intros Hh Hnew. unfold Faults.verify. rewrite Hh, Hnew. reflexivity. Qed.

Lemma downloads_then_deletes_holds :
  hash_supplied a = true ->
  hashlib_new lib (hash_algo a) = None ->
  Faults.quiet env ->
  downloads_then_deletes env lib srv a.
Proof.
  intros Hh Hnew Hq n attempt w0 w1 mode pos r Hpar Hplan Hsrv Hok.
  rewrite plan_quiet in Hplan by exact Hq.
  destruct (plan_returns srv a attempt w0) as (p' & w1' & Hp' & Hpar1 & Hd1 & _).
  rewrite Hplan in Hp'. inversion Hp'; subst p' w1'. clear Hp'.
  cbn [fails_transiently] in Hok.
  apply orb_false_iff in Hok as [Hok Hbr].
  apply orb_false_iff in Hok as [Hst Hcl].
  assert (Hbody : Faults.attempt_body env lib srv a attempt w0
                  = (Raise ValueError, written a mode pos r w1)).
  { rewrite attempt_body_quiet by exact Hq.
    unfold bind at 1. rewrite Hplan.
    unfold bind at 1. rewrite stream_eq, Hsrv, Hst, Hbr.
    replace (parent w1) with DirPresent by congruence.
    destruct (content_length r); [ | discriminate Hcl | ];
      unfold bind; rewrite (verify_unsupported_faults _ Hh Hnew); reflexivity. }
  exists (written a mode pos r w1).
  split; [exact Hbody | ].
  split; [cbn [written dest]; rewrite Hd1; reflexivity | ].
  split; [reflexivity | ].
  rewrite retry_loop_step_faults, Hbody. cbn [transient].
  rewrite (quiet_unlink _ Hq). reflexivity.
Qed.

(** C10, as the code has it.  With an expected hash supplied, an
    algorithm name that [hashlib] does not support, a callback that
    does not raise and a destination that is no directory and can be
    deleted: the ValueError is an error the loop retries; an attempt
    whose transfer completes leaves the whole file and the handler
    deletes it; every attempt after the first is a fresh transfer of
    the whole body; and [download_file] makes [max_retries] attempts,
    leaves no file and raises the exhausted error. *)
Theorem unsupported_algorithm_is_retried (w : World) :
  hash_supplied a = true ->
  hashlib_new lib (hash_algo a) = None ->
  1 <= max_retries a ->
  parent w <> DirBlocked ->
  Faults.quiet env ->
  (forall w2, Faults.verify env lib a w2 = (Raise ValueError, w2)) /\
  transient ValueError = true /\
  downloads_then_deletes env lib srv a /\
  (forall attempt w0,
      attempt <> 0 -> Faults.plan env srv a attempt w0 = (Return (WB, 0), w0)) /\
  exists w',
    Faults.download_file env lib srv a w
    = (Raise (DownloadError
                ("Failed to download " ++ url a ++ " after "
                 ++ str (max_retries a) ++ " attempts")%string), w') /\
    attempts_made (sent w') = attempts_made (sent w) + max_retries a /\
    dest w' = None.
Proof.
  intros Hh Hnew Hn Hp Hq.
  split; [intros w2; apply verify_unsupported_faults; assumption | ].
  split; [reflexivity | ].
  split; [apply downloads_then_deletes_holds; assumption | ].
  split.
  { intros attempt w0 Hne. rewrite plan_quiet by exact Hq.
    apply later_plans_are_fresh. exact Hne. }
  rewrite (download_file_after_mkdir_faults w Hp).
  destruct (Z.to_nat (max_retries a)) as [ | k] eqn:Hk; [lia | ].
  destruct (retry_loop_exhausts_faults Hq) with (n := k) (attempt := 0)
                                               (w := set_parent DirPresent w)
    as (w' & Hr & Hc & Hd).
  - intros attempt w0. apply attempt_fails_quiet; [exact Hq | ].
    intros p w1 u w2 _ _. exists ValueError.
    split; [apply verify_unsupported_faults; assumption | reflexivity].
  - lia.
  - exists w'. split; [exact Hr | ]. split; [ | exact Hd].
    rewrite Hc. cbn [sent set_parent]. lia.
Qed.

End FaultsFacts.

(** * Concrete runs with and without faults *)

Lemma calm_is_quiet : Faults.quiet calm.
Proof. split; [intros; reflexivity | split; reflexivity]. Qed.

(** Without faults the two embeddings give the same run. *)
Example calm_run_agrees :
  Faults.download_file calm sha1_lib serving (call (Some sample_sha1) "sha1" 3) partial_file
  = download_file sha1_lib serving (call (Some sample_sha1) "sha1" 3) partial_file.
Proof. vm_compute. reflexivity. Qed.

Lemma failure_leaves_no_file_witness :
  (((DownloadError "Failed to download http://example.com/test.txt after 3 attempts" = OSError
     /\ parent partial_file = DirBlocked) \/
    DownloadError "Failed to download http://example.com/test.txt after 3 attempts"
    = HashMismatchError ("Hash mismatch for " ++ url (call None "sha1" 3))%string \/
    DownloadError "Failed to download http://example.com/test.txt after 3 attempts"
    = DownloadError
        ("Failed to download " ++ url (call None "sha1" 3) ++ " after "
         ++ str (max_retries (call None "sha1" 3)) ++ " attempts")%string) ->
   dest (snd (Faults.download_file calm sha1_lib failing (call None "sha1" 3) partial_file))
   = None /\ Faults.is_directory calm = false) /\
  ((DownloadError "Failed to download http://example.com/test.txt after 3 attempts" = OSError
    /\ parent partial_file = DirBlocked) \/
   DownloadError "Failed to download http://example.com/test.txt after 3 attempts"
   = HashMismatchError ("Hash mismatch for " ++ url (call None "sha1" 3))%string \/
   DownloadError "Failed to download http://example.com/test.txt after 3 attempts"
   = DownloadError
       ("Failed to download " ++ url (call None "sha1" 3) ++ " after "
        ++ str (max_retries (call None "sha1" 3)) ++ " attempts")%string \/
   unhandled calm (call None "sha1" 3)
     (DownloadError "Failed to download http://example.com/test.txt after 3 attempts")).
Proof.
  apply (failure_leaves_no_file calm sha1_lib failing (call None "sha1" 3) partial_file).
  - right. reflexivity.
  - vm_compute. reflexivity.
Defined.

(** C2, as stated, fails.  The callback raises at its first call: the
    exception is none of the three that line 74 catches, so it leaves
    [download_file] with the first chunk in the file.  The digest of a
    SHAKE algorithm wants a length: the TypeError of line 68 leaves
    the whole file. *)
Lemma callback_error_leaves_the_file :
  Faults.download_file raising_callback sha1_lib serving (call None "sha1" 3) empty_dir
  = (Raise (CallbackRaised false "RuntimeError"),
     mkWorld DirPresent (Some (firstn 16 sample_content))
       [mkRequest GET test_url None] [(16, 42)] []) /\
  Faults.download_file with_shake shake_lib serving (call (Some sample_sha1) "shake_128" 3)
    empty_dir
  = (Raise TypeError,
     mkWorld DirPresent (Some sample_content)
       [mkRequest GET test_url None] [(16, 42); (42, 42)] []).
Proof. vm_compute. split; reflexivity. Qed.

Lemma retries_exhausted_witness :
  exists w',
    Faults.download_file calm sha1_lib failing (call None "sha1" 3) empty_dir
    = (Raise (DownloadError
                ("Failed to download " ++ url (call None "sha1" 3) ++ " after "
                 ++ str (max_retries (call None "sha1" 3)) ++ " attempts")%string), w') /\
    attempts_made (sent w')
    = attempts_made (sent empty_dir) + max_retries (call None "sha1" 3).
Proof.
  apply (retries_exhausted calm sha1_lib failing (call None "sha1" 3) empty_dir).
  - simpl. lia.
  - discriminate.
  - intros k rq _. reflexivity.
  - exact calm_is_quiet.
Defined.

(** C4, as stated, fails.  Every content request fails transiently and
    three attempts are allowed, yet the call ends after one of them
    with another error: the OSError of the handler's [unlink] when the
    destination is a directory or cannot be deleted, the callback's
    exception when the callback raises on a body that then breaks
    off. *)
Lemma one_attempt_then_another_error :
  (fst (Faults.download_file directory_dest sha1_lib failing (call None "sha1" 3) empty_dir)
   = Raise OSError /\
   attempts_made
     (sent (snd (Faults.download_file directory_dest sha1_lib failing (call None "sha1" 3)
                   empty_dir))) = 1) /\
  (fst (Faults.download_file locked_dest sha1_lib failing (call None "sha1" 3) partial_file)
   = Raise OSError /\
   attempts_made
     (sent (snd (Faults.download_file locked_dest sha1_lib failing (call None "sha1" 3)
                   partial_file))) = 1) /\
  (fst (Faults.download_file raising_callback sha1_lib breaking (call None "sha1" 3)
          empty_dir)
   = Raise (CallbackRaised false "RuntimeError") /\
   attempts_made
     (sent (snd (Faults.download_file raising_callback sha1_lib breaking
                   (call None "sha1" 3) empty_dir))) = 1).
Proof. vm_compute. repeat split. Qed.

Lemma unsupported_algorithm_is_retried_witness :
  (forall w2, Faults.verify calm sha1_lib (call (Some sample_sha1) "sha0" 3) w2
              = (Raise ValueError, w2)) /\
  transient ValueError = true /\
  downloads_then_deletes calm sha1_lib serving (call (Some sample_sha1) "sha0" 3) /\
  (forall attempt w0,
      attempt <> 0 ->
      Faults.plan calm serving (call (Some sample_sha1) "sha0" 3) attempt w0
      = (Return (WB, 0), w0)) /\
  exists w',
    Faults.download_file calm sha1_lib serving (call (Some sample_sha1) "sha0" 3) empty_dir
    = (Raise (DownloadError
                ("Failed to download " ++ url (call (Some sample_sha1) "sha0" 3) ++ " after "
                 ++ str (max_retries (call (Some sample_sha1) "sha0" 3))
                 ++ " attempts")%string), w') /\
    attempts_made (sent w')
    = attempts_made (sent empty_dir) + max_retries (call (Some sample_sha1) "sha0" 3) /\
    dest w' = None.
Proof.
  apply (unsupported_algorithm_is_retried calm sha1_lib serving
           (call (Some sample_sha1) "sha0" 3) empty_dir).
  - reflexivity.
  - reflexivity.
  - simpl. lia.
  - discriminate.
  - exact calm_is_quiet.
Defined.

(** The run of that call: three transfers of the whole body, each
    followed by the ValueError, and no file at the end. *)
Example unsupported_algorithm_run :
  Faults.download_file calm sha1_lib serving (call (Some sample_sha1) "sha0" 3) empty_dir
  = (Raise (DownloadError "Failed to download http://example.com/test.txt after 3 attempts"),
     mkWorld DirPresent None
       [mkRequest GET test_url None; mkRequest GET test_url None; mkRequest GET test_url None]
       [(16, 42); (42, 42); (16, 42); (42, 42); (16, 42); (42, 42)]
       [(1, ValueError); (2, ValueError); (3, ValueError)]).
Proof. vm_compute. reflexivity. Qed.

(** C10, as stated, fails.  The destination cannot be deleted: the
    first transfer completes, [hashlib.new] raises the ValueError, the
    handler's [unlink] raises an OSError, and the call ends there, after
    one attempt, with the downloaded file left. *)
Lemma undeletable_download_is_not_retried :
  Faults.download_file locked_dest sha1_lib serving (call (Some sample_sha1) "sha0" 3)
    partial_file
  = (Raise OSError,
     mkWorld DirPresent (Some sample_content)
       [mkRequest HEAD test_url None; mkRequest GET test_url (Some 10)]
       [(16, 42); (42, 42)] [(1, ValueError)]).
Proof. vm_compute. reflexivity. Qed.

(** * installer.py: downloading, cleaning, installing *)

Section DownloadOutcomes.
Variable lib : HashLib.
Variable srv : Server.
Variable a : Args.

Lemma download_file_returns w b w' :
  1 <= max_retries a ->
  download_file lib srv a w = (Return b, w') ->
  b = true /\
  (exists data, dest w' = Some data) /\
  (hash_supplied a = true -> verified lib a w').
Proof.
  intros Hn H. unfold download_file in H.
  apply bind_inv in H as [(e & _ & He) | (u & w1 & _ & H)]; [discriminate | ].
  destruct b.
  - split; [reflexivity | ]. split.
    + apply retry_loop_success_content in H
        as (l & rq & r & prefix & _ & _ & _ & _ & _ & Hd & _).
      eauto.
    + intros Hh. eapply retry_loop_returns; eauto.
  - apply (retry_loop_false lib srv a (Z.to_nat (max_retries a)) 0 w1 w') in H; lia.
Qed.

End DownloadOutcomes.

Section InstallerFacts.
Import Installer.
Variable pl : PathLib.
Variable lib : HashLib.
Variable srv : Server.

Lemma files_put p w s : files (put pl p w s) p = dest w.
Proof. unfold put, update. cbn. rewrite String.eqb_refl. reflexivity. Qed.

Lemma files_put_other p q w s : q <> p -> files (put pl p w s) q = files s q.
Proof.
  intros H. unfold put, update. cbn.
  destruct (String.eqb q p) eqn:E; [apply String.eqb_eq in E; contradiction | reflexivity].
Qed.

(** X11. When [download] returns, it returns the path it computed,
    [downloaded_file] is that path, the file exists there, and with a
    non-empty expected hash its SHA-1 hex digest is that hash. *)
Theorem download_success (self self' : BaseInstaller) (url : string)
  (expected_hash : option string) (cb : bool) (s s' : Sys) (p : string) :
  download pl lib srv self url expected_hash cb s = (Ok p, (self', s')) ->
  p = dest_of pl self url /\
  self' = set_downloaded_file (Some p) self /\
  exists data,
    files s' p = Some data /\
    (hash_supplied (download_args url expected_hash cb) = true ->
     exists hexdigest,
       hashlib_new lib "sha1" = Some hexdigest /\
       expected_hash = Some (hexdigest data)).
Proof.
  unfold download, at_path.
  set (args := download_args url expected_hash cb).
  set (dst := dest_of pl self url).
  destruct (download_file lib srv args (view pl dst s)) as [[b | e] w'] eqn:Hrun.
  2:{ destruct e; discriminate. }
  intros H. inversion H; subst p self' s'. clear H.
  split; [reflexivity | ]. split; [reflexivity | ].
  apply download_file_returns in Hrun as (_ & (data & Hd) & Hv); [ | cbn; lia].
  exists data. rewrite files_put. split; [exact Hd | ].
  intros Hh. destruct (Hv Hh) as (hd & data' & Hnew & Hd' & Heq).
  exists hd. split; [exact Hnew | ].
  rewrite Hd in Hd'. inversion Hd'; subst data'.
  rewrite file_chunks_concat in Heq by (cbn; lia).
  unfold hash_supplied, expected in *. cbn in *.
  destruct expected_hash; [congruence | discriminate].
Qed.


Variable sub : Runner.

(** X14. A failed [download] leaves [downloaded_file] as it was.  An
    installer that never downloaded has nothing to install afterwards:
    [install] raises "No installer downloaded" and starts no process.
    An installer that downloaded before still runs the file of that
    earlier download. *)
Theorem failed_download_blocks_install (self : ExecutableInstaller) (url : string)
  (expected_hash : option string) (cb : bool) (s s' : Sys)
  (self' : BaseInstaller) (x : install_exn) :
  download pl lib srv (exe_base self) url expected_hash cb s = (Err x, (self', s')) ->
  self' = exe_base self /\
  (downloaded_file (exe_base self) = None ->
   install_executable sub
     (mkExecutable self' (executable_args self) (silent_switches self)) s'
   = (Err (InstallationError "No installer downloaded"), s')) /\
  (forall f, downloaded_file (exe_base self) = Some f ->
     commands
       (snd (install_executable sub
               (mkExecutable self' (executable_args self) (silent_switches self)) s'))
     = commands s' ++ [[f] ++ silent_switches self ++ executable_args self]).
Proof.
  unfold download, at_path.
  destruct (download_file _ _ _ _) as [[b | e] w']; [discriminate | ].
  intros H.
  assert (Hs : self' = exe_base self) by (destruct e; inversion H; reflexivity).
  subst self'. split; [reflexivity | ].
  unfold install_executable. cbn [exe_base executable_args silent_switches].
  split.
  - intros Hnone. rewrite Hnone. reflexivity.
  - intros f Hf. rewrite Hf. unfold run. destruct (sub _); reflexivity.
Qed.

(** X15. After a successful [download] an [ExecutableInstaller] runs
    exactly one command: the downloaded path, then the silent switches
    (["/S"; "/quiet"] when none or an empty list was given), then the
    arguments. *)
Theorem install_runs_the_download
  (nm ver idir tdir url : string) (args switches : option (list string))
  (expected_hash : option string) (cb : bool) (s s' : Sys)
  (self' : BaseInstaller) (p : string) :
  download pl lib srv (exe_base (new_executable nm ver idir tdir args switches))
    url expected_hash cb s = (Ok p, (self', s')) ->
  commands
    (snd (install_executable sub
            (mkExecutable self'
               (executable_args (new_executable nm ver idir tdir args switches))
               (silent_switches (new_executable nm ver idir tdir args switches))) s'))
  = commands s'
    ++ [[p] ++ match switches with
               | Some (x :: l) => x :: l
               | _ => ["/S"; "/quiet"]
               end
            ++ match args with Some l => l | None => [] end].
Proof.
  unfold download, at_path.
  destruct (download_file _ _ _ _) as [[b | e] w']; [ | destruct e; discriminate].
  intros H. inversion H; subst p self' s'. clear H.
  unfold install_executable. cbn [exe_base new_executable downloaded_file
                                    set_downloaded_file executable_args silent_switches].
  unfold run.
  assert (Hargs : list_or args [] = match args with Some l => l | None => [] end)
    by (destruct args as [[ | ] | ]; reflexivity).
  rewrite Hargs.
  destruct (sub _); reflexivity.
Qed.

(** X24. [clean] does not reset the installer: a [JarInstaller] that
    downloaded and was cleaned still passes the check of [install] and
    starts java on the path of the file [clean] deleted. *)
Theorem install_after_clean_runs_deleted_file
  (nm ver idir tdir java url : string) (args : option (list string))
  (expected_hash : option string) (cb : bool) (s s1 : Sys)
  (self1 : BaseInstaller) (p : string) :
  download pl lib srv (jar_base (new_jar nm ver idir tdir java args))
    url expected_hash cb s = (Ok p, (self1, s1)) ->
  exists s2,
    clean pl self1 s1 = (Ok tt, (self1, s2)) /\
    files s2 p = None /\
    commands s2 = commands s1 /\
    commands
      (snd (install_jar sub
              (mkJar self1 java (jar_args (new_jar nm ver idir tdir java args))) s2))
    = commands s1
      ++ [[java; "-jar"; p] ++ match args with Some l => l | None => [] end].
Proof.
  unfold download, at_path.
  destruct (download_file _ _ _ _) as [[b | e] w']; [ | destruct e; discriminate].
  intros H. inversion H; subst p self1 s1. clear H.
  set (dst := dest_of pl _ url).
  set (s1 := put pl dst w' s).
  unfold clean, at_path. cbn [downloaded_file set_downloaded_file].
  unfold bind, dest_exists, dest_unlink. cbn [view dest].
  assert (Hargs : list_or args [] = match args with Some l => l | None => [] end)
    by (destruct args as [[ | ] | ]; reflexivity).
  destruct (files s1 dst) as [data | ] eqn:Hfile; cbn [view dest]; rewrite ?Hfile;
    eexists; (split; [reflexivity | ]);
    (split; [rewrite files_put; try reflexivity; exact Hfile | ]);
    (split; [reflexivity | ]);
    unfold install_jar; cbn [jar_base new_jar downloaded_file set_downloaded_file
                               java_path jar_args];
    unfold run; rewrite Hargs; destruct (sub _); reflexivity.
Qed.

End InstallerFacts.

(** * Concrete runs of the installers *)

Example fabric_dest :
  Installer.dest_of plain_paths (Installer.exe_base fabric) test_url
  = "/tmp/fabric-1.0-installer/test.txt"
  /\ Installer.path_parent plain_paths "/tmp/fabric-1.0-installer/test.txt"
     = "/tmp/fabric-1.0-installer".
Proof. vm_compute. split; reflexivity. Qed.

Lemma download_success_witness :
  "/tmp/fabric-1.0-installer/test.txt"
  = Installer.dest_of plain_paths (Installer.exe_base fabric) test_url /\
  fst (snd (fabric_download serving (Some sample_sha1)))
  = Installer.set_downloaded_file (Some "/tmp/fabric-1.0-installer/test.txt")
      (Installer.exe_base fabric) /\
  exists data,
    Installer.files (snd (snd (fabric_download serving (Some sample_sha1))))
      "/tmp/fabric-1.0-installer/test.txt" = Some data /\
    (hash_supplied (Installer.download_args test_url (Some sample_sha1) true) = true ->
     exists hexdigest,
       hashlib_new sha1_lib "sha1" = Some hexdigest /\
       Some sample_sha1 = Some (hexdigest data)).
Proof.
  apply (download_success plain_paths sha1_lib serving (Installer.exe_base fabric) _
           test_url (Some sample_sha1) true empty_sys).
  vm_compute. reflexivity.
Defined.


(** The callback's exception goes through [download] unwrapped, with
    the first chunk left in the file and no [downloaded_file] set. *)
Example download_with_raising_callback :
  fst (Installer.download_under raising_callback plain_paths sha1_lib serving
         (Installer.exe_base fabric) test_url None true empty_sys)
  = Installer.Err (Installer.Uncaught (CallbackRaised false "RuntimeError")) /\
  Installer.files
    (snd (snd (Installer.download_under raising_callback plain_paths sha1_lib serving
                 (Installer.exe_base fabric) test_url None true empty_sys)))
    "/tmp/fabric-1.0-installer/test.txt"
  = Some (firstn 16 sample_content).
Proof. vm_compute. split; reflexivity. Qed.

Lemma failed_download_blocks_install_witness :
  fst (snd (fabric_download failing None)) = Installer.exe_base fabric /\
  (Installer.downloaded_file (Installer.exe_base fabric) = None ->
   Installer.install_executable quiet_runner
     (Installer.mkExecutable (fst (snd (fabric_download failing None)))
        (Installer.executable_args fabric) (Installer.silent_switches fabric))
     (snd (snd (fabric_download failing None)))
   = (Installer.Err (Installer.InstallationError "No installer downloaded"),
      snd (snd (fabric_download failing None)))) /\
  (forall f, Installer.downloaded_file (Installer.exe_base fabric) = Some f ->
     Installer.commands
       (snd (Installer.install_executable quiet_runner
               (Installer.mkExecutable (fst (snd (fabric_download failing None)))
                  (Installer.executable_args fabric) (Installer.silent_switches fabric))
               (snd (snd (fabric_download failing None)))))
     = Installer.commands (snd (snd (fabric_download failing None)))
       ++ [[f] ++ Installer.silent_switches fabric ++ Installer.executable_args fabric]).
Proof.
  apply (failed_download_blocks_install plain_paths sha1_lib failing quiet_runner
           fabric test_url None true empty_sys _ _
           (Installer.InstallationError
              "Failed to download fabric: Failed to download http://example.com/test.txt after 3 attempts")).
  vm_compute. reflexivity.
Defined.

(** A second download that fails, on an installer that downloaded
    before: [install] still runs the earlier file. *)
Example install_after_a_later_failure :
  Installer.commands
    (snd (Installer.install_executable quiet_runner
            (Installer.mkExecutable
               (fst (snd (Installer.download plain_paths sha1_lib failing
                            (fst (snd (fabric_download serving None)))
                            "http://example.com/other.bin" None true
                            (snd (snd (fabric_download serving None))))))
               (Installer.executable_args fabric) (Installer.silent_switches fabric))
            (snd (snd (Installer.download plain_paths sha1_lib failing
                         (fst (snd (fabric_download serving None)))
                         "http://example.com/other.bin" None true
                         (snd (snd (fabric_download serving None))))))))
  = [["/tmp/fabric-1.0-installer/test.txt"; "/S"; "/quiet"]].
Proof. vm_compute. reflexivity. Qed.

Lemma install_runs_the_download_witness :
  Installer.commands
    (snd (Installer.install_executable quiet_runner
            (Installer.mkExecutable (fst (snd (fabric_download serving None)))
               (Installer.executable_args fabric) (Installer.silent_switches fabric))
            (snd (snd (fabric_download serving None)))))
  = Installer.commands (snd (snd (fabric_download serving None)))
    ++ [["/tmp/fabric-1.0-installer/test.txt"] ++ ["/S"; "/quiet"] ++ []].
Proof.
  apply (install_runs_the_download plain_paths sha1_lib serving quiet_runner
           "fabric" "1.0" "/opt/game" "/tmp" test_url None (Some []) None true empty_sys).
  vm_compute. reflexivity.
Defined.

Lemma install_after_clean_runs_deleted_file_witness :
  exists s2,
    Installer.clean plain_paths (fst (snd (fabric_jar_download serving)))
      (snd (snd (fabric_jar_download serving)))
    = (Installer.Ok tt, (fst (snd (fabric_jar_download serving)), s2)) /\
    Installer.files s2 "/tmp/fabric-1.0-installer/test.txt" = None /\
    Installer.commands s2 = Installer.commands (snd (snd (fabric_jar_download serving))) /\
    Installer.commands
      (snd (Installer.install_jar quiet_runner
              (Installer.mkJar (fst (snd (fabric_jar_download serving))) "/usr/bin/java"
                 (Installer.jar_args fabric_jar)) s2))
    = Installer.commands (snd (snd (fabric_jar_download serving)))
      ++ [["/usr/bin/java"; "-jar"; "/tmp/fabric-1.0-installer/test.txt"]
          ++ ["--server"]].
Proof.
  apply (install_after_clean_runs_deleted_file plain_paths sha1_lib serving quiet_runner
           "fabric" "1.0" "/opt/game" "/tmp" "/usr/bin/java" test_url (Some ["--server"])
           None true empty_sys).
  vm_compute. reflexivity.
Defined.

(** * extractor.py: extraction in archive order *)

Section ExtractorFacts.
Import Extractor.
Variable pp : PurePath.
Variable libs : Libraries.

(** The loop extracts the members before the first that fails, reports
    each of them, and keeps what the failing one left. *)
Lemma extract_members_state cb total members : forall i d,
  snd (extract_members cb total members i d) = after_members cb total i members d /\
  (forall u, fst (extract_members cb total members i d) = Ok u ->
             extracted_before_failure members = members) /\
  (extracted_before_failure members <> members ->
   exists e, fst (extract_members cb total members i d) = Err e /\
             (e = BadArchive (text_of e) \/ e = Unexpected (text_of e))).
Proof.
  unfold after_members.
  induction members as [ | m rest IH]; intros i d.
  - cbn. rewrite !app_nil_r. destruct cb; cbn; rewrite ?app_nil_r.
    + split; [destruct d; reflexivity | split; [reflexivity | congruence]].
    + split; [destruct d; reflexivity | split; [reflexivity | congruence]].
  - cbn [extract_members extracted_before_failure debris].
    unfold extract_member, extractable.
    destruct (extraction m) as [ | msg lf | text lf] eqn:Em.
    + destruct (IH (i + 1)
                  (mkDisk (target d) (extracted d ++ [whole m])
                     (if cb then reports d ++ [(i, total)] else reports d)))
        as (Hs & Hok & Herr).
      fold (whole m). rewrite Hs. cbn [target extracted reports List.length map counted].
      split; [ | split].
      * f_equal; [rewrite <- !app_assoc; reflexivity | ].
        destruct cb; [rewrite <- app_assoc; reflexivity | reflexivity].
      * intros u Hu. rewrite (Hok u Hu). reflexivity.
      * intros Hne. apply Herr. congruence.
    + cbn [fst snd map List.length counted]. split; [ | split].
      * destruct cb; cbn; rewrite ?app_nil_r; reflexivity.
      * intros u H; discriminate.
      * intros _. eexists. split; [reflexivity | left; reflexivity].
    + cbn [fst snd map List.length counted]. split; [ | split].
      * destruct cb; cbn; rewrite ?app_nil_r; reflexivity.
      * intros u H; discriminate.
      * intros _. eexists. split; [reflexivity | right; reflexivity].
Qed.

Lemma after_no_members cb total i d : after_members cb total i [] d = d.
Proof.
  unfold after_members. cbn. destruct cb; cbn; rewrite !app_nil_r; destruct d; reflexivity.
Qed.

(** The same for the body of the two extractors, on the members of the
    listing. *)
Lemma extract_all_state listing cb d :
  snd (extract_all listing cb d)
  = after_members cb (Z.of_nat (List.length (members_of listing))) 1 (members_of listing) d /\
  (forall u, fst (extract_all listing cb d) = Ok u ->
             extracted_before_failure (members_of listing) = members_of listing) /\
  (extracted_before_failure (members_of listing) <> members_of listing ->
   exists e, fst (extract_all listing cb d) = Err e).
Proof.
  unfold extract_all. destruct listing as [l | msg | text]; cbn [members_of].
  - destruct (extract_members_state cb (Z.of_nat (List.length l)) l 1 d)
      as (Hs & Hok & Herr).
    split; [exact Hs | split; [exact Hok | ]].
    intros Hne. destruct (Herr Hne) as (e & He & _). eauto.
  - rewrite after_no_members. cbn. split; [reflexivity | split; [reflexivity | congruence]].
  - rewrite after_no_members. cbn. split; [reflexivity | split; [reflexivity | congruence]].
Qed.

Lemma extract_zip_all p cb d :
  snd (extract_zip libs p cb d) = snd (extract_all (zipfile libs p) cb d) /\
  (forall u, fst (extract_zip libs p cb d) = Ok u ->
             fst (extract_all (zipfile libs p) cb d) = Ok u) /\
  (forall e, fst (extract_all (zipfile libs p) cb d) = Err e ->
             exists e', fst (extract_zip libs p cb d) = Err e').
Proof.
  unfold extract_zip. destruct (extract_all _ _ _) as [[u | [msg | msg | text]] d1];
    cbn; repeat split; auto; try discriminate; eauto.
Qed.

Lemma extract_tar_all p cb d :
  snd (extract_tar libs p cb d) = snd (extract_all (tarfile libs p) cb d) /\
  (forall u, fst (extract_tar libs p cb d) = Ok u ->
             fst (extract_all (tarfile libs p) cb d) = Ok u) /\
  (forall e, fst (extract_all (tarfile libs p) cb d) = Err e ->
             exists e', fst (extract_tar libs p cb d) = Err e').
Proof.
  unfold extract_tar. destruct (extract_all _ _ _) as [[u | [msg | msg | text]] d1];
    cbn; repeat split; auto; try discriminate; eauto.
Qed.

(** The disk [extract_archive] leaves, and when it returns. *)
Lemma extract_archive_state p cb use7 seven d :
  snd (extract_archive pp libs p cb use7 seven d)
  = match target d with
    | Blocked _ => d
    | _ =>
        after_members cb (Z.of_nat (List.length (listed pp libs p))) 1 (listed pp libs p)
          (mkDisk Present (extracted d) (reports d))
    end /\
  (fst (extract_archive pp libs p cb use7 seven d) = Ok tt ->
   extracted_before_failure (listed pp libs p) = listed pp libs p) /\
  (extracted_before_failure (listed pp libs p) <> listed pp libs p ->
   (forall text, target d <> Blocked text) ->
   exists e, fst (extract_archive pp libs p cb use7 seven d) = Err e).
Proof.
  unfold extract_archive, listed, mkdir.
  destruct (target d) as [ | | text] eqn:Ht.
  3:{ cbn. split; [reflexivity | split; [discriminate | ]].
      intros _ H. exfalso. exact (H text eq_refl). }
  all: set (d1 := mkDisk Present (extracted d) (reports d));
    destruct (String.eqb (lower (suffix pp p)) ".zip");
    [ | destruct (among _ _ || endswith _ ".tgz" || endswith _ ".tbz2")%bool ].
  all: try (rewrite after_no_members; cbn;
            split; [reflexivity | split; [discriminate | congruence]]).
  all: match goal with
       | |- context [extract_zip _ _ _ _] =>
           destruct (extract_zip_all p cb d1) as (Hs & Hf & Hg);
           destruct (extract_all_state (zipfile libs p) cb d1) as (Ha & Hok & Herr)
       | |- context [extract_tar _ _ _ _] =>
           destruct (extract_tar_all p cb d1) as (Hs & Hf & Hg);
           destruct (extract_all_state (tarfile libs p) cb d1) as (Ha & Hok & Herr)
       end;
    fold (members_of (zipfile libs p)); fold (members_of (tarfile libs p));
    (split; [rewrite Hs; exact Ha | ]);
    (split; [intros H; apply (Hok tt); apply Hf; exact H | ]);
    intros Hne _; destruct (Herr Hne) as (e & He); exact (Hg e He).
Qed.

(** X25. [extract_archive] extracts the listed members in the order of
    the archive up to the first that cannot be extracted.  Afterwards
    [extract_to] exists and holds, after what it held, exactly the
    members before that one, in order, and what the failed extraction
    left of it; nothing is removed.  The callback received [(1, n)]
    to [(k, n)] for the [k] members extracted and the [n] listed
    (nothing without a callback).  The call returns only when every
    member was extracted, and fails when one cannot be. *)
Theorem extraction_stops_at_first_failure (archive_path : string)
  (progress_callback use_7z_if_available : bool) (seven_zip_path : option string)
  (d : Disk) :
  (forall text, target d <> Blocked text) ->
  snd (extract_archive pp libs archive_path progress_callback use_7z_if_available
         seven_zip_path d)
  = mkDisk Present
      (extracted d
       ++ map whole (extracted_before_failure (listed pp libs archive_path))
       ++ debris (listed pp libs archive_path))
      (reports d
       ++ (if progress_callback
           then counted (Z.of_nat (List.length (listed pp libs archive_path))) 1
                  (List.length (extracted_before_failure (listed pp libs archive_path)))
           else [])) /\
  (fst (extract_archive pp libs archive_path progress_callback use_7z_if_available
          seven_zip_path d) = Ok tt ->
   extracted_before_failure (listed pp libs archive_path) = listed pp libs archive_path) /\
  (extracted_before_failure (listed pp libs archive_path) <> listed pp libs archive_path ->
   exists e,
     fst (extract_archive pp libs archive_path progress_callback use_7z_if_available
            seven_zip_path d) = Err e).
Proof.
  intros Hfree.
  destruct (extract_archive_state archive_path progress_callback use_7z_if_available
              seven_zip_path d) as (Hs & Hok & Herr).
  split; [ | split; [exact Hok | intros Hne; exact (Herr Hne Hfree)]].
  rewrite Hs. destruct (target d) as [ | | text] eqn:Ht; try reflexivity.
  exfalso. exact (Hfree text eq_refl).
Qed.

Lemma length_append (a b : string) :
  String.length (a ++ b) = (String.length a + String.length b)%nat.
Proof. induction a as [ | c a IH]; cbn; [reflexivity | rewrite IH; reflexivity]. Qed.

(** A name whose last character is not that of [t] does not end with [t]. *)
Lemma endswith_last (stem u t : string) (c c' : ascii) :
  get (String.length u - 1) u = Some c ->
  get (String.length t - 1) t = Some c' ->
  c <> c' ->
  endswith (stem ++ u) t = false.
Proof.
  intros Hu Ht Hne. unfold endswith.
  destruct (Nat.leb _ _) eqn:Hle; [ | reflexivity]. cbn [andb].
  apply Nat.leb_le in Hle. rewrite length_append in Hle.
  destruct (String.eqb _ t) eqn:E; [ | reflexivity].
  apply String.eqb_eq in E. exfalso.
  assert (Hlt : (0 < String.length t)%nat).
  { destruct t; [discriminate | cbn; lia]. }
  assert (Hlu : (0 < String.length u)%nat).
  { destruct u; [discriminate | cbn; lia]. }
  pose proof (substring_correct1 (stem ++ u)
                (String.length (stem ++ u) - String.length t) (String.length t)
                (String.length t - 1) ltac:(lia)) as Hg.
  rewrite E, Ht, length_append in Hg.
  replace (String.length t - 1
           + (String.length stem + String.length u - String.length t))%nat
    with (String.length u - 1 + String.length stem)%nat in Hg by lia.
  rewrite <- append_correct2, Hu in Hg. congruence.
Qed.

(** X26. The suffixes are compared in lower case but the names are
    not: an archive named [*.TGZ] is rejected as unsupported (and the
    message shows [.tgz]), after [extract_to] was created and whatever
    the two 7z parameters say; nothing is extracted. *)
Theorem upper_case_tgz_is_unsupported (archive_path stem : string)
  (progress_callback use_7z_if_available : bool) (seven_zip_path : option string)
  (d : Disk) :
  name pp archive_path = (stem ++ ".TGZ")%string ->
  suffix pp archive_path = ".TGZ" ->
  (forall text, target d <> Blocked text) ->
  extract_archive pp libs archive_path progress_callback use_7z_if_available
    seven_zip_path d
  = (Err (ExtractionError "Unsupported archive format: .tgz. Try enabling 7z support."),
     mkDisk Present (extracted d) (reports d)).
Proof.
  intros Hname Hsuffix Hfree. unfold extract_archive, mkdir.
  rewrite Hname, Hsuffix.
  rewrite (endswith_last stem ".TGZ" ".tgz" "Z" "z") by (reflexivity || discriminate).
  rewrite (endswith_last stem ".TGZ" ".tbz2" "Z" "2") by (reflexivity || discriminate).
  destruct (target d) as [ | | text] eqn:Ht; [reflexivity | reflexivity | ].
  exfalso. exact (Hfree text eq_refl).
Qed.

(** X27. [ArchiveInstaller.install] accepts a progress callback but
    never calls it, and whatever goes wrong it raises nothing but an
    [InstallationError]: "No archive downloaded", with nothing done, or
    "Extraction failed: " and the text of the error. *)
Theorem archive_install_reports_nothing (self : Installer.BaseInstaller)
  (progress_callback : bool) (d : Disk) :
  reports (snd (Installer.install_archive pp libs self progress_callback d)) = reports d /\
  (fst (Installer.install_archive pp libs self progress_callback d) = Installer.Ok tt \/
   (fst (Installer.install_archive pp libs self progress_callback d)
    = Installer.Err (Installer.InstallationError "No archive downloaded") /\
    snd (Installer.install_archive pp libs self progress_callback d) = d) \/
   exists text,
     fst (Installer.install_archive pp libs self progress_callback d)
     = Installer.Err (Installer.InstallationError ("Extraction failed: " ++ text)%string)).
Proof.
  unfold Installer.install_archive.
  destruct (Installer.downloaded_file self) as [f | ]; [ | cbn; auto].
  destruct (extract_archive_state f false false None d) as (Hs & _).
  assert (Hr : reports (snd (extract_archive pp libs f false false None d)) = reports d).
  { rewrite Hs. destruct (target d); cbn; rewrite ?app_nil_r; reflexivity. }
  destruct (extract_archive pp libs f false false None d) as [[u | e] d1];
    cbn [fst snd] in *.
  - destruct u. auto.
  - split; [exact Hr | ]. right. right. eexists. reflexivity.
Qed.

End ExtractorFacts.

(** * Concrete runs of the extractor *)

Example suffixes :
  Extractor.suffix plain_names "/tmp/pack.tar.gz" = ".gz" /\
  Extractor.suffix plain_names "/tmp/.hidden" = EmptyString /\
  Extractor.name plain_names "/tmp/pack.TGZ" = "pack.TGZ".
Proof. vm_compute. repeat split. Qed.

Example lower_case_tgz_is_a_tar :
  fst (Extractor.extract_archive plain_names damaged_pack "/tmp/pack.tgz" true false None
         fresh_disk)
  = Extractor.Err (Extractor.ExtractionError "Invalid TAR file: not a tar").
Proof. vm_compute. reflexivity. Qed.

Lemma extraction_stops_at_first_failure_witness :
  snd (Extractor.extract_archive plain_names damaged_pack "/tmp/pack.ZIP" true false None
         fresh_disk)
  = Extractor.mkDisk Extractor.Present
      (Extractor.extracted fresh_disk
       ++ map whole (extracted_before_failure (listed plain_names damaged_pack "/tmp/pack.ZIP"))
       ++ debris (listed plain_names damaged_pack "/tmp/pack.ZIP"))
      (Extractor.reports fresh_disk
       ++ (if true
           then counted
                  (Z.of_nat (List.length (listed plain_names damaged_pack "/tmp/pack.ZIP")))
                  1
                  (List.length
                     (extracted_before_failure
                        (listed plain_names damaged_pack "/tmp/pack.ZIP")))
           else [])) /\
  (fst (Extractor.extract_archive plain_names damaged_pack "/tmp/pack.ZIP" true false None
          fresh_disk) = Extractor.Ok tt ->
   extracted_before_failure (listed plain_names damaged_pack "/tmp/pack.ZIP")
   = listed plain_names damaged_pack "/tmp/pack.ZIP") /\
  (extracted_before_failure (listed plain_names damaged_pack "/tmp/pack.ZIP")
   <> listed plain_names damaged_pack "/tmp/pack.ZIP" ->
   exists e,
     fst (Extractor.extract_archive plain_names damaged_pack "/tmp/pack.ZIP" true false None
            fresh_disk) = Extractor.Err e).
Proof.
  apply (extraction_stops_at_first_failure plain_names damaged_pack "/tmp/pack.ZIP"
           true false None fresh_disk).
  intros text. discriminate.
Defined.

(** That run: the first member extracted and reported, the second
    left in part, the third never tried. *)
Example damaged_pack_run :
  Extractor.extract_archive plain_names damaged_pack "/tmp/pack.ZIP" true false None
    fresh_disk
  = (Extractor.Err (Extractor.ExtractionError "Invalid ZIP file: Bad CRC-32"),
     Extractor.mkDisk Extractor.Present
       [Extractor.Whole "mods/a.jar"; Extractor.Partial "mods/b.jar"] [(1, 3)]).
Proof. vm_compute. reflexivity. Qed.

Lemma upper_case_tgz_is_unsupported_witness :
  Extractor.extract_archive plain_names damaged_pack "/tmp/pack.TGZ" true true
    (Some "/usr/bin/7z") fresh_disk
  = (Extractor.Err
       (Extractor.ExtractionError
          "Unsupported archive format: .tgz. Try enabling 7z support."),
     Extractor.mkDisk Extractor.Present (Extractor.extracted fresh_disk)
       (Extractor.reports fresh_disk)).
Proof.
  apply (upper_case_tgz_is_unsupported plain_names damaged_pack "/tmp/pack.TGZ" "pack"
           true true (Some "/usr/bin/7z") fresh_disk).
  - reflexivity.
  - reflexivity.
  - intros text. discriminate.
Defined.

(** * validator.py: snapshots and drift *)

Section ValidatorFacts.
Import Validator.

(** ** Sets and sorting *)

Lemma mem_In x l : mem x l = true <-> In x l.
Proof.
  unfold mem. rewrite existsb_exists. split.
  - intros (y & Hy & E). apply String.eqb_eq in E. subst. exact Hy.
  - intros H. exists x. split; [exact H | apply String.eqb_refl].
Qed.

Lemma mem_false x l : mem x l = false <-> ~ In x l.
Proof.
  rewrite <- mem_In. destruct (mem x l); split; intros H; congruence.
Qed.

Lemma to_set_In x l : In x (to_set l) <-> In x l.
Proof.
  induction l as [ | y l IH]; [reflexivity | ].
  cbn [to_set]. destruct (mem y l) eqn:E.
  - rewrite IH. apply mem_In in E. split; [right; assumption | ].
    intros [<- | H]; assumption.
  - cbn [In]. rewrite IH. reflexivity.
Qed.

Lemma to_set_NoDup l : NoDup (to_set l).
Proof.
  induction l as [ | y l IH]; [constructor | ].
  cbn [to_set]. destruct (mem y l) eqn:E; [exact IH | ].
  constructor; [ | exact IH]. rewrite to_set_In. apply mem_false. exact E.
Qed.

Lemma insert_sorted_In x y l : In x (insert_sorted y l) <-> x = y \/ In x l.
Proof.
  induction l as [ | z l IH]; cbn [insert_sorted In].
  - intuition congruence.
  - destruct (String.leb y z); cbn [In]; [intuition congruence | ].
    rewrite IH. intuition congruence.
Qed.

Lemma sorted_In x l : In x (sorted l) <-> In x l.
Proof.
  induction l as [ | y l IH]; [reflexivity | ].
  unfold sorted in *. cbn [fold_right]. rewrite insert_sorted_In, IH.
  cbn [In]. intuition congruence.
Qed.

Lemma insert_sorted_Sorted y l : Sorted str_le l -> Sorted str_le (insert_sorted y l).
Proof.
  induction l as [ | z l IH]; intros H; cbn [insert_sorted].
  - repeat constructor.
  - destruct (String.leb y z) eqn:E.
    + constructor; [exact H | constructor; exact E].
    + inversion H as [ | ? ? Hs Hh]; subst.
      constructor; [apply IH; exact Hs | ].
      assert (Hzy : str_le z y).
      { destruct (String.leb_total y z) as [H1 | H1]; [congruence | exact H1]. }
      destruct l as [ | u l]; cbn [insert_sorted].
      * constructor. exact Hzy.
      * destruct (String.leb y u); constructor; [exact Hzy | ].
        inversion Hh; assumption.
Qed.

Lemma sorted_Sorted l : Sorted str_le (sorted l).
Proof.
  induction l as [ | y l IH]; [constructor | ].
  unfold sorted in *. cbn [fold_right]. apply insert_sorted_Sorted. exact IH.
Qed.

Lemma insert_sorted_NoDup y l : ~ In y l -> NoDup l -> NoDup (insert_sorted y l).
Proof.
  induction l as [ | z l IH]; intros Hy Hl; cbn [insert_sorted].
  - repeat constructor. exact Hy.
  - destruct (String.leb y z); [constructor; assumption | ].
    inversion Hl; subst. constructor.
    + rewrite insert_sorted_In. cbn [In] in Hy. intuition congruence.
    + apply IH; [cbn [In] in Hy; tauto | assumption].
Qed.

Lemma sorted_NoDup l : NoDup l -> NoDup (sorted l).
Proof.
  induction l as [ | y l IH]; intros H; [constructor | ].
  inversion H; subst. unfold sorted in *. cbn [fold_right].
  apply insert_sorted_NoDup; [ | apply IH; assumption].
  change (~ In y (sorted l)). rewrite sorted_In. assumption.
Qed.

Lemma filter_NoDup {A} (f : A -> bool) l : NoDup l -> NoDup (filter f l).
Proof.
  induction 1 as [ | x l Hx Hl IH]; cbn [filter]; [constructor | ].
  destruct (f x); [ | exact IH]. constructor; [ | exact IH].
  rewrite filter_In. tauto.
Qed.

Lemma no_member_nil {A} (l : list A) : (forall x, ~ In x l) -> l = [].
Proof. destruct l as [ | x l]; [reflexivity | ]. intros H. destruct (H x). left. reflexivity. Qed.

Lemma only_member {A} (x : A) (l : list A) :
  NoDup l -> (forall y, In y l <-> y = x) -> l = [x].
Proof.
  intros Hn H. destruct l as [ | y l].
  - destruct (proj2 (H x) eq_refl).
  - assert (y = x) by (apply H; left; reflexivity). subst y.
    f_equal. apply no_member_nil. intros z Hz.
    assert (z = x) by (apply H; right; exact Hz). subst z.
    inversion Hn; contradiction.
Qed.

(** ** Dictionaries *)

Lemma dict_get_In {V} (d : list (string * V)) k v :
  dict_get d k = Some v -> In (k, v) d.
Proof.
  induction d as [ | [k' v'] d IH]; [discriminate | ].
  cbn [dict_get]. destruct (String.eqb k k') eqn:E.
  - intros H. inversion H; subst. apply String.eqb_eq in E. subst. left. reflexivity.
  - intros H. right. apply IH. exact H.
Qed.

Lemma dict_get_None {V} (d : list (string * V)) k :
  dict_get d k = None <-> ~ In k (map fst d).
Proof.
  induction d as [ | [k' v'] d IH]; [cbn; tauto | ].
  cbn [dict_get map fst In]. destruct (String.eqb k k') eqn:E.
  - apply String.eqb_eq in E. subst. split; [discriminate | ]. intros H. destruct H. auto.
  - apply String.eqb_neq in E. rewrite IH. intuition congruence.
Qed.

Lemma dict_get_unique {V} (d : list (string * V)) k v :
  NoDup (map fst d) -> In (k, v) d -> dict_get d k = Some v.
Proof.
  induction d as [ | [k' v'] d IH]; intros Hn Hin; [destruct Hin | ].
  cbn [dict_get]. cbn [map fst] in Hn. inversion Hn as [ | ? ? Hk Hd]; subst.
  destruct Hin as [Hin | Hin].
  - inversion Hin; subst. rewrite String.eqb_refl. reflexivity.
  - destruct (String.eqb k k') eqn:E.
    + apply String.eqb_eq in E. subst. destruct Hk.
      apply in_map_iff. exists (k', v). auto.
    + apply IH; assumption.
Qed.

Lemma dict_get_set {V} (d : list (string * V)) k v k0 :
  dict_get (dict_set d k v) k0 = if String.eqb k0 k then Some v else dict_get d k0.
Proof.
  induction d as [ | [k' v'] d IH]; cbn [dict_set dict_get].
  - destruct (String.eqb k0 k); reflexivity.
  - destruct (String.eqb k k') eqn:E; cbn [dict_get].
    + apply String.eqb_eq in E. subst k'.
      destruct (String.eqb k0 k); reflexivity.
    + rewrite IH. destruct (String.eqb k0 k') eqn:E2; [ | reflexivity].
      apply String.eqb_eq in E2. subst k'.
      rewrite String.eqb_sym, E. reflexivity.
Qed.

Lemma dict_set_keys {V} (d : list (string * V)) k v k0 :
  In k0 (map fst (dict_set d k v)) <-> k0 = k \/ In k0 (map fst d).
Proof.
  induction d as [ | [k' v'] d IH]; cbn [dict_set map fst In].
  - intuition congruence.
  - destruct (String.eqb k k') eqn:E; cbn [map fst In].
    + apply String.eqb_eq in E. subst k'. intuition congruence.
    + rewrite IH. intuition congruence.
Qed.

Lemma dict_set_NoDup {V} (d : list (string * V)) k v :
  NoDup (map fst d) -> NoDup (map fst (dict_set d k v)).
Proof.
  induction d as [ | [k' v'] d IH]; intros H; cbn [dict_set map fst].
  - repeat constructor. intros [].
  - cbn [map fst] in H. inversion H as [ | ? ? Hk Hd]; subst.
    destruct (String.eqb k k') eqn:E; cbn [map fst].
    + apply String.eqb_eq in E. subst k'. constructor; assumption.
    + constructor; [ | apply IH; assumption].
      rewrite dict_set_keys. apply String.eqb_neq in E. intuition congruence.
Qed.

(** ** Scanning and hashing *)

Lemma calculate_hash_eq data : calculate_hash data = Sha1.hexdigest data.
Proof. unfold calculate_hash. rewrite file_chunks_concat by lia. reflexivity. Qed.

Lemma scan_In self fs p data :
  In (p, data) (scan self fs) <-> In (p, data) (tree fs) /\ is_ignored self p = false.
Proof.
  unfold scan. rewrite filter_In. cbn [fst]. rewrite negb_true_iff. reflexivity.
Qed.

Lemma map_fst_filter_NoDup {V} (f : string * V -> bool) l :
  NoDup (map fst l) -> NoDup (map fst (filter f l)).
Proof.
  induction l as [ | e l IH]; intros H; cbn [filter map]; [constructor | ].
  cbn [map] in H. inversion H as [ | ? ? Hk Hd]; subst.
  destruct (f e); cbn [map]; [ | apply IH; assumption].
  constructor; [ | apply IH; assumption].
  intros Hin. apply Hk. apply in_map_iff in Hin as (x & Hx & Hin).
  apply filter_In in Hin as [Hin _]. apply in_map_iff. eauto.
Qed.

Lemma scan_unique self fs : unique_paths fs -> NoDup (map fst (scan self fs)).
Proof. apply map_fst_filter_NoDup. Qed.

Lemma present_keys self fs p : present self fs p <-> In p (map fst (scan self fs)).
Proof.
  unfold present. rewrite in_map_iff. split.
  - intros (data & H). exists (p, data). auto.
  - intros ([q data] & E & H). cbn in E. subst. eauto.
Qed.

Lemma hashes_get (E : list string) (l : list (string * bytes)) : forall acc p,
  NoDup (map fst l) ->
  dict_get
    (fold_left (fun hashes e =>
                  if mem (fst e) E
                  then dict_set hashes (fst e) (calculate_hash (snd e)) else hashes)
               l acc) p
  = if mem p E
    then match dict_get l p with
         | Some data => Some (calculate_hash data)
         | None => dict_get acc p
         end
    else dict_get acc p.
Proof.
  induction l as [ | [k dat] l IH]; intros acc p Hn.
  - cbn. destruct (mem p E); reflexivity.
  - cbn [fold_left fst snd]. cbn [map fst] in Hn. inversion Hn as [ | ? ? Hk Hl]; subst.
    rewrite IH by assumption. cbn [dict_get].
    destruct (String.eqb p k) eqn:Epk.
    + apply String.eqb_eq in Epk. subst p.
      assert (Hnone : dict_get l k = None) by (apply dict_get_None; exact Hk).
      rewrite Hnone.
      destruct (mem k E); [ | reflexivity].
      rewrite dict_get_set, String.eqb_refl. reflexivity.
    + destruct (mem k E); [ | reflexivity].
      rewrite dict_get_set, Epk. reflexivity.
Qed.

Lemma modified_among_ok d hashes fs : forall both,
  (forall f, In f both -> exists v h, dict_get d f = Some v /\ dict_get hashes f = Some h) ->
  exists l,
    modified_among d hashes fs both = Ok l /\
    (forall f, In f l <->
               In f both /\
               exists v h, dict_get d f = Some v /\ dict_get hashes f = Some h /\
                           v <> Null /\ v <> Str h) /\
    (NoDup both -> NoDup l).
Proof.
  induction both as [ | f rest IH]; intros Hall.
  - exists []. split; [reflexivity | ]. split; [ | auto].
    intros f. cbn. tauto.
  - destruct IH as (l & Hl & Hmem & Hnd).
    { intros g Hg. apply Hall. right. exact Hg. }
    destruct (Hall f (or_introl eq_refl)) as (v & h & Hv & Hh).
    cbn [modified_among]. rewrite Hv, Hh, Hl.
    assert (Hsame : (v = Null \/ v = Str h) ->
              forall g, In g l <->
                In g (f :: rest) /\
                exists v0 h0, dict_get d g = Some v0 /\ dict_get hashes g = Some h0 /\
                              v0 <> Null /\ v0 <> Str h0).
    { intros Hv' g. rewrite Hmem. cbn [In]. split.
      - intros (Hg & Hx). split; [right; exact Hg | exact Hx].
      - intros ([<- | Hg] & Hx); [ | split; assumption].
        destruct Hx as (v0 & h0 & Hv0 & Hh0 & Hn1 & Hn2).
        rewrite Hv in Hv0. rewrite Hh in Hh0. inversion Hv0; inversion Hh0; subst.
        destruct Hv'; contradiction. }
    assert (Hadd : v <> Null -> v <> Str h ->
              forall g, In g (f :: l) <->
                In g (f :: rest) /\
                exists v0 h0, dict_get d g = Some v0 /\ dict_get hashes g = Some h0 /\
                              v0 <> Null /\ v0 <> Str h0).
    { intros Hn1 Hn2 g. cbn [In]. rewrite Hmem. split.
      - intros [<- | (Hg & Hx)]; [ | split; [right; exact Hg | exact Hx]].
        split; [left; reflexivity | ]. exists v, h. auto.
      - intros ([<- | Hg] & Hx); [left; reflexivity | right; split; assumption]. }
    assert (Hnd' : NoDup (f :: rest) -> NoDup (f :: l)).
    { intros Hn. inversion Hn; subst. constructor; [ | auto].
      rewrite Hmem. tauto. }
    assert (Hnd0 : NoDup (f :: rest) -> NoDup l).
    { intros Hn. inversion Hn; subst. auto. }
    destruct v as [ | h' | ].
    + exists l. split; [reflexivity | ]. split; [apply Hsame; left; reflexivity | exact Hnd0].
    + destruct (String.eqb h h') eqn:Eh.
      * apply String.eqb_eq in Eh. subst h'.
        exists l. split; [reflexivity | ].
        split; [apply Hsame; right; reflexivity | exact Hnd0].
      * apply String.eqb_neq in Eh.
        exists (f :: l). split; [reflexivity | ].
        split; [apply Hadd; congruence | exact Hnd'].
    + exists (f :: l). split; [reflexivity | ].
      split; [apply Hadd; congruence | exact Hnd'].
Qed.

(** What [compare] reports, list by list. *)
Lemma compare_report self d fs :
  unique_paths fs ->
  exists r,
    compare self d fs = Ok r /\
    (forall p, In p (missing r) <-> In p (map fst d) /\ ~ present self fs p) /\
    (forall p, In p (extra r) <-> present self fs p /\ ~ In p (map fst d)) /\
    (forall p, In p (modified r) <->
               exists v data,
                 dict_get d p = Some v /\ In (p, data) (scan self fs) /\
                 v <> Null /\ v <> Str (Sha1.hexdigest data)) /\
    (Sorted str_le (missing r) /\ NoDup (missing r)) /\
    (Sorted str_le (extra r) /\ NoDup (extra r)) /\
    (Sorted str_le (modified r) /\ NoDup (modified r)).
Proof.
  intros Hu. pose proof (scan_unique self fs Hu) as Hsu.
  unfold compare.
  set (E := to_set (map fst d)).
  set (C := to_set (map fst (scan self fs))).
  set (hashes := fold_left _ (scan self fs) []).
  assert (HE : forall p, In p E <-> In p (map fst d)) by (intros; apply to_set_In).
  assert (HC : forall p, In p C <-> present self fs p).
  { intros p. unfold C. rewrite to_set_In, present_keys. reflexivity. }
  assert (Hhash : forall p, In p E -> forall data, In (p, data) (scan self fs) ->
            dict_get hashes p = Some (Sha1.hexdigest data)).
  { intros p Hp data Hin. unfold hashes. rewrite hashes_get by exact Hsu.
    rewrite (proj2 (mem_In p E) Hp).
    rewrite (dict_get_unique _ _ _ Hsu Hin), calculate_hash_eq. reflexivity. }
  destruct (modified_among_ok d hashes fs (filter (fun p => mem p C) E))
    as (l & Hl & Hmem & Hnd).
  { intros f Hf. apply filter_In in Hf as [HfE HfC].
    apply mem_In in HfC. apply HC in HfC as (data & Hdata).
    pose proof (Hhash f HfE data Hdata) as Hh.
    apply HE in HfE.
    destruct (dict_get d f) as [v | ] eqn:Hv;
      [eauto | apply dict_get_None in Hv; contradiction]. }
  rewrite Hl. eexists. split; [reflexivity | ]. cbn [missing extra modified].
  split; [ | split; [ | split; [ | split; [ | split]]]].
  - intros p. rewrite sorted_In, filter_In, negb_true_iff, mem_false, HE, HC. reflexivity.
  - intros p. rewrite sorted_In, filter_In, negb_true_iff, mem_false, HE, HC. reflexivity.
  - intros p. rewrite sorted_In, Hmem, filter_In, mem_In, HC. split.
    + intros ((HpE & (data & Hdata)) & v & h & Hv & Hh & Hn1 & Hn2).
      exists v, data. rewrite (Hhash p HpE data Hdata) in Hh.
      inversion Hh; subst. auto.
    + intros (v & data & Hv & Hdata & Hn1 & Hn2).
      assert (HpE : In p E).
      { apply HE. apply dict_get_In in Hv. apply in_map_iff. exists (p, v). auto. }
      split; [split; [exact HpE | exists data; exact Hdata] | ].
      exists v, (Sha1.hexdigest data). rewrite (Hhash p HpE data Hdata). auto.
  - split; [apply sorted_Sorted | ].
    apply sorted_NoDup, filter_NoDup, to_set_NoDup.
  - split; [apply sorted_Sorted | ].
    apply sorted_NoDup, filter_NoDup, to_set_NoDup.
  - split; [apply sorted_Sorted | ].
    apply sorted_NoDup, Hnd, filter_NoDup, to_set_NoDup.
Qed.

(** ** The substring test *)

Lemma prefix_app p s : prefix p s = true <-> exists b, s = (p ++ b)%string.
Proof.
  revert s. induction p as [ | c p IH]; intros s.
  - split; [intros _; exists s; reflexivity | intros _; destruct s; reflexivity].
  - destruct s as [ | c' s]; cbn [prefix];
      [split; [discriminate | intros (b & H); discriminate] | ].
    destruct (ascii_dec c c') as [<- | Hne].
    + rewrite IH. split; intros (b & H); exists b; cbn in *; congruence.
    + split; [discriminate | ]. intros (b & H). cbn in H. congruence.
Qed.

(** [contains] is Python's [in] on strings: the pattern occurs as a
    contiguous substring. *)
Lemma contains_spec p s :
  contains p s = true <-> exists a b, s = (a ++ p ++ b)%string.
Proof.
  induction s as [ | c s IH]; cbn [contains]; rewrite orb_true_iff, prefix_app.
  - split.
    + intros [(b & H) | H]; [exists EmptyString, b; exact H | discriminate].
    + intros (a & b & H). left. destruct a; [exists b; exact H | discriminate].
  - rewrite IH. split.
    + intros [(b & H) | (a & b & H)].
      * exists EmptyString, b. exact H.
      * exists (String c a), b. cbn. congruence.
    + intros (a & b & H). destruct a as [ | c' a].
      * left. exists b. exact H.
      * right. exists a, b. cbn in H. congruence.
Qed.

Lemma empty_pattern_ignores self p :
  In EmptyString (ignore_patterns self) -> is_ignored self p = true.
Proof.
  intros H. unfold is_ignored. apply existsb_exists.
  exists EmptyString. split; [exact H | ].
  apply contains_spec. exists EmptyString, p. reflexivity.
Qed.

(** ** validate and quick_check on a cached snapshot *)

Lemma ensure_cached json self fs doc d :
  snapshot self = Some doc ->
  dict_get doc "files" = Some (Files d) ->
  ensure_snapshot json self fs = (Ok doc, self) /\ files_of doc = Ok d.
Proof.
  intros Hs Hd. unfold ensure_snapshot, files_of. rewrite Hs, Hd.
  destruct doc as [ | [k v] rest]; [discriminate | auto].
Qed.

Lemma validate_cached json self fs doc d :
  snapshot self = Some doc ->
  dict_get doc "files" = Some (Files d) ->
  validate json self fs = (compare self d fs, self).
Proof.
  intros Hs Hd. unfold validate.
  destruct (ensure_cached json self fs doc d Hs Hd) as [-> Hf].
  rewrite Hs, Hf. reflexivity.
Qed.

(** X16. What [validate] reports against a cached snapshot: the
    missing files are the snapshot's paths that are not files the scan
    keeps, the extra files are the scanned files the snapshot does not
    list, the modified files are those in both whose expected value is
    neither [null] nor the SHA-1 hex digest of the content; each list
    is sorted and free of duplicates. *)
Theorem validate_report_meaning (json : JsonLib) (self : FileValidator) (fs : FS)
  (doc : Snapshot) (d : list (string * value)) :
  snapshot self = Some doc ->
  dict_get doc "files" = Some (Files d) ->
  unique_paths fs ->
  exists r,
    validate json self fs = (Ok r, self) /\
    (forall p, In p (missing r) <-> In p (map fst d) /\ ~ present self fs p) /\
    (forall p, In p (extra r) <-> present self fs p /\ ~ In p (map fst d)) /\
    (forall p, In p (modified r) <->
               exists v data,
                 dict_get d p = Some v /\ In (p, data) (scan self fs) /\
                 v <> Null /\ v <> Str (Sha1.hexdigest data)) /\
    (Sorted str_le (missing r) /\ NoDup (missing r)) /\
    (Sorted str_le (extra r) /\ NoDup (extra r)) /\
    (Sorted str_le (modified r) /\ NoDup (modified r)).
Proof.
  intros Hs Hd Hu. rewrite (validate_cached json self fs doc d Hs Hd).
  destruct (compare_report self d fs Hu) as (r & Hr & H).
  exists r. rewrite Hr. auto.
Qed.

(** X17. A path the snapshot lists and an ignore pattern matches is
    reported missing whether or not the file exists: ignored files are
    never counted as present. *)
Theorem ignored_entries_reported_missing (json : JsonLib) (self : FileValidator)
  (fs : FS) (doc : Snapshot) (d : list (string * value)) (p : string) :
  snapshot self = Some doc ->
  dict_get doc "files" = Some (Files d) ->
  unique_paths fs ->
  In p (map fst d) ->
  is_ignored self p = true ->
  exists r, validate json self fs = (Ok r, self) /\ In p (missing r).
Proof.
  intros Hs Hd Hu Hp Hi. rewrite (validate_cached json self fs doc d Hs Hd).
  destruct (compare_report self d fs Hu) as (r & Hr & Hm & _).
  exists r. rewrite Hr. split; [reflexivity | ].
  apply Hm. split; [exact Hp | ].
  intros (data & Hin). apply scan_In in Hin as [_ Hin]. congruence.
Qed.

Lemma forallb_no_extra (E : list string) (l : list (string * bytes)) :
  forallb (fun e => mem (fst e) E) l
  = match sorted (filter (fun p => negb (mem p E)) (to_set (map fst l))) with
    | [] => true
    | _ :: _ => false
    end.
Proof.
  destruct (forallb (fun e => mem (fst e) E) l) eqn:Hall.
  - rewrite (no_member_nil (sorted _)); [reflexivity | ].
    intros x Hx. apply sorted_In, filter_In in Hx as [Hx Hm].
    apply to_set_In, in_map_iff in Hx as (e & <- & He).
    rewrite forallb_forall in Hall. rewrite (Hall e He) in Hm. discriminate.
  - assert (Hex : exists e, In e l /\ mem (fst e) E = false).
    { clear - Hall. induction l as [ | e l IH]; [discriminate | ].
      cbn [forallb] in Hall. destruct (mem (fst e) E) eqn:Em.
      - destruct (IH Hall) as (x & Hx & Hm). exists x. split; [right; exact Hx | exact Hm].
      - exists e. split; [left; reflexivity | exact Em]. }
    destruct Hex as (e & He & Hm).
    assert (Hin : In (fst e) (sorted (filter (fun p => negb (mem p E))
                                         (to_set (map fst l))))).
    { apply sorted_In, filter_In. split; [ | rewrite Hm; reflexivity].
      apply to_set_In, in_map. exact He. }
    destruct (sorted _); [destruct Hin | reflexivity].
Qed.

(** X18. [quick_check] agrees with [validate]: whenever [validate]
    returns a report, [quick_check] returns [True] exactly when the
    report lists no extra file, and leaves the validator in the same
    state. *)
Theorem quick_check_iff_no_extra (json : JsonLib) (self self' : FileValidator)
  (fs : FS) (r : Report) :
  validate json self fs = (Ok r, self') ->
  quick_check json self fs
  = (Ok match extra r with [] => true | _ :: _ => false end, self').
Proof.
  unfold validate, quick_check.
  destruct (ensure_snapshot json self fs) as [[doc | e] self1]; [ | discriminate].
  destruct (snapshot self1) as [doc1 | ]; [ | discriminate].
  destruct (files_of doc1) as [d | e]; [ | discriminate].
  unfold compare.
  destruct (modified_among _ _ _ _) as [l | e]; [ | discriminate].
  intros H. inversion H; subst. cbn [extra].
  rewrite forallb_no_extra. reflexivity.
Qed.

(** X19. [load_snapshot] stores the document before checking it: a
    snapshot file that parses to a non-empty object without ['files']
    makes the first [validate] raise the ValidationError, and the
    object stays cached, so that the next [validate] and [quick_check]
    raise KeyError instead. *)
Theorem invalid_snapshot_stays_cached (json : JsonLib) (self : FileValidator) (fs : FS)
  (content : bytes) (k : string) (v : field) (rest : Snapshot) :
  snapshot self = None ->
  snapshot_exists self fs = Some content ->
  loads json content = Some ((k, v) :: rest) ->
  dict_get ((k, v) :: rest) "files" = None ->
  validate json self fs
  = (Err (ValidationError "Invalid snapshot format: missing 'files'"),
     set_snapshot (Some ((k, v) :: rest)) self) /\
  validate json (set_snapshot (Some ((k, v) :: rest)) self) fs
  = (Err (KeyError "files"), set_snapshot (Some ((k, v) :: rest)) self) /\
  quick_check json (set_snapshot (Some ((k, v) :: rest)) self) fs
  = (Err (KeyError "files"), set_snapshot (Some ((k, v) :: rest)) self).
Proof.
  intros Hs He Hl Hd.
  unfold validate, quick_check, ensure_snapshot, load_snapshot, files_of.
  rewrite Hs, He, Hl, Hd. cbn [snapshot set_snapshot]. rewrite Hd. auto.
Qed.

(** ** generate_snapshot, then validate *)

Lemma dict_set_fresh {V} (d : list (string * V)) k v :
  ~ In k (map fst d) -> dict_set d k v = d ++ [(k, v)].
Proof.
  induction d as [ | [k' v'] d IH]; intros H; cbn [dict_set app]; [reflexivity | ].
  cbn [map fst In] in H.
  destruct (String.eqb k k') eqn:E.
  - apply String.eqb_eq in E. subst. tauto.
  - rewrite IH by tauto. reflexivity.
Qed.

Lemma fold_dict_set_fresh {V} (g : string * bytes -> V) (l : list (string * bytes)) :
  forall acc,
    NoDup (map fst l) ->
    (forall k, In k (map fst l) -> ~ In k (map fst acc)) ->
    fold_left (fun files e => dict_set files (fst e) (g e)) l acc
    = acc ++ map (fun e => (fst e, g e)) l.
Proof.
  induction l as [ | e l IH]; intros acc Hn Hd; cbn [fold_left map].
  - rewrite app_nil_r. reflexivity.
  - cbn [map] in Hn. inversion Hn as [ | ? ? He Hl]; subst.
    rewrite dict_set_fresh by (apply Hd; left; reflexivity).
    rewrite IH; [rewrite <- app_assoc; reflexivity | exact Hl | ].
    intros k Hk. rewrite map_app, in_app_iff. cbn [map fst In].
    intros [H | [H | []]].
    + apply (Hd k); [right; exact Hk | exact H].
    + subst k. contradiction.
Qed.

Lemma generate_snapshot_eq json self description fs :
  unique_paths fs ->
  generate_snapshot json self description fs
  = (let snap := [("version", Text "1.0"); ("description", Text description);
                  ("files", Files (generated_files self fs))] in
     (snap, (set_snapshot (Some snap) self, write_snapshot self (dumps json snap) fs))).
Proof.
  intros Hu. unfold generate_snapshot, generated_files.
  rewrite (fold_dict_set_fresh (fun e => Str (calculate_hash (snd e))))
    by (try apply scan_unique; auto).
  reflexivity.
Qed.

Lemma generated_files_keys self fs p :
  In p (map fst (generated_files self fs)) <-> present self fs p.
Proof.
  unfold generated_files. rewrite map_map. cbn [fst].
  rewrite present_keys. reflexivity.
Qed.

Lemma generated_files_get self fs p v :
  unique_paths fs ->
  (dict_get (generated_files self fs) p = Some v <->
   exists data, In (p, data) (scan self fs) /\ v = Str (Sha1.hexdigest data)).
Proof.
  intros Hu. split.
  - intros H. apply dict_get_In in H. unfold generated_files in H.
    apply in_map_iff in H as ([q data] & E & Hin). cbn [fst snd] in E.
    inversion E; subst.
    exists data. rewrite calculate_hash_eq. auto.
  - intros (data & Hin & ->). apply dict_get_unique.
    + unfold generated_files. rewrite map_map. cbn [fst]. apply scan_unique. exact Hu.
    + unfold generated_files. apply in_map_iff. exists (p, data).
      rewrite calculate_hash_eq. auto.
Qed.

Lemma scan_functional self fs p data data' :
  unique_paths fs ->
  In (p, data) (scan self fs) -> In (p, data') (scan self fs) -> data = data'.
Proof.
  intros Hu H1 H2. pose proof (scan_unique self fs Hu) as Hn.
  apply (dict_get_unique _ _ _ Hn) in H1. apply (dict_get_unique _ _ _ Hn) in H2.
  congruence.
Qed.

(** The report of a validation that follows [generate_snapshot], on
    any later state [fs'] of the directory. *)
Lemma generated_report json self description fs fs' :
  unique_paths fs ->
  unique_paths fs' ->
  exists r,
    validate json (fst (snd (generate_snapshot json self description fs))) fs'
    = (Ok r, fst (snd (generate_snapshot json self description fs))) /\
    (forall p, In p (missing r) <-> present self fs p /\ ~ present self fs' p) /\
    (forall p, In p (extra r) <-> present self fs' p /\ ~ present self fs p) /\
    (forall p, In p (modified r) <->
               exists data data',
                 In (p, data) (scan self fs) /\ In (p, data') (scan self fs') /\
                 Sha1.hexdigest data' <> Sha1.hexdigest data) /\
    NoDup (missing r) /\ NoDup (extra r) /\ NoDup (modified r).
Proof.
  intros Hu Hu'. rewrite (generate_snapshot_eq json self description fs Hu).
  cbv zeta. cbn [fst snd].
  set (snap := [("version", Text "1.0"); ("description", Text description);
                ("files", Files (generated_files self fs))]).
  rewrite (validate_cached json (set_snapshot (Some snap) self) fs' snap
             (generated_files self fs)) by reflexivity.
  destruct (compare_report (set_snapshot (Some snap) self) (generated_files self fs) fs' Hu')
    as (r & Hr & Hm & He & Hmod & (_ & Hn1) & (_ & Hn2) & (_ & Hn3)).
  change (scan (set_snapshot (Some snap) self) fs') with (scan self fs') in *.
  change (present (set_snapshot (Some snap) self) fs') with (present self fs') in *.
  exists r. rewrite Hr. split; [reflexivity | ].
  split; [ | split; [ | split; [ | auto]]].
  - intros p. rewrite Hm, generated_files_keys. reflexivity.
  - intros p. rewrite He, generated_files_keys. reflexivity.
  - intros p. rewrite Hmod. split.
    + intros (v & data' & Hv & Hin' & Hn1' & Hn2').
      apply generated_files_get in Hv as (data & Hin & ->); [ | exact Hu].
      exists data, data'. repeat split; auto. congruence.
    + intros (data & data' & Hin & Hin' & Hne).
      exists (Str (Sha1.hexdigest data)), data'.
      split; [apply generated_files_get; [exact Hu | eauto] | ].
      split; [exact Hin' | ]. split; [discriminate | congruence].
Qed.

(** X20. Drift detection.  After [generate_snapshot], [validate] on a
    later state of the directory reports as missing the files that
    were scanned then and are not now, as extra those scanned now and
    not then, and as modified those scanned both times whose SHA-1
    digest changed. *)
Theorem drift_detection (json : JsonLib) (self : FileValidator) (description : string)
  (fs fs' : FS) :
  unique_paths fs ->
  unique_paths fs' ->
  exists r,
    validate json (fst (snd (generate_snapshot json self description fs))) fs'
    = (Ok r, fst (snd (generate_snapshot json self description fs))) /\
    (forall p, In p (missing r) <-> present self fs p /\ ~ present self fs' p) /\
    (forall p, In p (extra r) <-> present self fs' p /\ ~ present self fs p) /\
    (forall p, In p (modified r) <->
               exists data data',
                 In (p, data) (scan self fs) /\ In (p, data') (scan self fs') /\
                 Sha1.hexdigest data' <> Sha1.hexdigest data).
Proof.
  intros Hu Hu'.
  destruct (generated_report json self description fs fs' Hu Hu') as (r & H1 & H2 & H3 & H4 & _).
  exists r. auto.
Qed.

Lemma scan_write_ignored self fs content rel :
  snapshot_file self = InRoot rel ->
  is_ignored self rel = true ->
  scan self (write_snapshot self content fs) = scan self fs.
Proof.
  intros Hl Hi. unfold write_snapshot, scan. rewrite Hl. cbn [tree].
  induction (tree fs) as [ | [k v] t IH]; cbn [dict_set filter fst].
  - rewrite Hi. reflexivity.
  - destruct (String.eqb rel k) eqn:E; cbn [filter fst].
    + apply String.eqb_eq in E. subst k. rewrite Hi. reflexivity.
    + rewrite IH. reflexivity.
Qed.

Lemma write_snapshot_unique self content fs :
  unique_paths fs -> unique_paths (write_snapshot self content fs).
Proof.
  unfold unique_paths, write_snapshot.
  destruct (snapshot_file self); cbn [tree]; [apply dict_set_NoDup | auto].
Qed.

(** X21. Round trip.  When the snapshot file lies outside the scanned
    files (elsewhere, or under an ignored path), a [validate] that
    follows [generate_snapshot] on the unchanged directory reports
    nothing. *)
Theorem snapshot_round_trip (json : JsonLib) (self : FileValidator) (description : string)
  (fs : FS) :
  unique_paths fs ->
  snapshot_file self = Elsewhere \/
  (exists rel, snapshot_file self = InRoot rel /\ is_ignored self rel = true) ->
  validate json (fst (snd (generate_snapshot json self description fs)))
    (snd (snd (generate_snapshot json self description fs)))
  = (Ok (mkReport [] [] []), fst (snd (generate_snapshot json self description fs))).
Proof.
  intros Hu Hloc.
  set (fs1 := snd (snd (generate_snapshot json self description fs))).
  assert (Hfs1 : exists content, fs1 = write_snapshot self content fs).
  { unfold fs1. rewrite (generate_snapshot_eq json self description fs Hu).
    eexists. reflexivity. }
  destruct Hfs1 as (content & Hfs1).
  assert (Hscan : scan self fs1 = scan self fs).
  { rewrite Hfs1. destruct Hloc as [Hl | (rel & Hl & Hi)].
    - unfold write_snapshot, scan. rewrite Hl. reflexivity.
    - apply scan_write_ignored with (rel := rel); assumption. }
  assert (Hu1 : unique_paths fs1) by (rewrite Hfs1; apply write_snapshot_unique; exact Hu).
  destruct (generated_report json self description fs fs1 Hu Hu1)
    as (r & Hr & Hm & He & Hmod & _).
  rewrite Hr. f_equal.
  assert (Hpres : forall p, present self fs1 p <-> present self fs p)
    by (intros p; unfold present; rewrite Hscan; reflexivity).
  destruct r as [ms ex md]. cbn [missing extra modified] in *.
  f_equal. f_equal.
  - apply no_member_nil. intros p Hp. apply Hm in Hp. rewrite Hpres in Hp. tauto.
  - apply no_member_nil. intros p Hp. apply He in Hp. rewrite Hpres in Hp. tauto.
  - apply no_member_nil. intros p Hp.
    apply Hmod in Hp as (data & data' & H1 & H2 & Hne). rewrite Hscan in H2.
    rewrite (scan_functional self fs p data data' Hu H1 H2) in Hne. congruence.
Qed.

(** X22. A snapshot file that is created under [root_dir], at a path
    no pattern ignores, is itself reported: the [validate] that follows
    [generate_snapshot] lists exactly that path as extra. *)
Theorem snapshot_inside_root_is_extra (json : JsonLib) (self : FileValidator)
  (description : string) (fs : FS) (rel : string) :
  unique_paths fs ->
  snapshot_file self = InRoot rel ->
  is_ignored self rel = false ->
  ~ In rel (map fst (tree fs)) ->
  validate json (fst (snd (generate_snapshot json self description fs)))
    (snd (snd (generate_snapshot json self description fs)))
  = (Ok (mkReport [] [rel] []), fst (snd (generate_snapshot json self description fs))).
Proof.
  intros Hu Hl Hi Hnew.
  set (fs1 := snd (snd (generate_snapshot json self description fs))).
  assert (Hfs1 : exists content, fs1 = write_snapshot self content fs).
  { unfold fs1. rewrite (generate_snapshot_eq json self description fs Hu).
    eexists. reflexivity. }
  destruct Hfs1 as (content & Hfs1).
  assert (Hscan : scan self fs1 = scan self fs ++ [(rel, content)]).
  { rewrite Hfs1. unfold write_snapshot, scan. rewrite Hl. cbn [tree].
    rewrite dict_set_fresh by exact Hnew.
    rewrite filter_app. cbn [filter fst]. rewrite Hi. reflexivity. }
  assert (Hu1 : unique_paths fs1) by (rewrite Hfs1; apply write_snapshot_unique; exact Hu).
  assert (Hnp : ~ present self fs rel).
  { intros (data & Hin). apply scan_In in Hin as [Hin _].
    apply Hnew. apply in_map_iff. exists (rel, data). auto. }
  assert (Hpres : forall p, present self fs1 p <-> present self fs p \/ p = rel).
  { intros p. unfold present. rewrite Hscan. split.
    - intros (data & Hin). apply in_app_iff in Hin as [Hin | [Hin | []]];
        [left; eauto | right; congruence].
    - intros [(data & Hin) | ->].
      + exists data. apply in_app_iff. auto.
      + exists content. apply in_app_iff. right. left. reflexivity. }
  destruct (generated_report json self description fs fs1 Hu Hu1)
    as (r & Hr & Hm & He & Hmod & _ & Hn2 & _).
  rewrite Hr. f_equal.
  destruct r as [ms ex md]. cbn [missing extra modified] in *.
  assert (H1 : ms = []).
  { apply no_member_nil. intros p Hp. apply Hm in Hp. rewrite Hpres in Hp. tauto. }
  assert (H2 : ex = [rel]).
  { apply only_member; [exact Hn2 | ]. intros p. rewrite He, Hpres. split.
    - intros [[H | H] Hn]; [contradiction | exact H].
    - intros ->. auto. }
  assert (H3 : md = []).
  { apply no_member_nil. intros p Hp.
    apply Hmod in Hp as (data & data' & Hd1 & Hd2 & Hne).
    rewrite Hscan in Hd2. apply in_app_iff in Hd2 as [Hd2 | [Hd2 | []]].
    - rewrite (scan_functional self fs p data data' Hu Hd1 Hd2) in Hne. congruence.
    - inversion Hd2; subst. apply Hnp. exists data. exact Hd1. }
  subst. reflexivity.
Qed.

(** X23. An empty string among the ignore patterns matches every path:
    every file the snapshot lists is then reported missing, nothing is
    extra or modified, and [quick_check] returns [True]. *)
Theorem empty_pattern_hides_everything (json : JsonLib) (self : FileValidator) (fs : FS)
  (doc : Snapshot) (d : list (string * value)) :
  snapshot self = Some doc ->
  dict_get doc "files" = Some (Files d) ->
  In EmptyString (ignore_patterns self) ->
  exists ms,
    validate json self fs = (Ok (mkReport ms [] []), self) /\
    (forall p, In p ms <-> In p (map fst d)) /\
    quick_check json self fs = (Ok true, self).
Proof.
  intros Hs Hd Hempty.
  assert (Hscan : scan self fs = []).
  { unfold scan. apply no_member_nil. intros e He.
    apply filter_In in He as [_ He].
    rewrite (empty_pattern_ignores self (fst e) Hempty) in He. discriminate. }
  rewrite (validate_cached json self fs doc d Hs Hd).
  unfold quick_check.
  destruct (ensure_cached json self fs doc d Hs Hd) as [-> Hf]. rewrite Hs, Hf.
  unfold compare. rewrite Hscan. cbn.
  assert (Hnone : forall l : list string, filter (fun _ => false) l = [])
    by (induction l; auto).
  rewrite Hnone. cbn.
  eexists. split; [reflexivity | ]. split; [ | reflexivity].
  intros p. rewrite sorted_In, filter_In, to_set_In. tauto.
Qed.

End ValidatorFacts.

(** * Concrete runs of the validator *)

Lemma game_dir_unique : unique_paths game_dir.
Proof. repeat constructor; cbn; intuition discriminate. Qed.

Lemma game_dir_later_unique : unique_paths game_dir_later.
Proof. repeat constructor; cbn; intuition discriminate. Qed.

Example validate_after_changes :
  fst (Validator.validate plain_json
         (fst (snd (Validator.generate_snapshot plain_json assets "d" game_dir)))
         game_dir_later)
  = Validator.Ok (Validator.mkReport ["a/x.bin"] ["n.txt"] ["b.txt"]).
Proof. vm_compute. reflexivity. Qed.

Lemma validate_report_meaning_witness :
  exists r,
    Validator.validate plain_json assets_stale game_dir = (Validator.Ok r, assets_stale) /\
    (forall p, In p (Validator.missing r) <->
               In p (map fst [("cache/t", Validator.Null)])
               /\ ~ present assets_stale game_dir p) /\
    (forall p, In p (Validator.extra r) <->
               present assets_stale game_dir p
               /\ ~ In p (map fst [("cache/t", Validator.Null)])) /\
    (forall p, In p (Validator.modified r) <->
               exists v data,
                 Validator.dict_get [("cache/t", Validator.Null)] p = Some v /\
                 In (p, data) (Validator.scan assets_stale game_dir) /\
                 v <> Validator.Null /\ v <> Validator.Str (Sha1.hexdigest data)) /\
    (Sorted str_le (Validator.missing r) /\ NoDup (Validator.missing r)) /\
    (Sorted str_le (Validator.extra r) /\ NoDup (Validator.extra r)) /\
    (Sorted str_le (Validator.modified r) /\ NoDup (Validator.modified r)).
Proof.
  apply (validate_report_meaning plain_json assets_stale game_dir
           [("files", Validator.Files [("cache/t", Validator.Null)])]).
  - reflexivity.
  - reflexivity.
  - exact game_dir_unique.
Defined.

Lemma ignored_entries_reported_missing_witness :
  exists r,
    Validator.validate plain_json assets_stale game_dir = (Validator.Ok r, assets_stale) /\
    In "cache/t" (Validator.missing r).
Proof.
  apply (ignored_entries_reported_missing plain_json assets_stale game_dir
           [("files", Validator.Files [("cache/t", Validator.Null)])]
           [("cache/t", Validator.Null)]).
  - reflexivity.
  - reflexivity.
  - exact game_dir_unique.
  - left. reflexivity.
  - reflexivity.
Defined.

Lemma quick_check_iff_no_extra_witness :
  Validator.quick_check plain_json assets_stale game_dir
  = (Validator.Ok
       match Validator.extra (Validator.mkReport ["cache/t"] ["a/x.bin"; "b.txt"] []) with
       | [] => true
       | _ :: _ => false
       end, assets_stale).
Proof.
  apply (quick_check_iff_no_extra plain_json assets_stale assets_stale game_dir
           (Validator.mkReport ["cache/t"] ["a/x.bin"; "b.txt"] [])).
  vm_compute. reflexivity.
Defined.

Lemma invalid_snapshot_stays_cached_witness :
  Validator.validate plain_json assets (Validator.mkFS [] (Some []))
  = (Validator.Err (Validator.ValidationError "Invalid snapshot format: missing 'files'"),
     Validator.set_snapshot (Some [("version", Validator.Text "1.0")]) assets) /\
  Validator.validate plain_json
    (Validator.set_snapshot (Some [("version", Validator.Text "1.0")]) assets)
    (Validator.mkFS [] (Some []))
  = (Validator.Err (Validator.KeyError "files"),
     Validator.set_snapshot (Some [("version", Validator.Text "1.0")]) assets) /\
  Validator.quick_check plain_json
    (Validator.set_snapshot (Some [("version", Validator.Text "1.0")]) assets)
    (Validator.mkFS [] (Some []))
  = (Validator.Err (Validator.KeyError "files"),
     Validator.set_snapshot (Some [("version", Validator.Text "1.0")]) assets).
Proof.
  apply (invalid_snapshot_stays_cached plain_json assets (Validator.mkFS [] (Some [])) []
           "version" (Validator.Text "1.0") []).
  - reflexivity.
  - reflexivity.
  - reflexivity.
  - reflexivity.
Defined.

Lemma drift_detection_witness :
  exists r,
    Validator.validate plain_json
      (fst (snd (Validator.generate_snapshot plain_json assets "d" game_dir)))
      game_dir_later
    = (Validator.Ok r,
       fst (snd (Validator.generate_snapshot plain_json assets "d" game_dir))) /\
    (forall p, In p (Validator.missing r) <->
               present assets game_dir p /\ ~ present assets game_dir_later p) /\
    (forall p, In p (Validator.extra r) <->
               present assets game_dir_later p /\ ~ present assets game_dir p) /\
    (forall p, In p (Validator.modified r) <->
               exists data data',
                 In (p, data) (Validator.scan assets game_dir) /\
                 In (p, data') (Validator.scan assets game_dir_later) /\
                 Sha1.hexdigest data' <> Sha1.hexdigest data).
Proof.
  apply (drift_detection plain_json assets "d" game_dir game_dir_later).
  - exact game_dir_unique.
  - exact game_dir_later_unique.
Defined.

Lemma snapshot_round_trip_witness :
  Validator.validate plain_json
    (fst (snd (Validator.generate_snapshot plain_json assets "d" game_dir)))
    (snd (snd (Validator.generate_snapshot plain_json assets "d" game_dir)))
  = (Validator.Ok (Validator.mkReport [] [] []),
     fst (snd (Validator.generate_snapshot plain_json assets "d" game_dir))).
Proof.
  apply (snapshot_round_trip plain_json assets "d" game_dir).
  - exact game_dir_unique.
  - left. reflexivity.
Defined.

Lemma snapshot_inside_root_is_extra_witness :
  Validator.validate plain_json
    (fst (snd (Validator.generate_snapshot plain_json assets_inside "d" game_dir)))
    (snd (snd (Validator.generate_snapshot plain_json assets_inside "d" game_dir)))
  = (Validator.Ok (Validator.mkReport [] ["snap.json"] []),
     fst (snd (Validator.generate_snapshot plain_json assets_inside "d" game_dir))).
Proof.
  apply (snapshot_inside_root_is_extra plain_json assets_inside "d" game_dir "snap.json").
  - exact game_dir_unique.
  - reflexivity.
  - reflexivity.
  - cbn. intuition discriminate.
Defined.

Lemma empty_pattern_hides_everything_witness :
  exists ms,
    Validator.validate plain_json assets_blind game_dir
    = (Validator.Ok (Validator.mkReport ms [] []), assets_blind) /\
    (forall p, In p ms <-> In p (map fst [("b.txt", Validator.Str "00")])) /\
    Validator.quick_check plain_json assets_blind game_dir = (Validator.Ok true, assets_blind).
Proof.
  apply (empty_pattern_hides_everything plain_json assets_blind game_dir
           [("files", Validator.Files [("b.txt", Validator.Str "00")])]).
  - reflexivity.
  - reflexivity.
  - left. reflexivity.
Defined.
